(** * Page pools of the hikey tree: DMA-BUF pool, shared drm page pool,
      TTM populate path and the dynamic (ION style) pool.

    Shallow embedding of
    - src/unnamed/part_000, first file  : the DMA-BUF page pool
      (drm_page_pool_add / _remove / _fetch / _shrink_one / _shrink_scan),
    - src/unnamed/part_000, second file : the shared drm page pool
      (drm_page_pool_add / _remove / _shrink / _shrinker_scan),
    - src/drivers/gpu/drm/ttm/ttm_pool.c : ttm_pool_alloc on top of the
      shared pool,
    - src/unnamed/part_001 : the other ttm_pool copy (ttm_pool_free),
    - src/unnamed/part_002 : the dynamic page pool.

    Conventions.  A page is its page frame number (nat); a run of order o
    with head p consists of the base pages p, p+1, ..., p + 2^o - 1.  A pool
    pointer is a bucket identifier.  int and atomic_long counters are Z.
    Lists are the kernel's intrusive lists, first element = list head. *)

From Stdlib Require Import List ZArith Lia Bool Arith Permutation.
Import ListNotations.

(** Events observed on the lock and callback interface. *)
Inductive lock_event :=
| MutexLock               (* mutex_lock(&pool_list_lock / &shrinker_lock) *)
| MutexUnlock
| SpinLock                (* spin_lock(&pool->lock) *)
| SpinUnlock
| FreeCallback (p : nat)  (* pool->free(...) on run p *)
| MoveTail.               (* list_move_tail(&pool->list, ...) *)

(** For each free-callback of a log, whether the registry mutex was held
    when it ran. *)
Fixpoint callback_mutex_states (held : bool) (l : list lock_event) : list bool :=
  match l with
  | [] => []
  | MutexLock :: r => callback_mutex_states true r
  | MutexUnlock :: r => callback_mutex_states false r
  | FreeCallback _ :: r => held :: callback_mutex_states held r
  | _ :: r => callback_mutex_states held r
  end.

(** [1 << order] *)
Definition pages_of (order : nat) : Z := Z.shiftl 1 (Z.of_nat order).


(* ------------------------------------------------------------------ *)
(** * The DMA-BUF page pool (part_000, lines 1-196) *)
Module DmaBufPool.
Local Open Scope Z_scope.

Record drm_page_pool := {
  dp_id : nat;           (* the pool pointer *)
  count : Z;             (* int count *)
  items : list nat;      (* struct list_head items *)
  order : nat;
}.

Record state := {
  pool_list : list drm_page_pool;   (* static LIST_HEAD(pool_list) *)
  total_pages : Z;                  (* static atomic_long_t total_pages *)
  log : list lock_event;
}.

Definition empty_state : state :=
  {| pool_list := []; total_pages := 0; log := [] |}.

Fixpoint find_pool (id : nat) (l : list drm_page_pool) : option drm_page_pool :=
  match l with
  | [] => None
  | b :: r => if Nat.eqb (dp_id b) id then Some b else find_pool id r
  end.

Fixpoint replace_pool (b' : drm_page_pool) (l : list drm_page_pool) : list drm_page_pool :=
  match l with
  | [] => []
  | b :: r => if Nat.eqb (dp_id b) (dp_id b') then b' :: r else b :: replace_pool b' r
  end.

Fixpoint delete_pool (id : nat) (l : list drm_page_pool) : list drm_page_pool :=
  match l with
  | [] => []
  | b :: r => if Nat.eqb (dp_id b) id then r else b :: delete_pool id r
  end.

(** The free callback installed by the only user of this pool
    (ttm_pool_free_page of part_001) returns [1 << order]. *)
Definition drm_page_pool_free_pages (pool : drm_page_pool) (p : nat) : Z :=
  pages_of (order pool).

(** drm_page_pool_add: list_add_tail, count++, total_pages += 1 << order *)
Definition drm_page_pool_add (id p : nat) (s : state) : state :=
  match find_pool id (pool_list s) with
  | None => s
  | Some pool =>
      {| pool_list :=
           replace_pool {| dp_id := id; count := count pool + 1;
                           items := items pool ++ [p]; order := order pool |}
                        (pool_list s);
         total_pages := total_pages s + pages_of (order pool);
         log := log s |}
  end.

(** drm_page_pool_remove (called with pool->lock held): the bucket part.
    The caller subtracts [1 << order] from total_pages. *)
Definition drm_page_pool_remove (pool : drm_page_pool)
  : option (nat * drm_page_pool) :=
  if (count pool =? 0)%Z then None
  else match items pool with
       | [] => None  (* list_first_entry on an empty list; unreachable while
                        count equals the list length *)
       | p :: rest =>
           Some (p, {| dp_id := dp_id pool; count := count pool - 1;
                       items := rest; order := order pool |})
       end.

(** drm_page_pool_fetch *)
Definition drm_page_pool_fetch (id : nat) (s : state) : option nat * state :=
  match find_pool id (pool_list s) with
  | None => (None, s)
  | Some pool =>
      match drm_page_pool_remove pool with
      | None => (None, s)
      | Some (p, pool') =>
          (Some p, {| pool_list := replace_pool pool' (pool_list s);
                      total_pages := total_pages s - pages_of (order pool);
                      log := log s |})
      end
  end.

(** drm_page_pool_create: list_add at the head of pool_list *)
Definition drm_page_pool_create (id order0 : nat) (s : state) : state :=
  {| pool_list := {| dp_id := id; count := 0; items := []; order := order0 |}
                  :: pool_list s;
     total_pages := total_pages s; log := log s |}.

(** the [while (pool->count)] loop of drm_page_pool_destroy, on a pool
    already unlinked from pool_list *)
Fixpoint destroy_drain (fuel : nat) (pool : drm_page_pool) (tp : Z)
    (lg : list lock_event) : Z * list lock_event :=
  match fuel with
  | O => (tp, lg)
  | S f =>
      match drm_page_pool_remove pool with
      | None => (tp, lg)
      | Some (p, pool') =>
          destroy_drain f pool' (tp - pages_of (order pool))
                        (lg ++ [SpinUnlock; FreeCallback p; SpinLock])
      end
  end.

Definition drm_page_pool_destroy (id : nat) (s : state) : state :=
  match find_pool id (pool_list s) with
  | None => s
  | Some pool =>
      let '(tp, lg) := destroy_drain (length (items pool)) pool (total_pages s)
                         (log s ++ [MutexLock; MutexUnlock; SpinLock]) in
      {| pool_list := delete_pool id (pool_list s); total_pages := tp;
         log := lg ++ [SpinUnlock] |}
  end.

(** drm_page_pool_shrink_one; [None] is list_first_entry on an empty
    pool_list. *)
Definition drm_page_pool_shrink_one (s : state) : option (Z * state) :=
  match pool_list s with
  | [] => None
  | pool :: rest =>
      match drm_page_pool_remove pool with
      | None =>
          Some (0, {| pool_list := rest ++ [pool]; total_pages := total_pages s;
                      log := log s ++ [MutexLock; SpinLock; SpinUnlock;
                                       MoveTail; MutexUnlock] |})
      | Some (p, pool') =>
          let nr_freed := drm_page_pool_free_pages pool p in
          Some (nr_freed,
                {| pool_list := rest ++ [pool'];
                   total_pages := total_pages s - pages_of (order pool);
                   log := log s ++ [MutexLock; SpinLock; SpinUnlock;
                                    FreeCallback p; MoveTail; MutexUnlock] |})
      end
  end.

(** the do { ... } while (to_scan >= 0 && total_pages) loop *)
Fixpoint shrink_scan_loop (fuel : nat) (to_scan nr_total : Z) (s : state)
  : option (Z * state) :=
  match fuel with
  | O => None
  | S f =>
      match drm_page_pool_shrink_one s with
      | None => None
      | Some (nr_freed, s1) =>
          let to_scan' := to_scan - nr_freed in
          let nr_total' := nr_total + nr_freed in
          if (0 <=? to_scan') && negb (total_pages s1 =? 0)
          then shrink_scan_loop f to_scan' nr_total' s1
          else Some (nr_total', s1)
      end
  end.

(** enough iterations for the loop: at most |pool_list| rotations before
    each freeing call *)
Definition scan_fuel (nr_to_scan : Z) (s : state) : nat :=
  (S (Z.to_nat nr_to_scan + 1) * S (length (pool_list s)))%nat.

Definition drm_page_pool_shrink_scan (nr_to_scan : Z) (s : state)
  : option (Z * state) :=
  if (nr_to_scan =? 0)%Z then Some (0, s)
  else shrink_scan_loop (scan_fuel nr_to_scan s) nr_to_scan 0 s.

Inductive step : state -> state -> Prop :=
| step_create id o s : step s (drm_page_pool_create id o s)
| step_destroy id s : step s (drm_page_pool_destroy id s)
| step_add id p s : step s (drm_page_pool_add id p s)
| step_fetch id s p s' : drm_page_pool_fetch id s = (p, s') -> step s s'
| step_shrink s n s' : drm_page_pool_shrink_one s = Some (n, s') -> step s s'
| step_scan nr s n s' : drm_page_pool_shrink_scan nr s = Some (n, s') -> step s s'.

Inductive reachable : state -> Prop :=
| reach_init : reachable empty_state
| reach_step s s' : reachable s -> step s s' -> reachable s'.

Fixpoint sum_pages (l : list drm_page_pool) : Z :=
  match l with
  | [] => 0
  | b :: r => count b * pages_of (order b) + sum_pages r
  end.

End DmaBufPool.

(* ------------------------------------------------------------------ *)
(** * The shared drm page pool (part_000, lines 198-489) *)
Module SharedPool.
Local Open Scope Z_scope.

Record drm_page_pool (K : Type) := {
  sp_id : K;              (* the pool pointer *)
  order : nat;
  pages : list nat;       (* struct list_head pages *)
  page_count : Z;         (* unsigned long page_count *)
}.
Arguments sp_id {K} _.
Arguments order {K} _.
Arguments pages {K} _.
Arguments page_count {K} _.

Record state (K : Type) := {
  shrinker_list : list (drm_page_pool K);  (* static struct list_head shrinker_list *)
  nr_managed_pages : Z;                    (* static atomic_long_t nr_managed_pages *)
  page_pool_size : Z;                      (* module parameter page_pool_size *)
  mem : nat -> Z;                          (* contents of each base page; 0 = cleared *)
  log : list lock_event;
}.
Arguments shrinker_list {K} _.
Arguments nr_managed_pages {K} _.
Arguments page_pool_size {K} _.
Arguments mem {K} _.
Arguments log {K} _.

Definition mem_upd (m : nat -> Z) (q : nat) (v : Z) : nat -> Z :=
  fun x => if Nat.eqb x q then v else m x.

(** clear_highpage and clear_page both fill the page with zeros *)
Definition clear_highpage (m : nat -> Z) (q : nat) : nat -> Z := mem_upd m q 0.
Definition clear_page (m : nat -> Z) (q : nat) : nat -> Z := mem_upd m q 0.

Section Shared.
Variable K : Type.
Variable K_eq_dec : forall x y : K, {x = y} + {x <> y}.
(** PageHighMem(p) *)
Variable PageHighMem : nat -> bool.

Definition same_id (a b : K) : bool := if K_eq_dec a b then true else false.

Fixpoint find_pool (id : K) (l : list (drm_page_pool K)) : option (drm_page_pool K) :=
  match l with
  | [] => None
  | b :: r => if same_id (sp_id b) id then Some b else find_pool id r
  end.

Fixpoint replace_pool (b' : drm_page_pool K) (l : list (drm_page_pool K))
  : list (drm_page_pool K) :=
  match l with
  | [] => []
  | b :: r => if same_id (sp_id b) (sp_id b') then b' :: r else b :: replace_pool b' r
  end.

Fixpoint delete_pool (id : K) (l : list (drm_page_pool K)) : list (drm_page_pool K) :=
  match l with
  | [] => []
  | b :: r => if same_id (sp_id b) id then r else b :: delete_pool id r
  end.

Definition with_list (s : state K) (l : list (drm_page_pool K)) (n : Z)
    (lg : list lock_event) : state K :=
  {| shrinker_list := l; nr_managed_pages := n; page_pool_size := page_pool_size s;
     mem := mem s; log := lg |}.

(** [for (i = 0; i < num_pages; ++i) if (PageHighMem(p)) clear_highpage(p + i);
     else clear_page(page_address(p + i));] *)
Fixpoint clear_loop (hm : bool) (p i k : nat) (m : nat -> Z) : nat -> Z :=
  match k with
  | O => m
  | S k' => clear_loop hm p (S i) k'
              (if hm then clear_highpage m (p + i) else clear_page m (p + i))
  end.

(** drm_page_pool_add up to the trimming loop (lines 293-307) *)
Definition add_run (id : K) (p : nat) (s : state K) : state K :=
  match find_pool id (shrinker_list s) with
  | None => s
  | Some pool =>
      let m := clear_loop (PageHighMem p) p 0 (2 ^ order pool) (mem s) in
      {| shrinker_list :=
           replace_pool {| sp_id := id; order := order pool; pages := p :: pages pool;
                           page_count := page_count pool + pages_of (order pool) |}
                        (shrinker_list s);
         nr_managed_pages := nr_managed_pages s + pages_of (order pool);
         page_pool_size := page_pool_size s; mem := m; log := log s |}
  end.

(** the list part of drm_page_pool_remove: list_first_entry_or_null,
    page_count -= 1 << order, list_del *)
Definition take_first (pool : drm_page_pool K) : option (nat * drm_page_pool K) :=
  match pages pool with
  | [] => None
  | p :: rest =>
      Some (p, {| sp_id := sp_id pool; order := order pool; pages := rest;
                  page_count := page_count pool - pages_of (order pool) |})
  end.

(** drm_page_pool_remove *)
Definition drm_page_pool_remove (id : K) (s : state K) : option nat * state K :=
  match find_pool id (shrinker_list s) with
  | None => (None, s)
  | Some pool =>
      match take_first pool with
      | None => (None, s)
      | Some (p, pool') =>
          (Some p, with_list s (replace_pool pool' (shrinker_list s))
                     (nr_managed_pages s - pages_of (order pool)) (log s))
      end
  end.

(** drm_page_pool_shrink; [None] is list_first_entry on an empty
    shrinker_list. *)
Definition drm_page_pool_shrink (s : state K) : option (Z * state K) :=
  match shrinker_list s with
  | [] => None
  | pool :: rest =>
      match take_first pool with
      | None =>
          Some (0, with_list s (rest ++ [pool]) (nr_managed_pages s)
                     (log s ++ [MutexLock; SpinLock; SpinUnlock; MoveTail; MutexUnlock]))
      | Some (p, pool') =>
          Some (pages_of (order pool),
                with_list s (rest ++ [pool']) (nr_managed_pages s - pages_of (order pool))
                  (log s ++ [MutexLock; SpinLock; SpinUnlock; FreeCallback p;
                             MoveTail; MutexUnlock]))
      end
  end.

(** [while (page_pool_size && drm_page_pool_get_total() > page_pool_size)
       drm_page_pool_shrink();] *)
Fixpoint trim_loop (fuel : nat) (s : state K) : option (state K) :=
  match fuel with
  | O => None
  | S f =>
      if negb (page_pool_size s =? 0) && (page_pool_size s <? nr_managed_pages s)
      then match drm_page_pool_shrink s with
           | None => None
           | Some (_, s1) => trim_loop f s1
           end
      else Some s
  end.

(** enough iterations: at most |shrinker_list| rotations per freed run *)
Definition trim_fuel (s : state K) : nat :=
  (S (Z.to_nat (nr_managed_pages s)) * S (length (shrinker_list s)))%nat.

(** drm_page_pool_add *)
Definition drm_page_pool_add (id : K) (p : nat) (s : state K) : option (state K) :=
  let s1 := add_run id p s in trim_loop (trim_fuel s1) s1.

(** drm_page_pool_init: list_add_tail to shrinker_list *)
Definition drm_page_pool_init (id : K) (order0 : nat) (s : state K) : state K :=
  with_list s (shrinker_list s ++ [{| sp_id := id; order := order0; pages := [];
                                      page_count := 0 |}])
    (nr_managed_pages s) (log s).

(** the [while ((p = drm_page_pool_remove(pool))) pool->free(pool, p);]
    loop of drm_page_pool_fini, on a pool already unlinked *)
Fixpoint fini_drain (pool_pages : list nat) (o : nat) (n : Z) (lg : list lock_event)
  : Z * list lock_event :=
  match pool_pages with
  | [] => (n, lg)
  | p :: rest => fini_drain rest o (n - pages_of o) (lg ++ [SpinLock; SpinUnlock; FreeCallback p])
  end.

(** drm_page_pool_fini *)
Definition drm_page_pool_fini (id : K) (s : state K) : state K :=
  match find_pool id (shrinker_list s) with
  | None => s
  | Some pool =>
      let '(n, lg) := fini_drain (pages pool) (order pool) (nr_managed_pages s)
                        (log s ++ [MutexLock; MutexUnlock]) in
      with_list s (delete_pool id (shrinker_list s)) n lg
  end.

(** [do num_freed += drm_page_pool_shrink();
     while (!num_freed && atomic_long_read(&nr_managed_pages));] *)
Fixpoint shrinker_scan_loop (fuel : nat) (num_freed : Z) (s : state K)
  : option (Z * state K) :=
  match fuel with
  | O => None
  | S f =>
      match drm_page_pool_shrink s with
      | None => None
      | Some (n, s1) =>
          let nf := num_freed + n in
          if (nf =? 0) && negb (nr_managed_pages s1 =? 0)
          then shrinker_scan_loop f nf s1
          else Some (nf, s1)
      end
  end.

(** drm_page_pool_shrinker_scan; sc->nr_to_scan is not read *)
Definition drm_page_pool_shrinker_scan (nr_to_scan : Z) (s : state K)
  : option (Z * state K) :=
  shrinker_scan_loop (S (length (shrinker_list s))) 0 s.

(** a base page q lies in a run linked in some bucket *)
Definition pooled (s : state K) (q : nat) : Prop :=
  exists b p, In b (shrinker_list s) /\ In p (pages b) /\
              (p <= q < p + 2 ^ order b)%nat.

(** Operations of the module and of its callers; [step_write] is a
    caller writing to a page it owns (not pooled). *)
Inductive step : state K -> state K -> Prop :=
| step_init id o s : step s (drm_page_pool_init id o s)
| step_fini id s : step s (drm_page_pool_fini id s)
| step_add id p s s' : drm_page_pool_add id p s = Some s' -> step s s'
| step_remove id s p s' : drm_page_pool_remove id s = (p, s') -> step s s'
| step_shrink s n s' : drm_page_pool_shrink s = Some (n, s') -> step s s'
| step_scan nr s n s' : drm_page_pool_shrinker_scan nr s = Some (n, s') -> step s s'
| step_set_size s v : 0 <= v -> step s (
    {| shrinker_list := shrinker_list s; nr_managed_pages := nr_managed_pages s;
       page_pool_size := v; mem := mem s; log := log s |})
| step_write s q v : ~ pooled s q -> step s (
    {| shrinker_list := shrinker_list s; nr_managed_pages := nr_managed_pages s;
       page_pool_size := page_pool_size s; mem := mem_upd (mem s) q v; log := log s |}).

(** module load: empty list and counter, any page_pool_size, any memory *)
Inductive reachable : state K -> Prop :=
| reach_init sz m : 0 <= sz ->
    reachable {| shrinker_list := []; nr_managed_pages := 0; page_pool_size := sz;
                 mem := m; log := [] |}
| reach_step s s' : reachable s -> step s s' -> reachable s'.

Fixpoint sum_page_count (l : list (drm_page_pool K)) : Z :=
  match l with
  | [] => 0
  | b :: r => page_count b + sum_page_count r
  end.

End Shared.

Arguments find_pool {K} K_eq_dec id l.
Arguments drm_page_pool_remove {K} K_eq_dec id s.
Arguments drm_page_pool_add {K} K_eq_dec PageHighMem id p s.
Arguments drm_page_pool_init {K} id order0 s.
Arguments drm_page_pool_fini {K} K_eq_dec id s.
Arguments drm_page_pool_shrink {K} s.
Arguments drm_page_pool_shrinker_scan {K} nr_to_scan s.
Arguments reachable {K} K_eq_dec PageHighMem s.
Arguments pooled {K} s q.
Arguments same_id {K} K_eq_dec a b.
Arguments replace_pool {K} K_eq_dec b' l.
Arguments delete_pool {K} K_eq_dec id l.
Arguments with_list {K} s l n lg.
Arguments add_run {K} K_eq_dec PageHighMem id p s.
Arguments take_first {K} pool.
Arguments trim_loop {K} fuel s.
Arguments trim_fuel {K} s.
Arguments shrinker_scan_loop {K} fuel num_freed s.
Arguments sum_page_count {K} l.
Arguments step {K} K_eq_dec PageHighMem _ _.

End SharedPool.

(* ------------------------------------------------------------------ *)
(** * ttm_pool_alloc (src/drivers/gpu/drm/ttm/ttm_pool.c) *)
Module Ttm.

(** CONFIG_FORCE_MAX_ZONEORDER default *)
Definition MAX_ORDER : nat := 11.
Definition PAGE_SIZE : Z := 4096.
Definition ENOMEM : Z := 12.
Definition EFAULT : Z := 14.

Inductive ttm_caching := ttm_cached | ttm_write_combined | ttm_uncached.

(** the struct ttm_pool_type a pointer from ttm_pool_select_type denotes *)
Inductive pool_type :=
| PoolOwn (c : ttm_caching) (order : nat)   (* &pool->caching[c].orders[order] *)
| GlobalWC (order : nat)                    (* &global_write_combined[order] *)
| GlobalUC (order : nat)                    (* &global_uncached[order] *)
| GlobalDma32WC (order : nat)               (* &global_dma32_write_combined[order] *)
| GlobalDma32UC (order : nat).              (* &global_dma32_uncached[order] *)

Definition pool_type_eq_dec (x y : pool_type) : {x = y} + {x <> y}.
Proof. decide equality; try apply Nat.eq_dec; decide equality. Defined.

Definition pool_type_order (t : pool_type) : nat :=
  match t with
  | PoolOwn _ o | GlobalWC o | GlobalUC o | GlobalDma32WC o | GlobalDma32UC o => o
  end.

Record ttm_pool := { use_dma_alloc : bool; use_dma32 : bool }.

(** the fields of struct ttm_tt read by ttm_pool_alloc; [has_dma_address]
    is tt->dma_address != NULL, [zero_alloc] is TTM_PAGE_FLAG_ZERO_ALLOC *)
Record ttm_tt := {
  tt_num_pages : nat; tt_caching : ttm_caching;
  has_dma_address : bool; zero_alloc : bool }.

Record ttm_operation_ctx := { gfp_retry_mayfail : bool }.

(** gfp flags: GFP_USER plus __GFP_ZERO, __GFP_RETRY_MAYFAIL, GFP_DMA32,
    GFP_HIGHUSER, and the high-order set __GFP_NOMEMALLOC | __GFP_NORETRY |
    __GFP_NOWARN | __GFP_KSWAPD_RECLAIM *)
Record gfp_t := {
  gfp_zero : bool; gfp_retry : bool; gfp_dma32 : bool; gfp_highuser : bool;
  gfp_high_order : bool }.

Inductive tevent :=
| TIter (order remaining : nat)  (* start of an iteration of the allocation loop *)
| TTake (p order : nat)          (* run returned by drm_page_pool_remove *)
| TAlloc (p order : nat)         (* run returned by ttm_pool_alloc_page *)
| TAllocFail (order : nat)       (* ttm_pool_alloc_page returned NULL *)
| TFree (p order : nat).         (* ttm_pool_free_page *)

Record tstate := {
  sp : SharedPool.state pool_type;  (* the shared pools and nr_managed_pages *)
  priv : nat -> nat;                (* order read back by ttm_pool_page_order *)
  ncalls : nat;                     (* allocator calls so far *)
  tlog : list tevent }.

Definition set_sp (s : tstate) (x : SharedPool.state pool_type) : tstate :=
  {| sp := x; priv := priv s; ncalls := ncalls s; tlog := tlog s |}.
Definition add_ev (s : tstate) (e : tevent) : tstate :=
  {| sp := sp s; priv := priv s; ncalls := ncalls s; tlog := tlog s ++ [e] |}.

Definition ret_of (e : option positive) : Z :=
  match e with None => 0%Z | Some n => Z.neg n end.

Section Alloc.
Variable config_x86 : bool.
Variable PageHighMem : nat -> bool.
(** alloc_pages, and kmalloc + dma_alloc_attrs, as answered by the
    environment at its n-th call *)
Variable alloc_pages_env : nat -> gfp_t -> nat -> option nat.
Variable dma_alloc_env : nat -> gfp_t -> nat -> option nat.
(** set_pages_array_wc / set_pages_array_uc: None is 0, Some e is -e *)
Variable set_pages_array_wc : list nat -> option positive.
Variable set_pages_array_uc : list nat -> option positive.
(** dma_map_page; None is a dma_mapping_error *)
Variable dma_map_page : nat -> nat -> option Z.
(** dma->addr stored by dma_alloc_attrs *)
Variable dma_addr_of : nat -> Z.

(** ttm_pool_alloc_page; p->private (or the low bits of dma->vaddr)
    records the order *)
Definition ttm_pool_alloc_page (pool : ttm_pool) (g : gfp_t) (order : nat)
    (s : tstate) : option nat * tstate :=
  let g' := if Nat.eqb order 0 then g
            else {| gfp_zero := gfp_zero g; gfp_retry := gfp_retry g;
                    gfp_dma32 := gfp_dma32 g; gfp_highuser := gfp_highuser g;
                    gfp_high_order := true |} in
  let res := if use_dma_alloc pool then dma_alloc_env (ncalls s) g' order
             else alloc_pages_env (ncalls s) g' order in
  match res with
  | None =>
      (None, {| sp := sp s; priv := priv s; ncalls := S (ncalls s);
                tlog := tlog s ++ [TAllocFail order] |})
  | Some p =>
      (Some p, {| sp := sp s;
                  priv := fun q => if Nat.eqb q p then order else priv s q;
                  ncalls := S (ncalls s); tlog := tlog s ++ [TAlloc p order] |})
  end.

(** ttm_pool_free_page: set_pages_wb and __free_pages / dma_free_attrs
    release the run to the environment *)
Definition ttm_pool_free_page (pool : ttm_pool) (c : ttm_caching) (order p : nat)
    (s : tstate) : tstate :=
  add_ev s (TFree p order).

(** ttm_pool_apply_caching on the pages [first, last) *)
Definition ttm_pool_apply_caching (seg : list nat) (c : ttm_caching) : Z :=
  if config_x86 then
    match seg with
    | [] => 0%Z
    | _ => match c with
           | ttm_cached => 0%Z
           | ttm_write_combined => ret_of (set_pages_array_wc seg)
           | ttm_uncached => ret_of (set_pages_array_uc seg)
           end
    end
  else 0%Z.

(** ttm_pool_map: the DMA addresses of the 1 << order pages, or -EFAULT *)
Definition ttm_pool_map (pool : ttm_pool) (order p : nat) : option (list Z) :=
  let addr := if use_dma_alloc pool then Some (dma_addr_of p) else dma_map_page p order in
  match addr with
  | None => None
  | Some a => Some (map (fun i => (a + Z.of_nat i * PAGE_SIZE)%Z) (seq 0 (2 ^ order)))
  end.

(** ttm_pool_select_type *)
Definition ttm_pool_select_type (pool : ttm_pool) (c : ttm_caching) (order : nat)
  : option pool_type :=
  if use_dma_alloc pool then Some (PoolOwn c order)
  else if config_x86 then
    match c with
    | ttm_write_combined =>
        Some (if use_dma32 pool then GlobalDma32WC order else GlobalWC order)
    | ttm_uncached =>
        Some (if use_dma32 pool then GlobalDma32UC order else GlobalUC order)
    | ttm_cached => None
    end
  else None.

(** the error_free_all loop: [for (i = 0; i < num_pages; ) { order =
    ttm_pool_page_order(pool, tt->pages[i]); ttm_pool_free_page(...);
    i += 1 << order; }], walking the suffix tt->pages[i..num_pages) *)
Fixpoint free_all (fuel : nat) (pool : ttm_pool) (c : ttm_caching)
    (pages : list nat) (s : tstate) : tstate :=
  match fuel with
  | O => s
  | S f =>
      match pages with
      | [] => s
      | p :: _ =>
          let o := priv s p in
          free_all f pool c (skipn (2 ^ o) pages) (ttm_pool_free_page pool c o p s)
      end
  end.

Definition error_free_all (pool : ttm_pool) (c : ttm_caching) (pages : list nat)
    (s : tstate) : tstate :=
  free_all (length pages) pool c pages s.

(** [pt = ttm_pool_select_type(...); p = pt ? drm_page_pool_remove(...) :
    NULL; if (p) apply_caching = true; else { p = ttm_pool_alloc_page(...);
    if (p && PageHighMem(p)) apply_caching = true; }] *)
Definition ttm_pool_acquire (pool : ttm_pool) (tt : ttm_tt) (g : gfp_t) (order : nat)
    (s : tstate) : option nat * bool * tstate :=
  let pt := ttm_pool_select_type pool (tt_caching tt) order in
  let '(hit, s) :=
    match pt with
    | Some t =>
        match SharedPool.drm_page_pool_remove pool_type_eq_dec t (sp s) with
        | (Some p, sp') => (Some p, add_ev (set_sp s sp') (TTake p order))
        | (None, sp') => (None, set_sp s sp')
        end
    | None => (None, s)
    end in
  match hit with
  | Some p => (Some p, true, s)
  | None =>
      let '(pp, s) := ttm_pool_alloc_page pool g order s in
      (pp, match pp with Some p => PageHighMem p | None => false end, s)
  end.

(** the allocation loop of ttm_pool_alloc.  [pages] is
    tt->pages[0 .. pages), [cidx] the index of the [caching] pointer, [dmas]
    the filled DMA addresses.  The result is (r, pages, dmas, state). *)
Fixpoint alloc_loop (fuel : nat) (pool : ttm_pool) (tt : ttm_tt) (g : gfp_t)
    (num_pages order cidx : nat) (pages : list nat) (dmas : list Z) (s : tstate)
  : option (Z * list nat * list Z * tstate) :=
  match fuel with
  | O => None
  | S f =>
    if Nat.eqb num_pages 0 then
      (* after the loop *)
      let r := ttm_pool_apply_caching (skipn cidx pages) (tt_caching tt) in
      if (r =? 0)%Z then Some (0%Z, pages, dmas, s)
      else Some (r, pages, dmas, error_free_all pool (tt_caching tt) pages s)
    else
      let s := add_ev s (TIter order num_pages) in
      let '(pp, apply_caching, s) := ttm_pool_acquire pool tt g order s in
      match pp with
      | None =>
          if Nat.ltb 0 order
          then alloc_loop f pool tt g num_pages
                 (Nat.min (order - 1) (Nat.log2 num_pages)) cidx pages dmas s
          else Some ((- ENOMEM)%Z, pages, dmas, error_free_all pool (tt_caching tt) pages s)
      | Some p =>
          let error_free_page r :=
            Some (r, pages, dmas,
                  error_free_all pool (tt_caching tt) pages
                    (ttm_pool_free_page pool (tt_caching tt) order p s)) in
          let r := if apply_caching
                   then ttm_pool_apply_caching (skipn cidx pages) (tt_caching tt)
                   else 0%Z in
          if negb (r =? 0)%Z then error_free_page r
          else
          let cidx := if apply_caching then length pages + 2 ^ order else cidx in
          let mapped := if has_dma_address tt then ttm_pool_map pool order p
                        else Some [] in
          match mapped with
          | None => error_free_page (- EFAULT)%Z
          | Some addrs =>
              let num_pages := num_pages - 2 ^ order in
              alloc_loop f pool tt g num_pages (Nat.min order (Nat.log2 num_pages))
                cidx (pages ++ seq p (2 ^ order)) (dmas ++ addrs) s
          end
      end
  end.

Definition ttm_pool_gfp (pool : ttm_pool) (tt : ttm_tt) (ctx : ttm_operation_ctx) : gfp_t :=
  {| gfp_zero := zero_alloc tt; gfp_retry := gfp_retry_mayfail ctx;
     gfp_dma32 := use_dma32 pool; gfp_highuser := negb (use_dma32 pool);
     gfp_high_order := false |}.

(** ttm_pool_alloc; the loop runs at most num_pages + MAX_ORDER times *)
Definition ttm_pool_alloc (pool : ttm_pool) (tt : ttm_tt) (ctx : ttm_operation_ctx)
    (s : tstate) : option (Z * list nat * list Z * tstate) :=
  let n := tt_num_pages tt in
  alloc_loop (S (n + MAX_ORDER)) pool tt (ttm_pool_gfp pool tt ctx) n
    (Nat.min (MAX_ORDER - 1) (Nat.log2 n)) 0 [] [] s.

End Alloc.

(** views of the event log *)
Fixpoint iters (l : list tevent) : list (nat * nat) :=
  match l with
  | [] => []
  | TIter o n :: r => (o, n) :: iters r
  | _ :: r => iters r
  end.

(** runs taken from a bucket or from the allocator *)
Fixpoint acquired (l : list tevent) : list (nat * nat) :=
  match l with
  | [] => []
  | TTake p o :: r | TAlloc p o :: r => (p, o) :: acquired r
  | _ :: r => acquired r
  end.

(** runs taken from a bucket *)
Fixpoint taken (l : list tevent) : list (nat * nat) :=
  match l with
  | [] => []
  | TTake p o :: r => (p, o) :: taken r
  | _ :: r => taken r
  end.

(** runs given back by ttm_pool_free_page *)
Fixpoint frees (l : list tevent) : list (nat * nat) :=
  match l with
  | [] => []
  | TFree p o :: r => (p, o) :: frees r
  | _ :: r => frees r
  end.

(** the base pages of a run *)
Definition run_pages (run : nat * nat) : list nat := seq (fst run) (2 ^ snd run).

Fixpoint sum_run_pages (l : list (nat * nat)) : Z :=
  match l with
  | [] => 0%Z
  | (_, o) :: r => (pages_of o + sum_run_pages r)%Z
  end.

(** the event ttm_pool_free_page logs for a run *)
Definition free_ev (run : nat * nat) : tevent := TFree (fst run) (snd run).

(** successive (order, remaining) pairs of the allocation loop, from
    (o, n): after a failure at order o > 0 the same count is retried at
    o - 1; after a run of order o is stored the loop goes on with
    n - 2^o pages at min(o, log2 (n - 2^o)) *)
Fixpoint sched (o n : nat) (l : list (nat * nat)) : bool :=
  match l with
  | [] => true
  | (o', n') :: r =>
      (((0 <? o) && (n' =? n) && (o' =? o - 1))
       || ((2 ^ o <? n) && (n' =? n - 2 ^ o)
           && (o' =? Nat.min o (Nat.log2 (n - 2 ^ o)))))
      && sched o' n' r
  end.

(** an iteration asks for a run that fits: 2^order <= remaining *)
Definition iter_ok (it : nat * nat) : bool :=
  (0 <? snd it) && (2 ^ fst it <=? snd it) && (fst it <=? MAX_ORDER - 1).

(** every bucket of the shared pools holds runs of its pool type's order *)
Definition bucket_orders (s : tstate) : Prop :=
  forall b, In b (SharedPool.shrinker_list (sp s)) ->
  SharedPool.order b = pool_type_order (SharedPool.sp_id b).

(** the order stored in a pooled run (p->private) is its bucket's order,
    unless the run is one of the runs [D] of the caller's array *)
Definition pooled_orders (D : list (nat * nat)) (s : tstate) : Prop :=
  forall b p, In b (SharedPool.shrinker_list (sp s)) -> In p (SharedPool.pages b) ->
  In p (map fst D) \/ priv s p = SharedPool.order b.

(** the runs [D] of the caller's array carry their order *)
Definition array_orders (D : list (nat * nat)) (s : tstate) : Prop :=
  forall p o, In (p, o) D -> priv s p = o.

End Ttm.

(* ------------------------------------------------------------------ *)
(** * ttm_pool_free of the part_001 copy, on the DMA-BUF pool *)
Module TtmPart001.
Local Open Scope Z_scope.

Record state := {
  pools : DmaBufPool.state;
  allocated_pages : Z;     (* static atomic_long_t allocated_pages *)
  page_pool_size : Z;      (* module parameter page_pool_size *)
  priv : nat -> nat;       (* order stored in dat->vaddr of each page *)
  freed : list (nat * nat);(* runs given to ttm_pool_free_page *)
  shrink_calls : nat }.    (* calls of ttm_pool_shrink *)

Section Free.
(** the pool pointer held in global_write_combined[order] and friends *)
Variable pool_ptr : Ttm.pool_type -> nat.
Variable config_x86 : bool.

Definition ttm_pool_select_type (pool : Ttm.ttm_pool) (c : Ttm.ttm_caching) (order : nat)
  : option nat :=
  match Ttm.ttm_pool_select_type config_x86 pool c order with
  | Some t => Some (pool_ptr t)
  | None => None
  end.

(** ttm_pool_shrink: its body is under #if 0, so it changes nothing *)
Definition ttm_pool_shrink (s : state) : state :=
  {| pools := pools s; allocated_pages := allocated_pages s;
     page_pool_size := page_pool_size s; priv := priv s; freed := freed s;
     shrink_calls := S (shrink_calls s) |}.

(** the [for (i = 0; i < tt->num_pages; ) { ... i += num_pages; }] loop;
    ttm_mem_global_free_page and ttm_pool_unmap only touch external
    accounting and the IOMMU *)
Fixpoint free_loop (fuel : nat) (pool : Ttm.ttm_pool) (c : Ttm.ttm_caching)
    (pages : list nat) (s : state) : state :=
  match fuel with
  | O => s
  | S f =>
      match pages with
      | [] => s
      | p :: _ =>
          let o := priv s p in
          let s' :=
            match ttm_pool_select_type pool c o with
            | Some id =>
                {| pools := DmaBufPool.drm_page_pool_add id p (pools s);
                   allocated_pages := allocated_pages s;
                   page_pool_size := page_pool_size s; priv := priv s;
                   freed := freed s; shrink_calls := shrink_calls s |}
            | None =>
                {| pools := pools s; allocated_pages := allocated_pages s;
                   page_pool_size := page_pool_size s; priv := priv s;
                   freed := freed s ++ [(p, o)]; shrink_calls := shrink_calls s |}
            end in
          free_loop f pool c (skipn (2 ^ o) pages) s'
      end
  end.

(** [while (atomic_long_read(&allocated_pages) > page_pool_size)
       ttm_pool_shrink();]; [None] when the loop does not stop *)
Fixpoint shrink_loop (fuel : nat) (s : state) : option state :=
  match fuel with
  | O => None
  | S f => if page_pool_size s <? allocated_pages s
           then shrink_loop f (ttm_pool_shrink s) else Some s
  end.

Definition ttm_pool_free (pool : Ttm.ttm_pool) (c : Ttm.ttm_caching) (pages : list nat)
    (s : state) : option state :=
  let s1 := free_loop (length pages) pool c pages s in
  shrink_loop (S (length (DmaBufPool.pool_list (pools s1)))) s1.

End Free.
End TtmPart001.

(* ------------------------------------------------------------------ *)
(** * The dynamic page pool (part_002) *)
Module Dynamic.
Local Open Scope Z_scope.

Inductive pool_index := POOL_LOWPAGE | POOL_HIGHPAGE | POOL_LOWDEFERRED | POOL_HIGHDEFERRED.

Definition index_eqb (a b : pool_index) : bool :=
  match a, b with
  | POOL_LOWPAGE, POOL_LOWPAGE | POOL_HIGHPAGE, POOL_HIGHPAGE
  | POOL_LOWDEFERRED, POOL_LOWDEFERRED | POOL_HIGHDEFERRED, POOL_HIGHDEFERRED => true
  | _, _ => false
  end.

Record dynamic_page_pool := {
  count : pool_index -> Z;          (* int count[POOL_TYPE_SIZE] *)
  items : pool_index -> list nat;   (* struct list_head items[POOL_TYPE_SIZE] *)
  order : nat;
  mem : nat -> Z;                   (* contents of each base page; 0 = zeroed *)
  freed : list nat }.               (* runs given to __free_pages *)

Definition set_index {A} (f : pool_index -> A) (i : pool_index) (v : A) : pool_index -> A :=
  fun j => if index_eqb j i then v else f j.

Section Dyn.
Variable PageHighMem : nat -> bool.
(** vmap of a batch succeeds *)
Variable vmap_ok : list nat -> bool.
(** the indeterminate value the uninitialised [int p] of
    dynamic_page_pool_clean_pages starts with *)
Variable p_init : Z.

(** dynamic_page_pool_remove *)
Definition dynamic_page_pool_remove (pool : dynamic_page_pool) (index : pool_index)
  : option nat * dynamic_page_pool :=
  if (count pool index =? 0) then (None, pool)   (* WARN_ON, return NULL *)
  else match items pool index with
       | [] => (None, pool)   (* list_first_entry on an empty list; unreachable
                                 while count[index] is the list length *)
       | p :: rest =>
           (Some p, {| count := set_index (count pool) index (count pool index - 1);
                       items := set_index (items pool) index rest;
                       order := order pool; mem := mem pool; freed := freed pool |})
       end.

(** dynamic_page_pool_add_clean: list_add_tail, count++ *)
Definition dynamic_page_pool_add_clean (pool : dynamic_page_pool) (page : nat)
  : dynamic_page_pool :=
  let index := if PageHighMem page then POOL_HIGHPAGE else POOL_LOWPAGE in
  {| count := set_index (count pool) index (count pool index + 1);
     items := set_index (items pool) index (items pool index ++ [page]);
     order := order pool; mem := mem pool; freed := freed pool |}.

Definition dynamic_page_pool_free_pages (pool : dynamic_page_pool) (page : nat)
  : dynamic_page_pool :=
  {| count := count pool; items := items pool; order := order pool;
     mem := mem pool; freed := freed pool ++ [page] |}.

Definition zero_page (m : nat -> Z) (q : nat) : nat -> Z :=
  fun x => if Nat.eqb x q then 0 else m x.

(** dynamic_page_pool_zero_and_add: vmap(pages, num) maps one page per
    entry and memset clears PAGE_SIZE * num bytes of that mapping *)
Definition dynamic_page_pool_zero_and_add (pool : dynamic_page_pool) (pages : list nat)
  : dynamic_page_pool :=
  if vmap_ok pages then
    let pool := {| count := count pool; items := items pool; order := order pool;
                   mem := fold_left zero_page pages (mem pool); freed := freed pool |} in
    fold_left dynamic_page_pool_add_clean pages pool
  else fold_left dynamic_page_pool_free_pages pages pool.

(** the local array [struct page *pages[32]] of dynamic_page_pool_clean_pages:
    entry [i] is [Some page] once written and [None] while it still holds
    its indeterminate initial value *)
Definition page_array := Z -> option nat.

Definition array_set (pages : page_array) (i : Z) (page : nat) : page_array :=
  fun j => if Z.eqb j i then Some page else pages j.

(** pages[0 .. n) as a list; [None] when one of them was never written,
    so that reading it is undefined *)
Fixpoint array_prefix (pages : page_array) (n : nat) : option (list nat) :=
  match n with
  | O => Some []
  | S k => match array_prefix pages k, pages (Z.of_nat k) with
           | Some l, Some page => Some (l ++ [page])
           | _, _ => None
           end
  end.

(** dynamic_page_pool_zero_and_add(pool, pages, p) *)
Definition zero_and_add_array (pool : dynamic_page_pool) (pages : page_array) (p : Z)
  : option dynamic_page_pool :=
  match array_prefix pages (Z.to_nat p) with
  | None => None
  | Some batch => Some (dynamic_page_pool_zero_and_add pool batch)
  end.

(** the while loop of dynamic_page_pool_clean_pages and its final
    [if (p)]; [None] is undefined behaviour (pages[p++] outside the array,
    or an unwritten entry handed to dynamic_page_pool_zero_and_add) or a
    NULL removal *)
Fixpoint clean_pages_loop (fuel : nat) (index : pool_index) (pages : page_array) (p : Z)
    (pool : dynamic_page_pool) : option dynamic_page_pool :=
  match fuel with
  | O => None
  | S f =>
      if (count pool index =? 0) then
        if p =? 0 then Some pool else zero_and_add_array pool pages p
      else
        match dynamic_page_pool_remove pool index with
        | (None, _) => None
        | (Some pg, pool1) =>
            if (0 <=? p) && (p <? 32) then
              let pages' := array_set pages p pg in
              if (p + 1 =? 32) then
                match zero_and_add_array pool1 pages' (p + 1) with
                | None => None
                | Some pool2 => clean_pages_loop f index pages' 0 pool2
                end
              else clean_pages_loop f index pages' (p + 1) pool1
            else None
        end
  end.

(** dynamic_page_pool_clean_pages: [int p] is not initialised, so the loop
    starts from the arbitrary value [p_init] *)
Definition dynamic_page_pool_clean_pages (pool : dynamic_page_pool) (index : pool_index)
  : option dynamic_page_pool :=
  clean_pages_loop (S (Z.to_nat (count pool index))) index (fun _ => None) p_init pool.

(** one pass of [while (passes--)] in dynamic_page_pool_clean *)
Definition clean_pass (pool : dynamic_page_pool) : option dynamic_page_pool :=
  if negb (count pool POOL_HIGHDEFERRED =? 0)
  then dynamic_page_pool_clean_pages pool POOL_HIGHDEFERRED
  else if negb (count pool POOL_LOWDEFERRED =? 0)
  then dynamic_page_pool_clean_pages pool POOL_LOWDEFERRED
  else Some pool.

Fixpoint clean_passes (passes : nat) (pool : dynamic_page_pool) : option dynamic_page_pool :=
  match passes with
  | O => Some pool
  | S n => match clean_pass pool with
           | None => None
           | Some pool' => clean_passes n pool'
           end
  end.

(** dynamic_page_pool_clean: int passes = 4 *)
Definition dynamic_page_pool_clean (pool : dynamic_page_pool) : option dynamic_page_pool :=
  clean_passes 4 pool.

Definition dynamic_page_pool_total (pool : dynamic_page_pool) (high : bool) : Z :=
  let c := count pool POOL_LOWPAGE + count pool POOL_LOWDEFERRED in
  let c := if high then c + count pool POOL_HIGHPAGE + count pool POOL_HIGHDEFERRED else c in
  Z.shiftl c (Z.of_nat (order pool)).

(** the [while (freed < nr_to_scan)] loop of dynamic_page_pool_do_shrink;
    [None] is __free_pages on the NULL returned by an empty list *)
Fixpoint do_shrink_loop (fuel : nat) (high : bool) (nr_to_scan freed0 : Z)
    (pool : dynamic_page_pool) : option (Z * dynamic_page_pool) :=
  match fuel with
  | O => None
  | S f =>
    if freed0 <? nr_to_scan then
      let sel :=
        if negb (count pool POOL_LOWDEFERRED =? 0) then Some POOL_LOWDEFERRED
        else if high && negb (count pool POOL_HIGHDEFERRED =? 0) then Some POOL_HIGHPAGE
        else if negb (count pool POOL_LOWPAGE =? 0) then Some POOL_LOWPAGE
        else if high && negb (count pool POOL_HIGHPAGE =? 0) then Some POOL_HIGHPAGE
        else None in
      match sel with
      | None => Some (freed0, pool)
      | Some index =>
          match dynamic_page_pool_remove pool index with
          | (None, _) => None
          | (Some page, pool1) =>
              do_shrink_loop f high nr_to_scan (freed0 + pages_of (order pool))
                (dynamic_page_pool_free_pages pool1 page)
          end
      end
    else Some (freed0, pool)
  end.

(** dynamic_page_pool_do_shrink; [kswapd] is current_is_kswapd(),
    [gfp_highmem] is gfp_mask & __GFP_HIGHMEM *)
Definition dynamic_page_pool_do_shrink (pool : dynamic_page_pool) (kswapd gfp_highmem : bool)
    (nr_to_scan : Z) : option (Z * dynamic_page_pool) :=
  let high := if kswapd then true else gfp_highmem in
  if nr_to_scan =? 0 then Some (dynamic_page_pool_total pool high, pool)
  else do_shrink_loop (S (Z.to_nat nr_to_scan)) high nr_to_scan 0 pool.

End Dyn.
End Dynamic.

(* ================================================================== *)
(** * Concrete pool states used by the examples below *)
Module Scenarios.
Local Open Scope Z_scope.

(** no page is a highmem page *)
Definition nohigh (_ : nat) : bool := false.

(** shared pool at module load: every page holds the value 1 *)
Definition sp_s0 : SharedPool.state nat :=
  {| SharedPool.shrinker_list := []; SharedPool.nr_managed_pages := 0;
     SharedPool.page_pool_size := 0; SharedPool.mem := fun _ => 1;
     SharedPool.log := [] |}.

(** an order-1 bucket registered *)
Definition sp_s1 : SharedPool.state nat := SharedPool.drm_page_pool_init 0%nat 1%nat sp_s0.

(** the run starting at page 8 drained into it *)
Definition sp_s2 : SharedPool.state nat :=
  match SharedPool.drm_page_pool_add Nat.eq_dec nohigh 0%nat 8%nat sp_s1 with
  | Some s => s
  | None => sp_s1
  end.

(** one order-0 bucket holding four runs *)
Definition sp_four : SharedPool.state nat :=
  {| SharedPool.shrinker_list :=
       [{| SharedPool.sp_id := 0%nat; SharedPool.order := 0%nat;
           SharedPool.pages := [1; 2; 3; 4]%nat; SharedPool.page_count := 4 |}];
     SharedPool.nr_managed_pages := 4; SharedPool.page_pool_size := 0;
     SharedPool.mem := fun _ => 0; SharedPool.log := [] |}.

Definition sp_four_scanned : SharedPool.state nat :=
  match SharedPool.drm_page_pool_shrinker_scan 6 sp_four with
  | Some (_, s) => s
  | None => sp_four
  end.

(** DMA-BUF pool: one order-0 bucket holding the run at page 1 *)
Definition db_one : DmaBufPool.state :=
  {| DmaBufPool.pool_list :=
       [{| DmaBufPool.dp_id := 0%nat; DmaBufPool.count := 1;
           DmaBufPool.items := [1%nat]; DmaBufPool.order := 0%nat |}];
     DmaBufPool.total_pages := 1; DmaBufPool.log := [] |}.

(** DMA-BUF pool: an order-2 bucket created, then two runs drained *)
Definition db_s1 : DmaBufPool.state :=
  DmaBufPool.drm_page_pool_add 0 5
    (DmaBufPool.drm_page_pool_add 0 1
       (DmaBufPool.drm_page_pool_create 0 2 DmaBufPool.empty_state)).


Definition non_dma_pool : Ttm.ttm_pool := {| Ttm.use_dma_alloc := false; Ttm.use_dma32 := false |}.


(** dynamic pool of order 0: dirty high page 1, clean high page 2,
    clean low page 3, no dirty low page *)
Definition dyn_c7 : Dynamic.dynamic_page_pool :=
  {| Dynamic.count := fun i => match i with Dynamic.POOL_LOWDEFERRED => 0 | _ => 1 end;
     Dynamic.items := fun i => match i with
                               | Dynamic.POOL_LOWPAGE => [3%nat]
                               | Dynamic.POOL_HIGHPAGE => [2%nat]
                               | Dynamic.POOL_LOWDEFERRED => []
                               | Dynamic.POOL_HIGHDEFERRED => [1%nat]
                               end;
     Dynamic.order := 0; Dynamic.mem := fun _ => 0; Dynamic.freed := [] |}.

(** the same with no clean high page *)
Definition dyn_c7_nohigh : Dynamic.dynamic_page_pool :=
  {| Dynamic.count := fun i => match i with
                               | Dynamic.POOL_LOWDEFERRED | Dynamic.POOL_HIGHPAGE => 0
                               | _ => 1 end;
     Dynamic.items := fun i => match i with
                               | Dynamic.POOL_LOWPAGE => [3%nat]
                               | Dynamic.POOL_HIGHPAGE => []
                               | Dynamic.POOL_LOWDEFERRED => []
                               | Dynamic.POOL_HIGHDEFERRED => [1%nat]
                               end;
     Dynamic.order := 0; Dynamic.mem := fun _ => 0; Dynamic.freed := [] |}.

(** dynamic pool of order 0 with one dirty high page 5 (contents 1) *)
Definition dyn_dirty_high : Dynamic.dynamic_page_pool :=
  {| Dynamic.count := fun i => match i with Dynamic.POOL_HIGHDEFERRED => 1 | _ => 0 end;
     Dynamic.items := fun i => match i with Dynamic.POOL_HIGHDEFERRED => [5%nat] | _ => [] end;
     Dynamic.order := 0; Dynamic.mem := fun _ => 1; Dynamic.freed := [] |}.

(** the same pool at order 1: the dirty run 5 covers base pages 5 and 6 *)
Definition dyn_dirty_high1 : Dynamic.dynamic_page_pool :=
  {| Dynamic.count := Dynamic.count dyn_dirty_high;
     Dynamic.items := Dynamic.items dyn_dirty_high;
     Dynamic.order := 1; Dynamic.mem := fun _ => 1; Dynamic.freed := [] |}.

Definition allhigh (_ : nat) : bool := true.
Definition vmap_works (_ : list nat) : bool := true.

(** TTM: an environment whose allocator fails for every order above 0,
    one whose allocator always fails, and set_pages_array_* succeeding *)
Definition alloc_order0_only (k : nat) (_ : Ttm.gfp_t) (o : nat) : option nat :=
  if Nat.eqb o 0 then Some (100 + k)%nat else None.
Definition alloc_never (_ : nat) (_ : Ttm.gfp_t) (_ : nat) : option nat := None.
Definition set_ok (_ : list nat) : option positive := None.
Definition map_none (_ _ : nat) : option Z := None.
Definition addr0 (_ : nat) : Z := 0.

Definition wc_tt (n : nat) : Ttm.ttm_tt :=
  {| Ttm.tt_num_pages := n; Ttm.tt_caching := Ttm.ttm_write_combined;
     Ttm.has_dma_address := false; Ttm.zero_alloc := false |}.
Definition ctx0 : Ttm.ttm_operation_ctx := {| Ttm.gfp_retry_mayfail := false |}.

(** no bucket registered *)
Definition ttm_empty : Ttm.tstate :=
  {| Ttm.sp := {| SharedPool.shrinker_list := []; SharedPool.nr_managed_pages := 0;
                  SharedPool.page_pool_size := 0; SharedPool.mem := fun _ => 0;
                  SharedPool.log := [] |};
     Ttm.priv := fun _ => 0%nat; Ttm.ncalls := 0; Ttm.tlog := [] |}.

(** the order-0 write-combined bucket holds the run at page 50 *)
Definition ttm_one_pooled : Ttm.tstate :=
  {| Ttm.sp := {| SharedPool.shrinker_list :=
                    [{| SharedPool.sp_id := Ttm.GlobalWC 0; SharedPool.order := 0;
                        SharedPool.pages := [50%nat]; SharedPool.page_count := 1 |}];
                  SharedPool.nr_managed_pages := 1;
                  SharedPool.page_pool_size := 0; SharedPool.mem := fun _ => 0;
                  SharedPool.log := [] |};
     Ttm.priv := fun _ => 0%nat; Ttm.ncalls := 0; Ttm.tlog := [] |}.

End Scenarios.

(* ================================================================== *)
(** * Invariants of the DMA-BUF pool *)
Module DmaBufInv.
Import DmaBufPool.
Local Open Scope Z_scope.

(** every bucket's count is the length of its list, and the total is the
    sum of the buckets' counts times their run sizes *)
Definition inv (s : state) : Prop :=
  Forall (fun b => count b = Z.of_nat (length (items b))) (pool_list s) /\
  total_pages s = sum_pages (pool_list s).

End DmaBufInv.

(* ================================================================== *)
(** * Invariants of the shared drm page pool *)
Module SharedInv.
Import SharedPool.
Local Open Scope Z_scope.

Section Inv.
Variable K : Type.

(** the bucket counters and the global counter *)
Definition inv2 (s : state K) : Prop :=
  Forall (fun b => page_count b = Z.of_nat (length (pages b)) * pages_of (order b))
    (shrinker_list s) /\
  nr_managed_pages s = sum_page_count (shrinker_list s).

(** every base page of every pooled run reads as zero *)
Definition zinv (s : state K) : Prop :=
  forall b p i, In b (shrinker_list s) -> In p (pages b) -> (i < 2 ^ order b)%nat ->
  mem s (p + i) = 0.

(** every run pooled in [s'] was pooled in [s] with the same order *)
Definition sub_runs (s' s : state K) : Prop :=
  forall b' p, In b' (shrinker_list s') -> In p (pages b') ->
  exists b, In b (shrinker_list s) /\ In p (pages b) /\ order b = order b'.

End Inv.
Arguments inv2 {K} s.
Arguments zinv {K} s.
Arguments sub_runs {K} s' s.
End SharedInv.

(* ================================================================== *)
(** * The rest of the DMA-BUF pool interface (part_000, lines 22-182) *)
Module DmaBufApi.
Import DmaBufPool.
Local Open Scope Z_scope.

(** SHRINK_EMPTY, [(~0UL - 1)] on a 64-bit unsigned long *)
Definition SHRINK_EMPTY : Z := 2 ^ 64 - 2.

(** drm_page_pool_get_size *)
Definition drm_page_pool_get_size (pool : drm_page_pool) : Z := count pool.

(** drm_page_pool_shrink_count *)
Definition drm_page_pool_shrink_count (s : state) : Z :=
  let c := total_pages s in if c =? 0 then SHRINK_EMPTY else c.

(** a caller handing the runs [rs] to drm_page_pool_add, one after the
    other *)
Definition add_all (id : nat) (rs : list nat) (s : state) : state :=
  fold_left (fun s p => drm_page_pool_add id p s) rs s.

(** a caller calling drm_page_pool_fetch [n] times on the same pool *)
Fixpoint fetch_n (n id : nat) (s : state) : list (option nat) * state :=
  match n with
  | O => ([], s)
  | S k =>
      let '(p, s1) := drm_page_pool_fetch id s in
      let '(ps, s2) := fetch_n k id s1 in (p :: ps, s2)
  end.

End DmaBufApi.

(* ================================================================== *)
(** * The rest of the shared pool interface (part_000, lines 251-436) *)
Module SharedApi.
Import SharedPool.
Local Open Scope Z_scope.

Section Api.
Variable K : Type.
Variable K_eq_dec : forall x y : K, {x = y} + {x <> y}.
Variable PageHighMem : nat -> bool.

(** drm_page_pool_get_max *)
Definition drm_page_pool_get_max (s : state K) : Z := page_pool_size s.

(** drm_page_pool_get_total *)
Definition drm_page_pool_get_total (s : state K) : Z := nr_managed_pages s.

(** drm_page_pool_get_size *)
Definition drm_page_pool_get_size (pool : drm_page_pool K) : Z := page_count pool.

(** drm_page_pool_shrinker_count *)
Definition drm_page_pool_shrinker_count (s : state K) : Z :=
  let num_pages := drm_page_pool_get_total s in
  if num_pages =? 0 then DmaBufApi.SHRINK_EMPTY else num_pages.

(** a caller handing the runs [rs] to drm_page_pool_add, one after the
    other *)
Fixpoint add_all (id : K) (rs : list nat) (s : state K) : option (state K) :=
  match rs with
  | [] => Some s
  | p :: r =>
      match drm_page_pool_add K_eq_dec PageHighMem id p s with
      | None => None
      | Some s1 => add_all id r s1
      end
  end.

(** a caller calling drm_page_pool_remove [n] times on the same pool *)
Fixpoint remove_n (n : nat) (id : K) (s : state K) : list (option nat) * state K :=
  match n with
  | O => ([], s)
  | S k =>
      let '(p, s1) := drm_page_pool_remove K_eq_dec id s in
      let '(ps, s2) := remove_n k id s1 in (p :: ps, s2)
  end.

(** the free callbacks of a lock and callback log, in order *)
Fixpoint callbacks (l : list lock_event) : list nat :=
  match l with
  | [] => []
  | FreeCallback p :: r => p :: callbacks r
  | _ :: r => callbacks r
  end.

(** number of leading buckets of a list holding no run *)
Fixpoint lead_empty (l : list (drm_page_pool K)) : nat :=
  match l with
  | [] => O
  | b :: r => match pages b with [] => S (lead_empty r) | _ => O end
  end.

(** [b'] is bucket [b] with possibly more runs linked: same id and order *)
Definition bucket_grows (b b' : drm_page_pool K) : Prop :=
  sp_id b' = sp_id b /\ order b' = order b /\ incl (pages b) (pages b').

End Api.
Arguments drm_page_pool_shrinker_count {K} s.
Arguments bucket_grows {K} b b'.
Arguments add_all {K} K_eq_dec PageHighMem id rs s.
Arguments remove_n {K} K_eq_dec n id s.
Arguments lead_empty {K} l.

End SharedApi.

(* ================================================================== *)
(** * Pool setup and teardown and ttm_pool_free
      (src/drivers/gpu/drm/ttm/ttm_pool.c, lines 224-237, 389-461, 581-621) *)
Module TtmLife.
Import Ttm.

(** enum ttm_caching (include/drm/ttm/ttm_caching.h): ttm_uncached = 0,
    ttm_write_combined = 1, ttm_cached = 2 *)
Definition TTM_NUM_CACHING_TYPES : nat := 3.
Definition caching_of_index (i : nat) : ttm_caching :=
  match i with 0 => ttm_uncached | 1 => ttm_write_combined | _ => ttm_cached end.

Local Abbreviation sstate := (SharedPool.state pool_type).

(** ttm_pool_type_init: drm_page_pool_init(&pt->subpool, order, ...) *)
Definition ttm_pool_type_init (pt : pool_type) (order : nat) (x : sstate) : sstate :=
  SharedPool.drm_page_pool_init pt order x.

(** ttm_pool_type_fini: drm_page_pool_fini(&pt->subpool) *)
Definition ttm_pool_type_fini (pt : pool_type) (x : sstate) : sstate :=
  SharedPool.drm_page_pool_fini pool_type_eq_dec pt x.

(** ttm_pool_init *)
Definition ttm_pool_init (dma_alloc dma32 : bool) (x : sstate) : ttm_pool * sstate :=
  ({| use_dma_alloc := dma_alloc; use_dma32 := dma32 |},
   if dma_alloc then
     fold_left (fun x i =>
       fold_left (fun x j => ttm_pool_type_init (PoolOwn (caching_of_index i) j) j x)
         (seq 0 MAX_ORDER) x)
       (seq 0 TTM_NUM_CACHING_TYPES) x
   else x).

(** ttm_pool_fini *)
Definition ttm_pool_fini (pool : ttm_pool) (x : sstate) : sstate :=
  if use_dma_alloc pool then
    fold_left (fun x i =>
      fold_left (fun x j => ttm_pool_type_fini (PoolOwn (caching_of_index i) j) x)
        (seq 0 MAX_ORDER) x)
      (seq 0 TTM_NUM_CACHING_TYPES) x
  else x.

(** ttm_pool_mgr_init; it always returns 0 *)
Definition ttm_pool_mgr_init (x : sstate) : Z * sstate :=
  (0%Z,
   fold_left (fun x i =>
     ttm_pool_type_init (GlobalDma32UC i) i
       (ttm_pool_type_init (GlobalDma32WC i) i
          (ttm_pool_type_init (GlobalUC i) i
             (ttm_pool_type_init (GlobalWC i) i x))))
     (seq 0 MAX_ORDER) x).

(** ttm_pool_mgr_fini *)
Definition ttm_pool_mgr_fini (x : sstate) : sstate :=
  fold_left (fun x i =>
    ttm_pool_type_fini (GlobalDma32UC i)
      (ttm_pool_type_fini (GlobalDma32WC i)
         (ttm_pool_type_fini (GlobalUC i)
            (ttm_pool_type_fini (GlobalWC i) x))))
    (seq 0 MAX_ORDER) x.

(** the bucket drm_page_pool_init registers for a pool type *)
Definition empty_bucket (t : pool_type) : SharedPool.drm_page_pool pool_type :=
  {| SharedPool.sp_id := t; SharedPool.order := pool_type_order t;
     SharedPool.pages := []; SharedPool.page_count := 0%Z |}.

(** the pool types ttm_pool_mgr_init registers, in its order *)
Definition global_types : list pool_type :=
  flat_map (fun i => [GlobalWC i; GlobalUC i; GlobalDma32WC i; GlobalDma32UC i])
    (seq 0 MAX_ORDER).

(** the pool types ttm_pool_init registers for a DMA pool, in its order *)
Definition own_types : list pool_type :=
  flat_map (fun i => map (fun j => PoolOwn (caching_of_index i) j) (seq 0 MAX_ORDER))
    (seq 0 TTM_NUM_CACHING_TYPES).


(** [t] is one of the pool types [ts] *)
Definition in_types (ts : list pool_type) (t : pool_type) : bool :=
  existsb (fun u => SharedPool.same_id pool_type_eq_dec t u) ts.

Section Free.
Variable config_x86 : bool.
Variable PageHighMem : nat -> bool.

(** the [for (i = 0; i < tt->num_pages; ) { ... i += 1 << order; }] loop
    of ttm_pool_free over the suffix tt->pages[i..num_pages); ttm_pool_unmap
    only touches the IOMMU.  [None] when drm_page_pool_add does not return. *)
Fixpoint free_loop (fuel : nat) (pool : ttm_pool) (c : ttm_caching)
    (pages : list nat) (s : tstate) : option tstate :=
  match fuel with
  | O => Some s
  | S f =>
      match pages with
      | [] => Some s
      | p :: _ =>
          let order := priv s p in
          match ttm_pool_select_type config_x86 pool c order with
          | Some pt =>
              match SharedPool.drm_page_pool_add pool_type_eq_dec PageHighMem pt p (sp s) with
              | None => None
              | Some x => free_loop f pool c (skipn (2 ^ order) pages) (set_sp s x)
              end
          | None =>
              free_loop f pool c (skipn (2 ^ order) pages)
                (ttm_pool_free_page pool c order p s)
          end
      end
  end.

(** ttm_pool_free on tt->pages[0 .. tt->num_pages) *)
Definition ttm_pool_free (pool : ttm_pool) (tt : ttm_tt) (pages : list nat)
    (s : tstate) : option tstate :=
  free_loop (length pages) pool (tt_caching tt) pages s.

End Free.
End TtmLife.

(* ================================================================== *)
(** * The rest of the dynamic page pool (part_002) *)
Module DynamicApi.
Import Dynamic.
Local Open Scope Z_scope.

(** the static pool_list: pools identified by their pointer *)
Definition registry := list (nat * dynamic_page_pool).

Fixpoint find_reg (id : nat) (reg : registry) : option dynamic_page_pool :=
  match reg with
  | [] => None
  | (i, p) :: r => if Nat.eqb i id then Some p else find_reg id r
  end.

Fixpoint del_reg (id : nat) (reg : registry) : registry :=
  match reg with
  | [] => []
  | (i, p) :: r => if Nat.eqb i id then r else (i, p) :: del_reg id r
  end.

(** the pool dynamic_page_pool_create initialises *)
Definition new_pool (order : nat) : dynamic_page_pool :=
  {| count := fun _ => 0; items := fun _ => []; order := order;
     mem := fun _ => 0; freed := [] |}.

Section Api.
Variable PageHighMem : nat -> bool.
Variable vmap_ok : list nat -> bool.
(** initial value of the uninitialised [p] of dynamic_page_pool_clean_pages *)
Variable p_init : Z.
(** compound_order(page) *)
Variable compound_order : nat -> nat.
(** fatal_signal_pending(current) *)
Variable fatal_signal_pending : bool.
(** alloc_pages(pool->gfp_mask, order) *)
Variable alloc_pages : nat -> option nat.

(** dynamic_page_pool_alloc_pages *)
Definition dynamic_page_pool_alloc_pages (pool : dynamic_page_pool) : option nat :=
  if fatal_signal_pending then None else alloc_pages (order pool).

(** dynamic_page_pool_add_dirty: list_add_tail, count++ *)
Definition dynamic_page_pool_add_dirty (pool : dynamic_page_pool) (page : nat)
  : dynamic_page_pool :=
  let index := if PageHighMem page then POOL_HIGHDEFERRED else POOL_LOWDEFERRED in
  {| count := set_index (count pool) index (count pool index + 1);
     items := set_index (items pool) index (items pool index ++ [page]);
     order := order pool; mem := mem pool; freed := freed pool |}.

(** dynamic_page_pool_fetch *)
Definition dynamic_page_pool_fetch (pool : dynamic_page_pool)
  : option nat * dynamic_page_pool :=
  if negb (count pool POOL_HIGHPAGE =? 0) then dynamic_page_pool_remove pool POOL_HIGHPAGE
  else if negb (count pool POOL_LOWPAGE =? 0) then dynamic_page_pool_remove pool POOL_LOWPAGE
  else (None, pool).

(** dynamic_page_pool_alloc; a NULL pool is [None].  The result is [None]
    when dynamic_page_pool_clean does not return or is undefined. *)
Definition dynamic_page_pool_alloc (pool : option dynamic_page_pool)
  : option (option nat * option dynamic_page_pool) :=
  match pool with
  | None => Some (None, None)
  | Some pool =>
      match dynamic_page_pool_fetch pool with
      | (Some page, pool1) => Some (Some page, Some pool1)
      | (None, pool1) =>
          match dynamic_page_pool_clean PageHighMem vmap_ok p_init pool1 with
          | None => None
          | Some pool2 =>
              match dynamic_page_pool_fetch pool2 with
              | (Some page, pool3) => Some (Some page, Some pool3)
              | (None, pool3) => Some (dynamic_page_pool_alloc_pages pool3, Some pool3)
              end
          end
      end
  end.

(** dynamic_page_pool_free; wake_up lets the cleaner thread run later *)
Definition dynamic_page_pool_free (pool : dynamic_page_pool) (page : nat)
  : dynamic_page_pool :=
  if negb (Nat.eqb (order pool) (compound_order page)) then pool
  else dynamic_page_pool_add_dirty pool page.

(** dynamic_page_pool_deferred_total *)
Definition dynamic_page_pool_deferred_total (pool : dynamic_page_pool) : Z :=
  Z.shiftl (count pool POOL_LOWDEFERRED + count pool POOL_HIGHDEFERRED)
    (Z.of_nat (order pool)).

(** one iteration of dynamic_page_pool_deferred_free: the cleaner runs
    once the deferred total is positive *)
Definition deferred_free_step (pool : dynamic_page_pool) : option dynamic_page_pool :=
  if 0 <? dynamic_page_pool_deferred_total pool
  then dynamic_page_pool_clean PageHighMem vmap_ok p_init pool
  else Some pool.

(** dynamic_page_pool_create; [kmalloc_ok] and [kthread_ok] are the
    outcomes of kmalloc and kthread_run.  The new pool is linked at the
    head of pool_list. *)
Definition dynamic_page_pool_create (kmalloc_ok kthread_ok : bool) (id order : nat)
    (reg : registry) : option nat * registry :=
  if negb kmalloc_ok then (None, reg)
  else if negb kthread_ok then (None, reg)
  else (Some id, (id, new_pool order) :: reg).

(** the [while (pool->count[i])] loop of dynamic_page_pool_destroy *)
Fixpoint destroy_drain (fuel : nat) (i : pool_index) (pool : dynamic_page_pool)
  : option dynamic_page_pool :=
  match fuel with
  | O => None
  | S f =>
      if count pool i =? 0 then Some pool
      else match dynamic_page_pool_remove pool i with
           | (None, _) => None
           | (Some page, pool1) =>
               destroy_drain f i (dynamic_page_pool_free_pages pool1 page)
           end
  end.

Definition drain_index (pool : dynamic_page_pool) (i : pool_index)
  : option dynamic_page_pool :=
  destroy_drain (S (Z.to_nat (count pool i))) i pool.

(** dynamic_page_pool_destroy: the pool is unlinked, its four lists are
    drained in index order; the drained pool (before kfree) is returned *)
Definition dynamic_page_pool_destroy (id : nat) (reg : registry)
  : option (registry * dynamic_page_pool) :=
  match find_reg id reg with
  | None => None   (* list_del of a pool that is not linked *)
  | Some pool =>
      match drain_index pool POOL_LOWPAGE with
      | None => None
      | Some pool =>
      match drain_index pool POOL_HIGHPAGE with
      | None => None
      | Some pool =>
      match drain_index pool POOL_LOWDEFERRED with
      | None => None
      | Some pool =>
      match drain_index pool POOL_HIGHDEFERRED with
      | None => None
      | Some pool => Some (del_reg id reg, pool)
      end end end end
  end.

(** the list_for_each_entry loop of dynamic_page_pool_shrink *)
Fixpoint shrink_loop (kswapd gfp_highmem only_scan : bool) (nr_to_scan nr_total : Z)
    (reg : registry) : option (Z * registry) :=
  match reg with
  | [] => Some (nr_total, [])
  | (id, pool) :: rest =>
      match dynamic_page_pool_do_shrink pool kswapd gfp_highmem nr_to_scan with
      | None => None
      | Some (nr_freed, pool') =>
          if only_scan then
            match shrink_loop kswapd gfp_highmem only_scan nr_to_scan
                    (nr_total + nr_freed) rest with
            | None => None
            | Some (t, rest') => Some (t, (id, pool') :: rest')
            end
          else
            let nr_to_scan := nr_to_scan - nr_freed in
            let nr_total := nr_total + nr_freed in
            if nr_to_scan <=? 0 then Some (nr_total, (id, pool') :: rest)
            else match shrink_loop kswapd gfp_highmem only_scan nr_to_scan nr_total rest with
                 | None => None
                 | Some (t, rest') => Some (t, (id, pool') :: rest')
                 end
      end
  end.

(** dynamic_page_pool_shrink *)
Definition dynamic_page_pool_shrink (kswapd gfp_highmem : bool) (nr_to_scan : Z)
    (reg : registry) : option (Z * registry) :=
  shrink_loop kswapd gfp_highmem (nr_to_scan =? 0) nr_to_scan 0 reg.

(** dynamic_page_pool_shrink_count *)
Definition dynamic_page_pool_shrink_count (kswapd gfp_highmem : bool) (reg : registry)
  : option (Z * registry) :=
  dynamic_page_pool_shrink kswapd gfp_highmem 0 reg.

(** dynamic_page_pool_shrink_scan *)
Definition dynamic_page_pool_shrink_scan (kswapd gfp_highmem : bool) (nr_to_scan : Z)
    (reg : registry) : option (Z * registry) :=
  if nr_to_scan =? 0 then Some (0, reg)
  else dynamic_page_pool_shrink kswapd gfp_highmem nr_to_scan reg.

End Api.

(** every page on a clean list has its first base page zeroed *)
Definition clean_zeroed (pool : dynamic_page_pool) : Prop :=
  forall r, In r (items pool POOL_HIGHPAGE ++ items pool POOL_LOWPAGE) -> mem pool r = 0.

(** every count is the length of its list *)
Definition counts_ok (pool : dynamic_page_pool) : Prop :=
  forall i, count pool i = Z.of_nat (length (items pool i)).

End DynamicApi.

(* ================================================================== *)
(** * More concrete states used by the examples below *)
Module Scenarios2.
Local Open Scope Z_scope.

(** shared pool with page_pool_size 1 and an empty order-1 bucket *)
Definition sp_lim1 : SharedPool.state nat :=
  SharedPool.drm_page_pool_init 0%nat 1%nat
    {| SharedPool.shrinker_list := []; SharedPool.nr_managed_pages := 0;
       SharedPool.page_pool_size := 1; SharedPool.mem := fun _ => 1;
       SharedPool.log := [] |}.

(** an empty shared-pool state for the TTM pool types, no size limit *)
Definition ttm_x0 : SharedPool.state Ttm.pool_type :=
  {| SharedPool.shrinker_list := []; SharedPool.nr_managed_pages := 0;
     SharedPool.page_pool_size := 0; SharedPool.mem := fun _ => 0;
     SharedPool.log := [] |}.

(** a global write-combined order-0 bucket holding run 5 and a DMA pool's
    cached order-2 bucket holding run 8 *)
Definition ttm_x1 : SharedPool.state Ttm.pool_type :=
  {| SharedPool.shrinker_list :=
       [{| SharedPool.sp_id := Ttm.GlobalWC 0; SharedPool.order := 0;
           SharedPool.pages := [5%nat]; SharedPool.page_count := 1 |};
        {| SharedPool.sp_id := Ttm.PoolOwn Ttm.ttm_cached 2; SharedPool.order := 2;
           SharedPool.pages := [8%nat]; SharedPool.page_count := 4 |}];
     SharedPool.nr_managed_pages := 5;
     SharedPool.page_pool_size := 0; SharedPool.mem := fun _ => 0;
     SharedPool.log := [] |}.

(** only a global write-combined order-0 bucket holding run 5 *)
Definition ttm_x2 : SharedPool.state Ttm.pool_type :=
  {| SharedPool.shrinker_list :=
       [{| SharedPool.sp_id := Ttm.GlobalWC 0; SharedPool.order := 0;
           SharedPool.pages := [5%nat]; SharedPool.page_count := 1 |}];
     SharedPool.nr_managed_pages := 1;
     SharedPool.page_pool_size := 0; SharedPool.mem := fun _ => 0;
     SharedPool.log := [] |}.

(** an order-0 dynamic pool: dirty low run 3, clean low runs 5 and 6,
    clean high run 7, all pages zeroed *)
Definition dyn_pool1 : Dynamic.dynamic_page_pool :=
  {| Dynamic.count := fun i => match i with
                               | Dynamic.POOL_LOWPAGE => 2 | Dynamic.POOL_HIGHPAGE => 1
                               | Dynamic.POOL_LOWDEFERRED => 1 | Dynamic.POOL_HIGHDEFERRED => 0
                               end;
     Dynamic.items := fun i => match i with
                               | Dynamic.POOL_LOWPAGE => [5; 6]%nat
                               | Dynamic.POOL_HIGHPAGE => [7%nat]
                               | Dynamic.POOL_LOWDEFERRED => [3%nat]
                               | Dynamic.POOL_HIGHDEFERRED => []
                               end;
     Dynamic.order := 0; Dynamic.mem := fun _ => 0; Dynamic.freed := [] |}.

(** TTM state after ttm_pool_mgr_init; run 4 has order 1, others order 0 *)
Definition ttm_s0 : Ttm.tstate :=
  {| Ttm.sp := snd (TtmLife.ttm_pool_mgr_init ttm_x0);
     Ttm.priv := fun p => if Nat.eqb p 4 then 1%nat else 0%nat;
     Ttm.ncalls := 0; Ttm.tlog := [] |}.

End Scenarios2.

(* ================================================================== *)
(** * Run sizes *)

Lemma pages_of_pow (o : nat) : pages_of o = (2 ^ Z.of_nat o)%Z.
Proof. unfold pages_of. rewrite Z.shiftl_1_l. reflexivity. Qed.

Lemma pages_of_pos (o : nat) : (0 < pages_of o)%Z.
Proof. rewrite pages_of_pow. apply Z.pow_pos_nonneg; lia. Qed.

(* ================================================================== *)
(** * Facts about the DMA-BUF pool *)
Module DmaBufFacts.
Import DmaBufPool DmaBufInv.
Local Open Scope Z_scope.


Lemma find_pool_some id l b :
  find_pool id l = Some b -> In b l /\ dp_id b = id.
Proof.
  induction l as [|a l IH]; simpl; [discriminate|].
  destruct (Nat.eqb (dp_id a) id) eqn:E.
  - intros [= <-]. split; [left; reflexivity | apply Nat.eqb_eq; exact E].
  - intros H. destruct (IH H). split; [right|]; assumption.
Qed.

Lemma sum_pages_app l1 l2 : sum_pages (l1 ++ l2) = sum_pages l1 + sum_pages l2.
Proof. induction l1; simpl; lia. Qed.

Lemma replace_pool_sum b' l b :
  find_pool (dp_id b') l = Some b ->
  sum_pages (replace_pool b' l)
  = sum_pages l - count b * pages_of (order b) + count b' * pages_of (order b').
Proof.
  induction l as [|a l IH]; simpl; [discriminate|].
  destruct (Nat.eqb (dp_id a) (dp_id b')) eqn:E.
  - intros [= ->]. simpl. lia.
  - intros H. simpl. rewrite (IH H). lia.
Qed.

Lemma replace_pool_Forall (P : drm_page_pool -> Prop) b' l :
  Forall P l -> P b' -> Forall P (replace_pool b' l).
Proof.
  intros Hl Hb. induction Hl as [|a l Ha Hl IH]; simpl; [constructor|].
  destruct (Nat.eqb (dp_id a) (dp_id b')); constructor; assumption.
Qed.

Lemma find_replace id l b b' :
  find_pool id l = Some b -> dp_id b' = id -> find_pool id (replace_pool b' l) = Some b'.
Proof.
  intros H Hid. induction l as [|a l IH]; simpl in *; [discriminate|].
  destruct (Nat.eqb (dp_id a) id) eqn:E.
  - rewrite Hid, E. simpl. rewrite Hid, Nat.eqb_refl. reflexivity.
  - rewrite Hid, E. simpl. rewrite E. apply IH, H.
Qed.

Lemma delete_pool_sum id l b :
  find_pool id l = Some b -> sum_pages (delete_pool id l) = sum_pages l - count b * pages_of (order b).
Proof.
  induction l as [|a l IH]; simpl; [discriminate|].
  destruct (Nat.eqb (dp_id a) id).
  - intros [= ->]. lia.
  - intros H. simpl. rewrite (IH H). lia.
Qed.

Lemma delete_pool_Forall (P : drm_page_pool -> Prop) id l :
  Forall P l -> Forall P (delete_pool id l).
Proof.
  induction 1 as [|a l Ha Hl IH]; simpl; [constructor|].
  destruct (Nat.eqb (dp_id a) id); [assumption | constructor; assumption].
Qed.

Lemma destroy_drain_total l pool tp lg :
  items pool = l -> count pool = Z.of_nat (length l) ->
  fst (destroy_drain (length l) pool tp lg) = tp - count pool * pages_of (order pool).
Proof.
  revert pool tp lg. induction l as [|p l IH]; intros pool tp lg Hi Hc; simpl.
  - rewrite Hc. simpl. lia.
  - unfold drm_page_pool_remove. rewrite Hi.
    destruct (count pool =? 0) eqn:E; [apply Z.eqb_eq in E; simpl in Hc; lia|].
    rewrite IH by (simpl; auto; simpl in Hc; lia). simpl. lia.
Qed.

Lemma shrink_one_delta s n s' :
  drm_page_pool_shrink_one s = Some (n, s') ->
  n = total_pages s - total_pages s' /\ 0 <= n.
Proof.
  unfold drm_page_pool_shrink_one, drm_page_pool_free_pages.
  destruct (pool_list s) as [|pool rest]; [discriminate|].
  destruct (drm_page_pool_remove pool) as [[p pool']|];
    intros [= <- <-]; simpl; pose proof (pages_of_pos (order pool)); lia.
Qed.

Lemma shrink_one_inv s n s' :
  inv s -> drm_page_pool_shrink_one s = Some (n, s') -> inv s'.
Proof.
  intros [Hc Ht]. unfold drm_page_pool_shrink_one, inv in *.
  destruct (pool_list s) as [|pool rest] eqn:Hl; [discriminate|].
  inversion Hc as [|? ? Hp Hr]; subst.
  unfold drm_page_pool_remove.
  destruct (count pool =? 0) eqn:E.
  - intros [= <- <-]; simpl. split.
    + apply Forall_app; split; auto.
    + rewrite sum_pages_app, Ht. simpl. lia.
  - destruct (items pool) as [|p r] eqn:Hi.
    + apply Z.eqb_neq in E. simpl in Hp. lia.
    + intros [= <- <-]; simpl. split.
      * apply Forall_app; split; auto. constructor; [|constructor]. simpl.
        rewrite Hp. cbn [length]. lia.
      * rewrite sum_pages_app, Ht. simpl. nia.
Qed.

Lemma shrink_scan_loop_props fuel to_scan acc s n s' :
  shrink_scan_loop fuel to_scan acc s = Some (n, s') ->
  n - acc = total_pages s - total_pages s' /\
  (to_scan - (n - acc) < 0 \/ total_pages s' = 0) /\
  (inv s -> inv s').
Proof.
  revert to_scan acc s. induction fuel as [|f IH]; intros to_scan acc s; simpl;
    [discriminate|].
  destruct (drm_page_pool_shrink_one s) as [[nr s1]|] eqn:E; [|discriminate].
  destruct (shrink_one_delta _ _ _ E) as [Hd Hn].
  destruct ((0 <=? to_scan - nr) && negb (total_pages s1 =? 0)) eqn:C.
  - intros H. destruct (IH _ _ _ H) as [H1 [H2 H3]]. split; [|split].
    + lia.
    + lia.
    + intros Hi. apply H3. eapply shrink_one_inv; eauto.
  - intros [= <- <-]. apply andb_false_iff in C. split; [|split].
    + lia.
    + destruct C as [C|C].
      * left. apply Z.leb_gt in C. lia.
      * right. apply negb_false_iff, Z.eqb_eq in C. exact C.
    + intros Hi. eapply shrink_one_inv; eauto.
Qed.

Lemma step_inv s s' : inv s -> step s s' -> inv s'.
Proof.
  intros [Hc Ht] Hs. destruct Hs as [id o s|id s|id p s|id s p s' Hf|s n s' Hsh|nr s n s' Hsc].
  - unfold inv, drm_page_pool_create; simpl. split; [constructor; auto|]. lia.
  - unfold drm_page_pool_destroy.
    destruct (find_pool id (pool_list s)) as [pool|] eqn:F; [|split; assumption].
    destruct (find_pool_some _ _ _ F) as [Hin _].
    assert (Hp : count pool = Z.of_nat (length (items pool)))
      by (rewrite Forall_forall in Hc; apply Hc, Hin).
    pose proof (destroy_drain_total (items pool) pool (total_pages s)
                  (log s ++ [MutexLock; MutexUnlock; SpinLock]) eq_refl Hp) as D.
    destruct (destroy_drain _ _ _ _) as [tp lg]. simpl in D |- *.
    split; simpl; [apply delete_pool_Forall; assumption|].
    rewrite (delete_pool_sum _ _ _ F). lia.
  - unfold drm_page_pool_add.
    destruct (find_pool id (pool_list s)) as [pool|] eqn:F; [|split; assumption].
    destruct (find_pool_some _ _ _ F) as [Hin Hid].
    assert (Hp : count pool = Z.of_nat (length (items pool)))
      by (rewrite Forall_forall in Hc; apply Hc, Hin).
    split; simpl.
    + apply replace_pool_Forall; [assumption|]. simpl. rewrite length_app. simpl. lia.
    + rewrite (replace_pool_sum _ _ pool) by (simpl; exact F). simpl. lia.
  - unfold drm_page_pool_fetch in Hf.
    destruct (find_pool id (pool_list s)) as [pool|] eqn:F;
      [|injection Hf as _ <-; split; assumption].
    destruct (find_pool_some _ _ _ F) as [Hin Hid].
    assert (Hp : count pool = Z.of_nat (length (items pool)))
      by (rewrite Forall_forall in Hc; apply Hc, Hin).
    unfold drm_page_pool_remove in Hf.
    destruct (count pool =? 0) eqn:E; [injection Hf as _ <-; split; assumption|].
    destruct (items pool) as [|q r] eqn:Hi; [injection Hf as _ <-; split; assumption|].
    injection Hf as _ <-. split; simpl.
    + apply replace_pool_Forall; [assumption|]. simpl. rewrite Hp. cbn [length]. lia.
    + rewrite (replace_pool_sum _ _ pool) by (simpl; rewrite Hid; exact F). simpl. nia.
  - eapply shrink_one_inv; [split|]; eassumption.
  - unfold drm_page_pool_shrink_scan in Hsc.
    destruct (nr =? 0); [injection Hsc as _ <-; split; assumption|].
    eapply shrink_scan_loop_props; [eassumption|]. split; assumption.
Qed.

Lemma reachable_inv s : reachable s -> inv s.
Proof.
  induction 1 as [|s s' _ IH Hs].
  - split; [constructor | reflexivity].
  - eapply step_inv; eassumption.
Qed.

End DmaBufFacts.

(* ================================================================== *)
(** * Facts about the shared pool *)
Module SharedFacts.
Import SharedPool SharedInv.
Local Open Scope Z_scope.

Section Facts.
Variable K : Type.
Variable K_eq_dec : forall x y : K, {x = y} + {x <> y}.
Variable PageHighMem : nat -> bool.
Implicit Types s : state K.

Lemma same_id_spec a b : same_id K_eq_dec a b = true <-> a = b.
Proof. unfold same_id. destruct (K_eq_dec a b); split; congruence. Qed.

Lemma same_id_refl a : same_id K_eq_dec a a = true.
Proof. apply same_id_spec. reflexivity. Qed.

Lemma shared_find_pool_some id l b :
  find_pool K_eq_dec id l = Some b -> In b l /\ sp_id b = id.
Proof.
  induction l as [|a l IH]; simpl; [discriminate|].
  destruct (same_id K_eq_dec (sp_id a) id) eqn:E.
  - intros [= <-]. split; [left; reflexivity | apply same_id_spec; exact E].
  - intros H. destruct (IH H). split; [right|]; assumption.
Qed.

Lemma shared_find_replace id l b b' :
  find_pool K_eq_dec id l = Some b -> sp_id b' = id ->
  find_pool K_eq_dec id (replace_pool K_eq_dec b' l) = Some b'.
Proof.
  intros H Hid. induction l as [|a l IH]; simpl in *; [discriminate|].
  rewrite Hid. destruct (same_id K_eq_dec (sp_id a) id) eqn:E.
  - simpl. rewrite Hid, same_id_refl. reflexivity.
  - simpl. rewrite E. apply IH, H.
Qed.

Lemma replace_pool_In b' l b :
  In b (replace_pool K_eq_dec b' l) -> In b l \/ b = b'.
Proof.
  induction l as [|a l IH]; simpl; [tauto|].
  destruct (same_id K_eq_dec (sp_id a) (sp_id b')); simpl.
  - intros [H|H]; [right; symmetry; exact H | left; right; exact H].
  - intros [H|H]; [left; left; exact H|]. destruct (IH H); [left; right|right]; assumption.
Qed.

Lemma shared_replace_pool_Forall (P : drm_page_pool K -> Prop) b' l :
  Forall P l -> P b' -> Forall P (replace_pool K_eq_dec b' l).
Proof.
  intros Hl Hb. induction Hl as [|a l Ha Hl IH]; simpl; [constructor|].
  destruct (same_id K_eq_dec (sp_id a) (sp_id b')); constructor; assumption.
Qed.

Lemma shared_replace_pool_sum b' l b :
  find_pool K_eq_dec (sp_id b') l = Some b ->
  sum_page_count (replace_pool K_eq_dec b' l)
  = sum_page_count l - page_count b + page_count b'.
Proof.
  induction l as [|a l IH]; simpl; [discriminate|].
  destruct (same_id K_eq_dec (sp_id a) (sp_id b')).
  - intros [= ->]. simpl. lia.
  - intros H. simpl. rewrite (IH H). lia.
Qed.

Lemma delete_pool_In id l b : In b (delete_pool K_eq_dec id l) -> In b l.
Proof.
  induction l as [|a l IH]; simpl; [tauto|].
  destruct (same_id K_eq_dec (sp_id a) id); simpl; [tauto|].
  intros [H|H]; [tauto|]. right. apply IH, H.
Qed.

Lemma shared_delete_pool_Forall (P : drm_page_pool K -> Prop) id l :
  Forall P l -> Forall P (delete_pool K_eq_dec id l).
Proof.
  induction 1 as [|a l Ha Hl IH]; simpl; [constructor|].
  destruct (same_id K_eq_dec (sp_id a) id); [assumption | constructor; assumption].
Qed.

Lemma shared_delete_pool_sum id l b :
  find_pool K_eq_dec id l = Some b ->
  sum_page_count (delete_pool K_eq_dec id l) = sum_page_count l - page_count b.
Proof.
  induction l as [|a l IH]; simpl; [discriminate|].
  destruct (same_id K_eq_dec (sp_id a) id).
  - intros [= ->]. lia.
  - intros H. simpl. rewrite (IH H). lia.
Qed.

Lemma sum_page_count_app (l1 l2 : list (drm_page_pool K)) :
  sum_page_count (l1 ++ l2) = sum_page_count l1 + sum_page_count l2.
Proof. induction l1; simpl; lia. Qed.

Lemma take_first_spec (b : drm_page_pool K) p b' :
  take_first b = Some (p, b') ->
  pages b = p :: pages b' /\ order b' = order b /\ sp_id b' = sp_id b /\
  page_count b' = page_count b - pages_of (order b).
Proof.
  unfold take_first. destruct (pages b) as [|q r]; [discriminate|].
  intros [= <- <-]. simpl. auto.
Qed.

Lemma take_first_none (b : drm_page_pool K) : take_first b = None -> pages b = [].
Proof. unfold take_first. destruct (pages b); [reflexivity | discriminate]. Qed.

Lemma fini_drain_fst l o n lg :
  fst (fini_drain l o n lg) = n - Z.of_nat (length l) * pages_of o.
Proof.
  revert n lg. induction l as [|p l IH]; intros n lg; cbn [fini_drain length fst]; [lia|].
  rewrite IH, Nat2Z.inj_succ. lia.
Qed.

Lemma clear_loop_spec hm p i k m x :
  clear_loop hm p i k m x
  = if (p + i <=? x)%nat && (x <? p + i + k)%nat then 0 else m x.
Proof.
  revert i m. induction k as [|k IH]; intros i m; cbn [clear_loop].
  - destruct (Nat.leb_spec (p + i) x); destruct (Nat.ltb_spec x (p + i + 0));
      simpl; try reflexivity; lia.
  - rewrite IH. unfold clear_highpage, clear_page, mem_upd.
    destruct (Nat.leb_spec (p + S i) x); destruct (Nat.ltb_spec x (p + S i + k));
      destruct (Nat.leb_spec (p + i) x); destruct (Nat.ltb_spec x (p + i + S k));
      destruct hm; cbn; destruct (Nat.eqb_spec x (p + i));
      try reflexivity; lia.
Qed.


Lemma sub_runs_refl (s : state K) : sub_runs s s.
Proof. intros b p Hb Hp. exists b. auto. Qed.

Lemma sub_runs_trans (s2 s1 s0 : state K) : sub_runs s2 s1 -> sub_runs s1 s0 -> sub_runs s2 s0.
Proof.
  intros H21 H10 b p Hb Hp. destruct (H21 _ _ Hb Hp) as (b1 & Hb1 & Hp1 & Ho1).
  destruct (H10 _ _ Hb1 Hp1) as (b0 & Hb0 & Hp0 & Ho0).
  exists b0. split; [|split]; auto. congruence.
Qed.

Lemma zinv_sub (s s' : state K) : zinv s -> mem s' = mem s -> sub_runs s' s -> zinv s'.
Proof.
  intros Hz Hm Hs b p i Hb Hp Hi. rewrite Hm.
  destruct (Hs _ _ Hb Hp) as (b0 & Hb0 & Hp0 & Ho). apply (Hz b0); auto. congruence.
Qed.

Lemma shrink_props s n s' :
  drm_page_pool_shrink s = Some (n, s') ->
  n = nr_managed_pages s - nr_managed_pages s' /\
  (n = 0 \/ exists o, n = pages_of o) /\
  mem s' = mem s /\ page_pool_size s' = page_pool_size s /\ sub_runs s' s /\
  (inv2 s -> inv2 s').
Proof.
  unfold drm_page_pool_shrink.
  destruct (shrinker_list s) as [|pool rest] eqn:Hl; [discriminate|].
  destruct (take_first pool) as [[p pool']|] eqn:T.
  - destruct (take_first_spec _ _ _ T) as (Hp & Ho & Hid & Hc).
    intros [= <- <-]. cbn. split; [lia|]. split; [right; eexists; reflexivity|].
    split; [reflexivity|]. split; [reflexivity|]. split.
    + intros b' q Hb' Hq. apply in_app_or in Hb'. destruct Hb' as [Hb'|[<-|[]]].
      * exists b'. rewrite Hl. split; [right|]; auto.
      * exists pool. rewrite Hl, Hp. split; [left|split; [right|]]; auto.
    + intros [Hf Hn]. rewrite Hl in Hf, Hn. inversion Hf as [|? ? Hpc Hr]; subst.
      split; cbn.
      * apply Forall_app. split; [assumption|]. constructor; [|constructor].
        rewrite Hc, Hpc, Hp, Ho. cbn [length]. rewrite Nat2Z.inj_succ. lia.
      * rewrite sum_page_count_app. cbn in Hn |- *. lia.
  - pose proof (take_first_none _ T) as Hp.
    intros [= <- <-]. cbn. split; [lia|]. split; [left; reflexivity|].
    split; [reflexivity|]. split; [reflexivity|]. split.
    + intros b' q Hb' Hq. exists b'. rewrite Hl. split; [|auto].
      apply in_app_or in Hb'. destruct Hb' as [Hb'|[<-|[]]]; [right|left]; auto.
    + intros [Hf Hn]. rewrite Hl in Hf, Hn. inversion Hf as [|? ? Hpc Hr]; subst.
      split; cbn.
      * apply Forall_app. split; [assumption|]. constructor; [assumption|constructor].
      * rewrite sum_page_count_app. cbn in Hn |- *. lia.
Qed.

Lemma trim_loop_props fuel s s' :
  trim_loop fuel s = Some s' ->
  mem s' = mem s /\ page_pool_size s' = page_pool_size s /\ sub_runs s' s /\
  (inv2 s -> inv2 s') /\
  (page_pool_size s' = 0 \/ nr_managed_pages s' <= page_pool_size s').
Proof.
  revert s. induction fuel as [|f IH]; intros s; cbn [trim_loop]; [discriminate|].
  destruct (negb (page_pool_size s =? 0) && (page_pool_size s <? nr_managed_pages s)) eqn:C.
  - destruct (drm_page_pool_shrink s) as [[n s1]|] eqn:E; [|discriminate].
    intros H. destruct (IH _ H) as (Hm & Hsz & Hs & Hi & Hx).
    destruct (shrink_props _ _ _ E) as (_ & _ & Hm1 & Hsz1 & Hs1 & Hi1).
    split; [congruence|]. split; [congruence|]. split; [eapply sub_runs_trans; eauto|].
    split; [auto|]. exact Hx.
  - intros [= <-]. split; [reflexivity|]. split; [reflexivity|].
    split; [apply sub_runs_refl|]. split; [auto|].
    apply andb_false_iff in C. destruct C as [C|C].
    + left. apply negb_false_iff, Z.eqb_eq in C. exact C.
    + right. apply Z.ltb_ge in C. exact C.
Qed.

Lemma shrinker_scan_loop_props fuel nf0 s n s' :
  shrinker_scan_loop fuel nf0 s = Some (n, s') ->
  n - nf0 = nr_managed_pages s - nr_managed_pages s' /\
  (n <> 0 \/ nr_managed_pages s' = 0) /\
  (nf0 = 0 -> n = 0 \/ exists o, n = pages_of o) /\
  mem s' = mem s /\ page_pool_size s' = page_pool_size s /\ sub_runs s' s /\
  (inv2 s -> inv2 s').
Proof.
  revert nf0 s. induction fuel as [|f IH]; intros nf0 s; cbn [shrinker_scan_loop];
    [discriminate|].
  destruct (drm_page_pool_shrink s) as [[n1 s1]|] eqn:E; [|discriminate].
  destruct (shrink_props _ _ _ E) as (Hd & Ho & Hm1 & Hsz1 & Hs1 & Hi1).
  destruct ((nf0 + n1 =? 0) && negb (nr_managed_pages s1 =? 0)) eqn:C.
  - intros H. destruct (IH _ _ H) as (H1 & H2 & H3 & Hm & Hsz & Hs & Hi).
    apply andb_true_iff in C. destruct C as [C _]. apply Z.eqb_eq in C.
    split; [lia|]. split; [exact H2|]. split; [intros; apply H3; lia|].
    split; [congruence|]. split; [congruence|]. split; [eapply sub_runs_trans; eauto|].
    auto.
  - intros [= <- <-]. apply andb_false_iff in C.
    split; [lia|]. split.
    + destruct C as [C|C]; [left; apply Z.eqb_neq in C; exact C|].
      right. apply negb_false_iff, Z.eqb_eq in C. exact C.
    + split; [intros ->; exact Ho|]. auto.
Qed.

Lemma add_run_props id p s :
  page_pool_size (add_run K_eq_dec PageHighMem id p s) = page_pool_size s /\
  (inv2 s -> inv2 (add_run K_eq_dec PageHighMem id p s)) /\
  (zinv s -> zinv (add_run K_eq_dec PageHighMem id p s)).
Proof.
  unfold add_run. destruct (find_pool K_eq_dec id (shrinker_list s)) as [pool|] eqn:F;
    [|auto].
  destruct (shared_find_pool_some _ _ _ F) as [Hin Hid].
  split; [reflexivity|]. split.
  - intros [Hf Hn]. split; cbn.
    + apply shared_replace_pool_Forall; [assumption|]. cbv beta.
      cbn [page_count pages order length].
      rewrite Forall_forall in Hf. rewrite (Hf _ Hin), Nat2Z.inj_succ. lia.
    + rewrite (shared_replace_pool_sum _ _ pool) by (cbn; exact F). cbn. lia.
  - intros Hz b q i Hb Hq Hi. cbn in Hb, Hq |- *. rewrite clear_loop_spec.
    destruct ((p + 0 <=? q + i)%nat && (q + i <? p + 0 + 2 ^ order pool)%nat) eqn:C;
      [reflexivity|].
    apply replace_pool_In in Hb. destruct Hb as [Hb| ->].
    + apply (Hz b); assumption.
    + cbn in Hq, Hi. destruct Hq as [<-|Hq].
      * exfalso. apply andb_false_iff in C.
        destruct C as [C|C]; [apply Nat.leb_gt in C | apply Nat.ltb_ge in C]; lia.
      * apply (Hz pool); assumption.
Qed.

Lemma remove_props id s r s' :
  drm_page_pool_remove K_eq_dec id s = (r, s') ->
  mem s' = mem s /\ page_pool_size s' = page_pool_size s /\ sub_runs s' s /\
  (inv2 s -> inv2 s').
Proof.
  unfold drm_page_pool_remove.
  destruct (find_pool K_eq_dec id (shrinker_list s)) as [pool|] eqn:F;
    [|intros [= _ <-]; split; [|split; [|split]]; auto using sub_runs_refl].
  destruct (take_first pool) as [[p pool']|] eqn:T;
    [|intros [= _ <-]; split; [|split; [|split]]; auto using sub_runs_refl].
  destruct (shared_find_pool_some _ _ _ F) as [Hin Hid].
  destruct (take_first_spec _ _ _ T) as (Hp & Ho & Hid' & Hc).
  intros [= _ <-]. split; [reflexivity|]. split; [reflexivity|]. split.
  - intros b' q Hb' Hq. cbn in Hb'. apply replace_pool_In in Hb'.
    destruct Hb' as [Hb'| ->]; [exists b'; auto|].
    exists pool. rewrite Hp. split; [|split; [right|]]; auto.
  - intros [Hf Hn]. split; cbn.
    + apply shared_replace_pool_Forall; [assumption|].
      rewrite Forall_forall in Hf. rewrite Hc, (Hf _ Hin), Hp, Ho. cbn [length].
      rewrite Nat2Z.inj_succ. lia.
    + rewrite (shared_replace_pool_sum _ _ pool) by (rewrite Hid', Hid; exact F). lia.
Qed.

Lemma fini_props id s :
  mem (drm_page_pool_fini K_eq_dec id s) = mem s /\
  page_pool_size (drm_page_pool_fini K_eq_dec id s) = page_pool_size s /\
  sub_runs (drm_page_pool_fini K_eq_dec id s) s /\
  (inv2 s -> inv2 (drm_page_pool_fini K_eq_dec id s)).
Proof.
  unfold drm_page_pool_fini.
  destruct (find_pool K_eq_dec id (shrinker_list s)) as [pool|] eqn:F;
    [|split; [|split; [|split]]; auto using sub_runs_refl].
  destruct (shared_find_pool_some _ _ _ F) as [Hin Hid].
  pose proof (fini_drain_fst (pages pool) (order pool) (nr_managed_pages s)
                (log s ++ [MutexLock; MutexUnlock])) as D.
  destruct (fini_drain _ _ _ _) as [n lg]. cbn in D |- *.
  split; [reflexivity|]. split; [reflexivity|]. split.
  - intros b' q Hb' Hq. cbn in Hb'. exists b'. split; [|auto].
    eapply delete_pool_In; eassumption.
  - intros [Hf Hn]. split; cbn.
    + apply shared_delete_pool_Forall. assumption.
    + rewrite (shared_delete_pool_sum _ _ _ F). rewrite Forall_forall in Hf.
      rewrite (Hf _ Hin) in *. lia.
Qed.

Lemma init_props id o s :
  mem (drm_page_pool_init id o s) = mem s /\
  page_pool_size (drm_page_pool_init id o s) = page_pool_size s /\
  sub_runs (drm_page_pool_init id o s) s /\
  (inv2 s -> inv2 (drm_page_pool_init id o s)).
Proof.
  split; [reflexivity|]. split; [reflexivity|]. split.
  - intros b' q Hb' Hq. cbn in Hb'. apply in_app_or in Hb'.
    destruct Hb' as [Hb'|[<-|[]]]; [exists b'; auto | destruct Hq].
  - intros [Hf Hn]. split; cbn.
    + apply Forall_app. split; [assumption|]. constructor; [|constructor]. reflexivity.
    + rewrite sum_page_count_app. cbn. lia.
Qed.

Lemma step_invs s s' :
  step K_eq_dec PageHighMem s s' -> inv2 s /\ zinv s -> inv2 s' /\ zinv s'.
Proof.
  intros Hs [Hi Hz].
  destruct Hs as [id o s|id s|id p s s' Ha|id s r s' Hr|s n s' Hsh|nr s n s' Hsc
                  |s v Hv|s q v Hq].
  - destruct (init_props id o s) as (Hm & _ & Hsub & Hi').
    split; [auto | eapply zinv_sub; eauto].
  - destruct (fini_props id s) as (Hm & _ & Hsub & Hi').
    split; [auto | eapply zinv_sub; eauto].
  - unfold drm_page_pool_add in Ha.
    destruct (add_run_props id p s) as (_ & Hi1 & Hz1).
    destruct (trim_loop_props _ _ _ Ha) as (Hm & _ & Hsub & Hi' & _).
    split; [auto | apply (zinv_sub _ _ (Hz1 Hz) Hm Hsub)].
  - destruct (remove_props _ _ _ _ Hr) as (Hm & _ & Hsub & Hi').
    split; [auto | eapply zinv_sub; eauto].
  - destruct (shrink_props _ _ _ Hsh) as (_ & _ & Hm & _ & Hsub & Hi').
    split; [auto | eapply zinv_sub; eauto].
  - unfold drm_page_pool_shrinker_scan in Hsc.
    destruct (shrinker_scan_loop_props _ _ _ _ _ Hsc) as (_ & _ & _ & Hm & _ & Hsub & Hi').
    split; [auto | eapply zinv_sub; eauto].
  - split; [exact Hi|]. intros b p i Hb Hp Hl. exact (Hz b p i Hb Hp Hl).
  - split; [exact Hi|]. intros b p i Hb Hp Hl. cbn in *. unfold mem_upd.
    destruct (Nat.eqb_spec (p + i) q) as [E|E]; [|exact (Hz b p i Hb Hp Hl)].
    exfalso. apply Hq. exists b, p. split; [|split]; auto. lia.
Qed.

Lemma reachable_invs s : reachable K_eq_dec PageHighMem s -> inv2 s /\ zinv s.
Proof.
  induction 1 as [sz m Hsz|s s' _ IH Hs].
  - split; [split; [constructor | reflexivity]|]. intros b p i [].
  - eapply step_invs; eassumption.
Qed.

End Facts.
End SharedFacts.

(* ================================================================== *)
(** * Facts about the dynamic pool's index maps and page array *)
Module DynamicFacts.
Import Dynamic.
Local Open Scope Z_scope.


Lemma index_eqb_spec a b : index_eqb a b = true <-> a = b.
Proof. destruct a, b; cbn; split; congruence. Qed.

Lemma set_index_same {A} (f : pool_index -> A) i v : set_index f i v i = v.
Proof. unfold set_index. destruct i; reflexivity. Qed.

Lemma set_index_other {A} (f : pool_index -> A) i v j : j <> i -> set_index f i v j = f j.
Proof.
  intros H. unfold set_index. destruct (index_eqb j i) eqn:E; [|reflexivity].
  apply index_eqb_spec in E. contradiction.
Qed.

(** an unwritten first entry makes every non-empty prefix unreadable *)
Lemma array_prefix_unwritten (pages : page_array) n :
  pages 0 = None -> (0 < n)%nat -> array_prefix pages n = None.
Proof.
  intros H0 Hn. induction n as [|k IH]; [lia|].
  destruct k as [|k].
  - cbn. rewrite H0. reflexivity.
  - assert (E : array_prefix pages (S (S k)) =
              match array_prefix pages (S k), pages (Z.of_nat (S k)) with
              | Some l, Some page => Some (l ++ [page])
              | _, _ => None
              end) by reflexivity.
    rewrite E, IH by lia. reflexivity.
Qed.
End DynamicFacts.

(* ================================================================== *)
(** * Facts about the TTM allocation loop *)
Module TtmFacts.
Import Ttm.

Lemma iters_app l1 l2 : iters (l1 ++ l2) = iters l1 ++ iters l2.
Proof. induction l1 as [|[] l1 IH]; cbn; rewrite ?IH; reflexivity. Qed.
Lemma acquired_app l1 l2 : acquired (l1 ++ l2) = acquired l1 ++ acquired l2.
Proof. induction l1 as [|[] l1 IH]; cbn; rewrite ?IH; reflexivity. Qed.
Lemma taken_app l1 l2 : taken (l1 ++ l2) = taken l1 ++ taken l2.
Proof. induction l1 as [|[] l1 IH]; cbn; rewrite ?IH; reflexivity. Qed.
Lemma frees_app l1 l2 : frees (l1 ++ l2) = frees l1 ++ frees l2.
Proof. induction l1 as [|[] l1 IH]; cbn; rewrite ?IH; reflexivity. Qed.
Lemma sum_run_pages_app l1 l2 :
  sum_run_pages (l1 ++ l2) = (sum_run_pages l1 + sum_run_pages l2)%Z.
Proof. induction l1 as [|[] l1 IH]; cbn; rewrite ?IH; lia. Qed.

Lemma free_evs_views F :
  iters (map free_ev F) = [] /\ acquired (map free_ev F) = [] /\
  taken (map free_ev F) = [] /\ frees (map free_ev F) = F.
Proof.
  induction F as [|[p o] F IH]; cbn; [auto|].
  destruct IH as (H1 & H2 & H3 & H4). rewrite H1, H2, H3, H4. auto.
Qed.

Lemma pow2_pos o : 0 < 2 ^ o.
Proof. apply Nat.neq_0_lt_0, Nat.pow_nonzero. discriminate. Qed.

Lemma length_flat_map_run_pages D :
  length (flat_map run_pages D) = fold_right (fun r n => 2 ^ snd r + n) 0 D.
Proof.
  induction D as [|r D IH]; cbn; [reflexivity|].
  rewrite length_app, IH. unfold run_pages. rewrite length_seq. reflexivity.
Qed.

Lemma length_runs_ge D : length D <= length (flat_map run_pages D).
Proof.
  rewrite length_flat_map_run_pages.
  induction D as [|r D IH]; cbn; [lia|]. pose proof (pow2_pos (snd r)). lia.
Qed.

Lemma remove_none_spec t (x : SharedPool.state pool_type) x' :
  SharedPool.drm_page_pool_remove pool_type_eq_dec t x = (None, x') -> x' = x.
Proof.
  unfold SharedPool.drm_page_pool_remove.
  destruct (SharedPool.find_pool pool_type_eq_dec t (SharedPool.shrinker_list x)) as [b|];
    [|congruence].
  destruct (SharedPool.take_first b) as [[p b']|]; congruence.
Qed.

Lemma remove_some_spec t (x : SharedPool.state pool_type) p x' :
  SharedPool.drm_page_pool_remove pool_type_eq_dec t x = (Some p, x') ->
  exists b, In b (SharedPool.shrinker_list x) /\ SharedPool.sp_id b = t /\
    In p (SharedPool.pages b) /\
    SharedPool.nr_managed_pages x' =
      (SharedPool.nr_managed_pages x - pages_of (SharedPool.order b))%Z /\
    (forall b', In b' (SharedPool.shrinker_list x') ->
       In b' (SharedPool.shrinker_list x) \/
       (SharedPool.sp_id b' = SharedPool.sp_id b /\ SharedPool.order b' = SharedPool.order b)) /\
    SharedInv.sub_runs x' x.
Proof.
  intros H. destruct (SharedFacts.remove_props _ _ _ _ _ _ H) as (_ & _ & Hsub & _).
  revert H. unfold SharedPool.drm_page_pool_remove.
  destruct (SharedPool.find_pool pool_type_eq_dec t (SharedPool.shrinker_list x))
    as [b|] eqn:F; [|congruence].
  destruct (SharedPool.take_first b) as [[q b']|] eqn:T; [|congruence].
  intros [= <- <-].
  destruct (SharedFacts.shared_find_pool_some _ _ _ _ _ F) as [Hin Hid].
  destruct (SharedFacts.take_first_spec _ _ _ _ T) as (Hp & Ho & Hid' & _).
  exists b. split; [exact Hin|]. split; [exact Hid|]. split; [rewrite Hp; left; reflexivity|].
  split; [reflexivity|]. split; [|exact Hsub].
  intros b'' Hb. cbn in Hb. apply SharedFacts.replace_pool_In in Hb.
  destruct Hb as [Hb| ->]; [left; exact Hb | right; split; assumption].
Qed.

Lemma free_evs_inj F D : map free_ev F = map free_ev D -> F = D.
Proof.
  intros H. rewrite <- (proj2 (proj2 (proj2 (free_evs_views F)))), H.
  apply free_evs_views.
Qed.

Lemma iter_ok_intro o n :
  0 < n -> 2 ^ o <= n -> o <= MAX_ORDER - 1 -> iter_ok (o, n) = true.
Proof.
  intros H1 H2 H3. unfold iter_ok. cbn [fst snd].
  apply andb_true_intro; split; [apply andb_true_intro; split|];
    [apply Nat.ltb_lt | apply Nat.leb_le | apply Nat.leb_le]; assumption.
Qed.

Lemma fallback_order o n :
  0 < n -> 2 ^ o <= n -> Nat.min (o - 1) (Nat.log2 n) = o - 1.
Proof.
  intros Hn Ho. apply (Nat.log2_le_pow2 n o Hn) in Ho. lia.
Qed.

Lemma deposit_pre o n :
  2 ^ o <= n -> o <= MAX_ORDER - 1 ->
  0 < n - 2 ^ o ->
  2 ^ Nat.min o (Nat.log2 (n - 2 ^ o)) <= n - 2 ^ o /\
  Nat.min o (Nat.log2 (n - 2 ^ o)) <= MAX_ORDER - 1.
Proof.
  intros Ho Hm Hn. split; [|lia].
  apply (Nat.log2_le_pow2 _ _ Hn). lia.
Qed.

Lemma init_pre n :
  0 < n -> 2 ^ Nat.min (MAX_ORDER - 1) (Nat.log2 n) <= n /\
  Nat.min (MAX_ORDER - 1) (Nat.log2 n) <= MAX_ORDER - 1.
Proof.
  intros Hn. split; [|lia]. apply (Nat.log2_le_pow2 _ _ Hn). lia.
Qed.

Lemma orders_transfer D s s2 :
  sp s2 = sp s -> priv s2 = priv s ->
  (bucket_orders s -> bucket_orders s2) /\ (pooled_orders D s -> pooled_orders D s2) /\
  (array_orders D s -> array_orders D s2).
Proof.
  unfold bucket_orders, pooled_orders, array_orders. intros H1 H2. rewrite H1, H2. auto.
Qed.

Lemma array_orders_app_l D D' s : array_orders (D ++ D') s -> array_orders D s.
Proof. intros H p o Hin. apply H, in_or_app. left. exact Hin. Qed.

Lemma not_in_fst_last (D : list (nat * nat)) (p o : nat) : NoDup (map fst (D ++ [(p, o)])) -> ~ In p (map fst D).
Proof.
  rewrite map_app. cbn [map fst]. intros H Hin.
  apply (NoDup_remove_2 _ _ _ H). rewrite app_nil_r. exact Hin.
Qed.

Section Loop.
Variable config_x86 : bool.
Variable PageHighMem : nat -> bool.
Variable alloc_pages_env : nat -> gfp_t -> nat -> option nat.
Variable dma_alloc_env : nat -> gfp_t -> nat -> option nat.
Variable set_pages_array_wc : list nat -> option positive.
Variable set_pages_array_uc : list nat -> option positive.
Variable dma_map_page : nat -> nat -> option Z.
Variable dma_addr_of : nat -> Z.

(** error_free_all only logs frees *)
Lemma free_all_shape fuel pool c pages s :
  sp (free_all fuel pool c pages s) = sp s /\
  priv (free_all fuel pool c pages s) = priv s /\
  exists F, tlog (free_all fuel pool c pages s) = tlog s ++ map free_ev F.
Proof.
  revert pages s. induction fuel as [|f IH]; intros pages s; cbn [free_all].
  - split; [|split]; [reflexivity|reflexivity|]. exists []. rewrite app_nil_r. reflexivity.
  - destruct pages as [|p rest].
    + split; [|split]; [reflexivity|reflexivity|]. exists []. rewrite app_nil_r. reflexivity.
    + destruct (IH (skipn (2 ^ priv s p) (p :: rest))
                  (ttm_pool_free_page pool c (priv s p) p s)) as (H1 & H2 & F & H3).
      split; [|split]; [exact H1|exact H2|].
      exists ((p, priv s p) :: F). rewrite H3. cbn. rewrite <- app_assoc. reflexivity.
Qed.

(** on the caller's array, error_free_all frees exactly its runs *)
Lemma free_all_runs D fuel pool c s :
  length (flat_map run_pages D) <= fuel -> array_orders D s ->
  tlog (free_all fuel pool c (flat_map run_pages D) s) = tlog s ++ map free_ev D.
Proof.
  revert fuel s. induction D as [|[p o] D IH]; intros fuel s Hf HD.
  - destruct fuel; cbn; rewrite app_nil_r; reflexivity.
  - cbn [flat_map] in *. unfold run_pages in Hf. unfold run_pages at 1. cbn [fst snd] in *.
    rewrite length_app, length_seq in Hf. pose proof (pow2_pos o) as Hpos.
    destruct fuel as [|f]; [lia|].
    destruct (2 ^ o) as [|k] eqn:E; [lia|]. cbn [seq app free_all].
    rewrite (HD p o) by (left; reflexivity). rewrite E.
    change (p :: seq (S p) k ++ flat_map run_pages D)
      with (seq p (S k) ++ flat_map run_pages D).
    rewrite skipn_app, skipn_all2 by (rewrite length_seq; lia).
    rewrite length_seq, Nat.sub_diag. cbn [skipn app].
    rewrite IH.
    + cbn. rewrite <- app_assoc. reflexivity.
    + fold run_pages in Hf. lia.
    + intros q o' Hq. cbn. apply HD. right. exact Hq.
Qed.


Lemma apply_caching_nonpos seg c :
  (ttm_pool_apply_caching config_x86 set_pages_array_wc set_pages_array_uc seg c <= 0)%Z.
Proof.
  unfold ttm_pool_apply_caching, ret_of.
  destruct config_x86, seg, c; try lia;
    repeat match goal with |- context [match ?x with _ => _ end] => destruct x end; lia.
Qed.

Lemma select_type_order pool c order t :
  ttm_pool_select_type config_x86 pool c order = Some t -> pool_type_order t = order.
Proof.
  unfold ttm_pool_select_type.
  destruct (use_dma_alloc pool), config_x86, c, (use_dma32 pool);
    intros H; inversion H; reflexivity.
Qed.

Lemma alloc_page_spec pool g order s pp s2 :
  ttm_pool_alloc_page alloc_pages_env dma_alloc_env pool g order s = (pp, s2) ->
  (pp = None /\ sp s2 = sp s /\ priv s2 = priv s /\ tlog s2 = tlog s ++ [TAllocFail order])
  \/ (exists p, pp = Some p /\ sp s2 = sp s /\ priv s2 p = order /\
        (forall q, q <> p -> priv s2 q = priv s q) /\ tlog s2 = tlog s ++ [TAlloc p order]).
Proof.
  unfold ttm_pool_alloc_page.
  match goal with |- context [match ?x with Some _ => _ | None => _ end] =>
    destruct x as [p|] end.
  - intros [= <- <-]. right. exists p. cbn. rewrite Nat.eqb_refl.
    split; [reflexivity|]. split; [reflexivity|]. split; [reflexivity|]. split; [|reflexivity].
    intros q Hq. apply Nat.eqb_neq in Hq. rewrite Hq. reflexivity.
  - intros [= <- <-]. left. auto.
Qed.

Lemma acquire_spec pool tt g order s pp ac s2 :
  ttm_pool_acquire config_x86 PageHighMem alloc_pages_env dma_alloc_env pool tt g order s
    = (pp, ac, s2) ->
  (pp = None /\ sp s2 = sp s /\ priv s2 = priv s /\ tlog s2 = tlog s ++ [TAllocFail order])
  \/ (exists p, pp = Some p /\ sp s2 = sp s /\ priv s2 p = order /\
        (forall q, q <> p -> priv s2 q = priv s q) /\ tlog s2 = tlog s ++ [TAlloc p order])
  \/ (exists p b, pp = Some p /\ In b (SharedPool.shrinker_list (sp s)) /\
        pool_type_order (SharedPool.sp_id b) = order /\ In p (SharedPool.pages b) /\
        SharedPool.nr_managed_pages (sp s2) =
          (SharedPool.nr_managed_pages (sp s) - pages_of (SharedPool.order b))%Z /\
        (forall b', In b' (SharedPool.shrinker_list (sp s2)) ->
           In b' (SharedPool.shrinker_list (sp s)) \/
           (SharedPool.sp_id b' = SharedPool.sp_id b /\
            SharedPool.order b' = SharedPool.order b)) /\
        SharedInv.sub_runs (sp s2) (sp s) /\ priv s2 = priv s /\
        tlog s2 = tlog s ++ [TTake p order]).
Proof.
  unfold ttm_pool_acquire.
  destruct (ttm_pool_select_type config_x86 pool (tt_caching tt) order) as [t|] eqn:Ht.
  - destruct (SharedPool.drm_page_pool_remove pool_type_eq_dec t (sp s)) as [[p|] x'] eqn:Hr.
    + intros [= <- _ <-]. right; right.
      destruct (remove_some_spec _ _ _ _ Hr) as (b & Hb & Hid & Hp & Hn & Hl & Hs).
      exists p, b. cbn. split; [reflexivity|]. split; [exact Hb|].
      split; [rewrite Hid; exact (select_type_order _ _ _ _ Ht)|].
      split; [exact Hp|]. split; [exact Hn|]. split; [exact Hl|].
      split; [exact Hs|]. split; reflexivity.
    + apply remove_none_spec in Hr. subst x'.
      destruct (ttm_pool_alloc_page alloc_pages_env dma_alloc_env pool g order (set_sp s (sp s)))
        as [pp' s3] eqn:Ha.
      intros [= <- _ <-].
      destruct (alloc_page_spec _ _ _ _ _ _ Ha) as [H|H]; [left; exact H|right; left; exact H].
  - destruct (ttm_pool_alloc_page alloc_pages_env dma_alloc_env pool g order s)
      as [pp' s3] eqn:Ha.
    intros [= <- _ <-].
    destruct (alloc_page_spec _ _ _ _ _ _ Ha) as [H|H]; [left; exact H|right; left; exact H].
Qed.

Lemma acquire_some pool tt g order s p ac s2 :
  ttm_pool_acquire config_x86 PageHighMem alloc_pages_env dma_alloc_env pool tt g order s
    = (Some p, ac, s2) ->
  exists e, tlog s2 = tlog s ++ [e] /\ iters [e] = [] /\ acquired [e] = [(p, order)] /\
    frees [e] = [] /\
    (bucket_orders s -> bucket_orders s2 /\
     SharedPool.nr_managed_pages (sp s2) =
       (SharedPool.nr_managed_pages (sp s) - sum_run_pages (taken [e]))%Z /\
     forall D, NoDup (map fst (D ++ [(p, order)])) -> pooled_orders D s -> array_orders D s ->
       pooled_orders (D ++ [(p, order)]) s2 /\ array_orders (D ++ [(p, order)]) s2).
Proof.
  intros H. destruct (acquire_spec _ _ _ _ _ _ _ _ H)
    as [(Hp & _)|[(p' & Hp & Hsp & Hpp & Hoth & Hlog)|(p' & b & Hp & Hb & Hbo & Hpb & Hn & Hl & Hsub & Hpv & Hlog)]];
    [discriminate| |]; injection Hp as <-.
  - exists (TAlloc p order). split; [exact Hlog|]. split; [reflexivity|].
    split; [reflexivity|]. split; [reflexivity|]. intros BO.
    split; [unfold bucket_orders; rewrite Hsp; exact BO|].
    split; [rewrite Hsp; cbn; lia|].
    intros D Hnd HP HA. pose proof (not_in_fst_last _ _ _ Hnd) as Hni. split.
    + intros b q Hb Hq. rewrite Hsp in Hb.
      destruct (Nat.eq_dec q p) as [->|Hqp].
      * left. rewrite map_app, in_app_iff. right. left. reflexivity.
      * destruct (HP b q Hb Hq) as [Hin|Hpr].
        -- left. rewrite map_app, in_app_iff. left. exact Hin.
        -- right. rewrite Hoth by exact Hqp. exact Hpr.
    + intros q o Hin. apply in_app_or in Hin. destruct Hin as [Hin|[Hin|[]]].
      * assert (q <> p) as Hqp.
        { intros ->. apply Hni. apply (in_map fst) in Hin. exact Hin. }
        rewrite Hoth by exact Hqp. apply HA, Hin.
      * injection Hin as <- <-. exact Hpp.
  - exists (TTake p order). split; [exact Hlog|]. split; [reflexivity|].
    split; [reflexivity|]. split; [reflexivity|]. intros BO.
    assert (Hob : SharedPool.order b = order) by (rewrite (BO b Hb); exact Hbo).
    split.
    { intros b' Hb'. destruct (Hl b' Hb') as [Hold|[Hid Ho]]; [apply BO, Hold|].
      rewrite Ho, Hid. apply BO, Hb. }
    split; [rewrite Hn, Hob; cbn; lia|].
    intros D Hnd HP HA. pose proof (not_in_fst_last _ _ _ Hnd) as Hni. split.
    + intros b' q Hb' Hq. destruct (Hsub b' q Hb' Hq) as (b0 & Hb0 & Hq0 & Ho0).
      destruct (HP b0 q Hb0 Hq0) as [Hin|Hpr].
      * left. rewrite map_app, in_app_iff. left. exact Hin.
      * right. rewrite Hpv, Hpr. exact Ho0.
    + intros q o Hin. rewrite Hpv. apply in_app_or in Hin. destruct Hin as [Hin|[Hin|[]]].
      * apply HA, Hin.
      * injection Hin as <- <-. destruct (HP b p Hb Hpb) as [Hin|Hpr]; [contradiction|].
        rewrite Hpr. exact Hob.
Qed.

Lemma error_exit_spec pool c pages s0 :
  sp (error_free_all pool c pages s0) = sp s0 /\
  exists F, tlog (error_free_all pool c pages s0) = tlog s0 ++ map free_ev F /\
    forall D, pages = flat_map run_pages D -> array_orders D s0 -> F = D.
Proof.
  unfold error_free_all.
  destruct (free_all_shape (length pages) pool c pages s0) as (H1 & _ & F & H3).
  split; [exact H1|]. exists F. split; [exact H3|]. intros D -> HA.
  apply free_evs_inj. apply (app_inv_head (tlog s0)). rewrite <- H3.
  apply free_all_runs; [lia|exact HA].
Qed.

Lemma alloc_loop_spec fuel pool tt g num order cidx pages dmas s :
  num + order < fuel ->
  (0 < num -> 2 ^ order <= num /\ order <= MAX_ORDER - 1) ->
  exists r pages' dmas' s' ev,
    alloc_loop config_x86 PageHighMem alloc_pages_env dma_alloc_env set_pages_array_wc
      set_pages_array_uc dma_map_page dma_addr_of fuel pool tt g num order cidx pages dmas s
      = Some (r, pages', dmas', s') /\
    tlog s' = tlog s ++ ev /\
    ((num = 0 /\ iters ev = []) \/
     (0 < num /\ exists L, iters ev = (order, num) :: L /\ sched order num L = true /\
                          forallb iter_ok ((order, num) :: L) = true)) /\
    (r = 0%Z -> pages' = pages ++ flat_map run_pages (acquired ev) /\ frees ev = [] /\
                length pages' = length pages + num) /\
    (r <= 0)%Z /\
    (bucket_orders s ->
     SharedPool.nr_managed_pages (sp s') =
       (SharedPool.nr_managed_pages (sp s) - sum_run_pages (taken ev))%Z /\
     forall D, pages = flat_map run_pages D -> r <> 0%Z ->
       NoDup (map fst (D ++ acquired ev)) -> pooled_orders D s -> array_orders D s ->
       Permutation (frees ev) (D ++ acquired ev)).
Proof.
  revert num order cidx pages dmas s.
  induction fuel as [|f IH]; intros num order cidx pages dmas s Hf Hpre; [lia|].
  cbn [alloc_loop].
  destruct (Nat.eqb_spec num 0) as [->|Hn].
  - (* the loop is done: caching of the last segment *)
    cbv beta iota zeta.
    match goal with |- context [Z.eqb ?x 0] => remember x as rc eqn:Erc end.
    assert (Hrc : (rc <= 0)%Z) by (subst rc; apply apply_caching_nonpos).
    destruct (Z.eqb_spec rc 0) as [Hz|Hz].
    + exists 0%Z, pages, dmas, s, []. split; [reflexivity|].
      split; [rewrite app_nil_r; reflexivity|]. split; [left; split; reflexivity|].
      split; [intros _; rewrite app_nil_r, Nat.add_0_r; auto|]. split; [lia|].
      intros BO. split; [cbn; lia|]. intros D _ H0. exfalso. apply H0. reflexivity.
    + destruct (error_exit_spec pool (tt_caching tt) pages s) as (Hsp2 & F & HF & HFD).
      destruct (free_evs_views F) as (V1 & V2 & V3 & V4).
      exists rc, pages, dmas, (error_free_all pool (tt_caching tt) pages s), (map free_ev F).
      split; [reflexivity|]. split; [exact HF|]. split; [left; split; [reflexivity|exact V1]|].
      split; [intros H0; contradiction|]. split; [lia|].
      intros BO. split; [rewrite Hsp2, V3; cbn; lia|].
      intros D HD _ _ _ HA. rewrite V2, V4, app_nil_r, (HFD D HD HA). apply Permutation_refl.
  - cbv beta iota zeta.
    match goal with |- context [ttm_pool_acquire ?a ?b ?c ?d ?e ?f ?g ?h ?i] =>
      destruct (ttm_pool_acquire a b c d e f g h i) as [[pp ac] s2] eqn:Hacq end.
    destruct (Hpre ltac:(lia)) as [Hpw Hmx].
    pose proof (pow2_pos order) as Hpos.
    destruct pp as [p|].
    + (* a run was obtained *)
      destruct (acquire_some _ _ _ _ _ _ _ _ Hacq) as (e & Hlog & He1 & He2 & He3 & Hg1).
      cbn [add_ev tlog] in Hlog.
      assert (Herr : forall rc, (rc < 0)%Z ->
        exists r pages' dmas' s' ev,
          Some (rc, pages, dmas, error_free_all pool (tt_caching tt) pages
                  (ttm_pool_free_page pool (tt_caching tt) order p s2))
            = Some (r, pages', dmas', s') /\
          tlog s' = tlog s ++ ev /\
          ((num = 0 /\ iters ev = []) \/
           (0 < num /\ exists L, iters ev = (order, num) :: L /\ sched order num L = true /\
                                forallb iter_ok ((order, num) :: L) = true)) /\
          (r = 0%Z -> pages' = pages ++ flat_map run_pages (acquired ev) /\ frees ev = [] /\
                      length pages' = length pages + num) /\
          (r <= 0)%Z /\
          (bucket_orders s ->
           SharedPool.nr_managed_pages (sp s') =
             (SharedPool.nr_managed_pages (sp s) - sum_run_pages (taken ev))%Z /\
           forall D, pages = flat_map run_pages D -> r <> 0%Z ->
             NoDup (map fst (D ++ acquired ev)) -> pooled_orders D s -> array_orders D s ->
             Permutation (frees ev) (D ++ acquired ev))).
      { intros rc Hrc.
        destruct (error_exit_spec pool (tt_caching tt) pages
                    (ttm_pool_free_page pool (tt_caching tt) order p s2)) as (Hsp2 & F & HF & HFD).
        destruct (free_evs_views F) as (V1 & V2 & V3 & V4).
        exists rc, pages, dmas,
          (error_free_all pool (tt_caching tt) pages
             (ttm_pool_free_page pool (tt_caching tt) order p s2)),
          ([TIter order num] ++ [e] ++ [TFree p order] ++ map free_ev F).
        split; [reflexivity|].
        split; [rewrite HF; unfold ttm_pool_free_page, add_ev; cbn [tlog];
                rewrite Hlog, <- !app_assoc; reflexivity|].
        rewrite !iters_app, !acquired_app, !taken_app, !frees_app, He1, He2, He3, V1, V2, V3, V4.
        cbn [iters acquired taken frees app].
        split.
        { right. split; [lia|]. exists []. split; [reflexivity|]. split; [reflexivity|].
          cbn [forallb]. rewrite iter_ok_intro by lia. reflexivity. }
        split; [intros H0; exfalso; lia|]. split; [lia|].
        intros BO. destruct (Hg1 BO) as (BO2 & Hn2 & Hroll). cbn [add_ev sp] in Hn2. split.
        - rewrite Hsp2. unfold ttm_pool_free_page, add_ev. cbn [sp]. rewrite Hn2.
          rewrite !sum_run_pages_app. cbn [taken sum_run_pages]. lia.
        - intros D HD _ Hnd HP HA.
          destruct (Hroll D Hnd HP HA) as [_ HA2].
          rewrite (HFD D HD (array_orders_app_l _ _ _ HA2)).
          apply Permutation_cons_append. }
      match goal with |- context [if ac then ?x else 0%Z] =>
        remember (if ac then x else 0%Z) as r1 eqn:Er1 end.
      assert (Hr1 : (r1 <= 0)%Z) by (subst r1; destruct ac; [apply apply_caching_nonpos|lia]).
      destruct (Z.eqb_spec r1 0) as [Hz|Hz]; cbn [negb].
      2: { apply Herr. lia. }
      destruct (if has_dma_address tt then ttm_pool_map dma_map_page dma_addr_of pool order p
                else Some []) as [addrs|].
      2: { apply Herr. unfold EFAULT. lia. }
      destruct (IH (num - 2 ^ order) (Nat.min order (Nat.log2 (num - 2 ^ order)))
                  (if ac then length pages + 2 ^ order else cidx)
                  (pages ++ seq p (2 ^ order)) (dmas ++ addrs) s2)
        as (r & pages' & dmas' & s' & ev & Hrun & Hl & Hit & Hsc & Hle & Hg);
        [lia | intros Hn'; apply deposit_pre; lia |].
      exists r, pages', dmas', s', ([TIter order num] ++ [e] ++ ev).
      split; [exact Hrun|].
      split; [rewrite Hl, Hlog, <- !app_assoc; reflexivity|].
      rewrite !iters_app, !acquired_app, !taken_app, !frees_app, He1, He2, He3.
      cbn [iters acquired taken frees app].
      split.
      { right. split; [lia|].
        destruct Hit as [[Hn0 Hi0]|[Hnp (L & HL & Hs & Hok)]].
        - exists []. rewrite Hi0. split; [reflexivity|]. split; [reflexivity|].
          cbn [forallb]. rewrite iter_ok_intro by lia. reflexivity.
        - exists (iters ev). rewrite HL. split; [reflexivity|]. split.
          + cbn [sched]. rewrite Hs, andb_true_r. apply orb_true_intro. right.
            rewrite !andb_true_iff, Nat.ltb_lt, !Nat.eqb_eq. lia.
          + cbn [forallb]. rewrite iter_ok_intro by lia. exact Hok. }
      split.
      { intros H0. destruct (Hsc H0) as (Hp' & Hfr & Hlen). split; [|split; [exact Hfr|]].
        - rewrite Hp'. cbn [flat_map run_pages fst snd]. rewrite <- app_assoc. reflexivity.
        - rewrite Hlen, length_app, length_seq. lia. }
      split; [exact Hle|].
      intros BO. destruct (Hg1 BO) as (BO2 & Hn2 & Hroll). cbn [add_ev sp] in Hn2.
      destruct (Hg BO2) as [Hn' Hr']. split.
      * rewrite Hn', Hn2, !sum_run_pages_app. cbn [taken sum_run_pages]. lia.
      * intros D HD Hr Hnd HP HA.
        assert (Hnd' : NoDup (map fst ((D ++ [(p, order)]) ++ acquired ev)))
          by (rewrite <- app_assoc; exact Hnd).
        destruct (Hroll D) as [HP2 HA2];
          [rewrite map_app in Hnd'; exact (NoDup_app_remove_r _ _ Hnd') | exact HP | exact HA |].
        replace (D ++ (p, order) :: acquired ev) with ((D ++ [(p, order)]) ++ acquired ev)
          by (rewrite <- app_assoc; reflexivity).
        apply Hr'; [|exact Hr|exact Hnd'|exact HP2|exact HA2].
        rewrite HD, flat_map_app. cbn [flat_map run_pages fst snd]. rewrite app_nil_r.
        reflexivity.
    + (* neither the bucket nor the allocator gave a run *)
      destruct (acquire_spec _ _ _ _ _ _ _ _ Hacq)
        as [(_ & Hsp & Hpv & Hlog)|[(p' & Hp & _)|(p' & b & Hp & _)]];
        [|discriminate|discriminate].
      cbn [add_ev sp priv tlog] in Hsp, Hpv, Hlog.
      destruct (Nat.ltb_spec 0 order) as [Ho|Ho].
      * rewrite (fallback_order order num) by lia.
        destruct (IH num (order - 1) cidx pages dmas s2)
          as (r & pages' & dmas' & s' & ev & Hrun & Hl & Hit & Hsc & Hle & Hg);
          [lia | intros _; split; [|lia] |].
        { apply Nat.le_trans with (2 ^ order); [apply Nat.pow_le_mono_r; lia | exact Hpw]. }
        exists r, pages', dmas', s', ([TIter order num] ++ [TAllocFail order] ++ ev).
        split; [exact Hrun|].
        split; [rewrite Hl, Hlog, <- !app_assoc; reflexivity|].
        rewrite !iters_app, !acquired_app, !taken_app, !frees_app.
        cbn [iters acquired taken frees app].
        split.
        { right. split; [lia|].
          destruct Hit as [[Hn0 _]|[_ (L & HL & Hs & Hok)]]; [lia|].
          exists (iters ev). rewrite HL. split; [reflexivity|]. split.
          - cbn [sched]. rewrite Hs, andb_true_r. apply orb_true_intro. left.
            rewrite !andb_true_iff, Nat.ltb_lt, !Nat.eqb_eq. lia.
          - cbn [forallb]. rewrite iter_ok_intro by lia. exact Hok. }
        split; [exact Hsc|]. split; [exact Hle|].
        intros BO.
        assert (BO2 : bucket_orders s2) by (unfold bucket_orders; rewrite Hsp; exact BO).
        destruct (Hg BO2) as [Hn2 Hr2]. split; [rewrite Hn2, Hsp; reflexivity|].
        intros D HD Hr Hnd HP HA. apply Hr2; try assumption.
        -- unfold pooled_orders. rewrite Hsp, Hpv. exact HP.
        -- unfold array_orders. rewrite Hpv. exact HA.
      * destruct (error_exit_spec pool (tt_caching tt) pages s2) as (Hsp2 & F & HF & HFD).
        destruct (free_evs_views F) as (V1 & V2 & V3 & V4).
        exists (- ENOMEM)%Z, pages, dmas, (error_free_all pool (tt_caching tt) pages s2),
          ([TIter order num] ++ [TAllocFail order] ++ map free_ev F).
        split; [reflexivity|].
        split; [rewrite HF, Hlog, <- !app_assoc; reflexivity|].
        rewrite !iters_app, !acquired_app, !taken_app, !frees_app, V1, V2, V3, V4.
        cbn [iters acquired taken frees app].
        split.
        { right. split; [lia|]. exists []. split; [reflexivity|]. split; [reflexivity|].
          cbn [forallb]. rewrite iter_ok_intro by lia. reflexivity. }
        split; [intros H0; exfalso; unfold ENOMEM in H0; lia|].
        split; [unfold ENOMEM; lia|].
        intros BO. split; [rewrite Hsp2, Hsp; cbn; lia|].
        intros D HD _ _ _ HA. rewrite app_nil_r.
        rewrite (HFD D HD) by (unfold array_orders; rewrite Hpv; exact HA).
        apply Permutation_refl.
Qed.


Lemma ttm_pool_alloc_spec pool tt ctx s :
  exists r pages dmas s' ev,
    ttm_pool_alloc config_x86 PageHighMem alloc_pages_env dma_alloc_env set_pages_array_wc
      set_pages_array_uc dma_map_page dma_addr_of pool tt ctx s = Some (r, pages, dmas, s') /\
    tlog s' = tlog s ++ ev /\
    ((tt_num_pages tt = 0 /\ iters ev = []) \/
     (0 < tt_num_pages tt /\ exists L,
        iters ev = (Nat.min (MAX_ORDER - 1) (Nat.log2 (tt_num_pages tt)), tt_num_pages tt) :: L /\
        sched (Nat.min (MAX_ORDER - 1) (Nat.log2 (tt_num_pages tt))) (tt_num_pages tt) L = true /\
        forallb iter_ok
          ((Nat.min (MAX_ORDER - 1) (Nat.log2 (tt_num_pages tt)), tt_num_pages tt) :: L) = true)) /\
    (r = 0%Z -> pages = flat_map run_pages (acquired ev) /\ frees ev = [] /\
                length pages = tt_num_pages tt) /\
    (r <= 0)%Z /\
    (bucket_orders s ->
     SharedPool.nr_managed_pages (sp s') =
       (SharedPool.nr_managed_pages (sp s) - sum_run_pages (taken ev))%Z /\
     (r <> 0%Z -> NoDup (map fst (acquired ev)) -> pooled_orders [] s ->
      Permutation (frees ev) (acquired ev))).
Proof.
  unfold ttm_pool_alloc.
  destruct (alloc_loop_spec (S (tt_num_pages tt + MAX_ORDER)) pool tt (ttm_pool_gfp pool tt ctx)
              (tt_num_pages tt) (Nat.min (MAX_ORDER - 1) (Nat.log2 (tt_num_pages tt))) 0 [] [] s)
    as (r & pages & dmas & s' & ev & Hrun & Hl & Hit & Hsc & Hle & Hg);
    [unfold MAX_ORDER; lia | intros Hn; apply init_pre, Hn |].
  exists r, pages, dmas, s', ev. split; [exact Hrun|]. split; [exact Hl|].
  split; [exact Hit|]. split; [exact Hsc|]. split; [exact Hle|].
  intros BO. destruct (Hg BO) as [Hn Hr]. split; [exact Hn|].
  intros Hr0 Hnd HP. apply (Hr [] eq_refl Hr0 Hnd HP). intros p o [].
Qed.

End Loop.
End TtmFacts.

(* ================================================================== *)
(** * Helper lemmas for the pool operations *)
Module PoolLemmas.
Local Open Scope Z_scope.

Lemma dmabuf_scan_props nr s n s' :
  0 < nr -> DmaBufPool.drm_page_pool_shrink_scan nr s = Some (n, s') ->
  (nr < n \/ DmaBufPool.total_pages s' = 0) /\
  n = DmaBufPool.total_pages s - DmaBufPool.total_pages s'.
Proof.
  intros Hnr. unfold DmaBufPool.drm_page_pool_shrink_scan.
  destruct (nr =? 0) eqn:E; [apply Z.eqb_eq in E; lia|].
  intros H. destruct (DmaBufFacts.shrink_scan_loop_props _ _ _ _ _ _ H) as (H1 & H2 & _).
  split; lia.
Qed.

Lemma dmabuf_scan_empty nr s :
  DmaBufPool.pool_list s <> [] ->
  Forall (fun b => DmaBufPool.count b = 0) (DmaBufPool.pool_list s) ->
  DmaBufPool.total_pages s = 0 -> 0 < nr ->
  exists s', DmaBufPool.drm_page_pool_shrink_scan nr s = Some (0, s') /\
             DmaBufPool.total_pages s' = 0.
Proof.
  intros Hne Hc Ht Hnr. unfold DmaBufPool.drm_page_pool_shrink_scan.
  destruct (nr =? 0) eqn:E; [apply Z.eqb_eq in E; lia|].
  replace (DmaBufPool.scan_fuel nr s) with (S (pred (DmaBufPool.scan_fuel nr s)))
    by (unfold DmaBufPool.scan_fuel; lia).
  cbn [DmaBufPool.shrink_scan_loop].
  unfold DmaBufPool.drm_page_pool_shrink_one.
  destruct (DmaBufPool.pool_list s) as [|pool rest]; [contradiction|].
  inversion Hc as [|? ? Hp _]; subst.
  unfold DmaBufPool.drm_page_pool_remove. rewrite Hp. cbn. rewrite Ht. cbn.
  rewrite andb_false_r. eexists. split; [reflexivity|]. reflexivity.
Qed.

Lemma shared_scan_empty {K} (s : SharedPool.state K) nr :
  SharedPool.shrinker_list s <> [] ->
  Forall (fun b => SharedPool.pages b = []) (SharedPool.shrinker_list s) ->
  SharedPool.nr_managed_pages s = 0 ->
  exists s', SharedPool.drm_page_pool_shrinker_scan nr s = Some (0, s') /\
             SharedPool.nr_managed_pages s' = 0.
Proof.
  intros Hne Hp Hn. unfold SharedPool.drm_page_pool_shrinker_scan.
  cbn [SharedPool.shrinker_scan_loop]. unfold SharedPool.drm_page_pool_shrink.
  destruct (SharedPool.shrinker_list s) as [|pool rest]; [contradiction|].
  inversion Hp as [|? ? Hp0 _]; subst.
  unfold SharedPool.take_first. rewrite Hp0. cbn. rewrite Hn. cbn.
  eexists. split; [reflexivity|]. reflexivity.
Qed.

Lemma trim_loop_noop {K} f (s : SharedPool.state K) :
  SharedPool.page_pool_size s = 0 \/
  SharedPool.nr_managed_pages s <= SharedPool.page_pool_size s ->
  SharedPool.trim_loop (S f) s = Some s.
Proof.
  intros H. cbn [SharedPool.trim_loop].
  destruct (negb (SharedPool.page_pool_size s =? 0) &&
            (SharedPool.page_pool_size s <? SharedPool.nr_managed_pages s)) eqn:C;
    [|reflexivity].
  exfalso. apply andb_true_iff in C. destruct C as [C1 C2].
  apply negb_true_iff, Z.eqb_neq in C1. apply Z.ltb_lt in C2. lia.
Qed.

Lemma dmabuf_find_replace id l b b' :
  DmaBufPool.find_pool id l = Some b -> DmaBufPool.dp_id b' = id ->
  DmaBufPool.find_pool id (DmaBufPool.replace_pool b' l) = Some b'.
Proof. apply DmaBufFacts.find_replace. Qed.

Lemma shared_remove_props {K} K_eq_dec id (s : SharedPool.state K) p s' :
  SharedPool.drm_page_pool_remove K_eq_dec id s = (Some p, s') ->
  exists b, SharedPool.find_pool K_eq_dec id (SharedPool.shrinker_list s) = Some b /\
            In b (SharedPool.shrinker_list s) /\ In p (SharedPool.pages b) /\
            SharedPool.mem s' = SharedPool.mem s.
Proof.
  unfold SharedPool.drm_page_pool_remove.
  destruct (SharedPool.find_pool K_eq_dec id (SharedPool.shrinker_list s)) as [pool|] eqn:F;
    [|discriminate].
  destruct (SharedPool.take_first pool) as [[q pool']|] eqn:T; [|discriminate].
  intros [= -> <-]. exists pool.
  destruct (SharedFacts.shared_find_pool_some _ _ _ _ _ F) as [Hin _].
  destruct (SharedFacts.take_first_spec _ _ _ _ T) as (Hp & _).
  split; [reflexivity|]. split; [exact Hin|]. split; [rewrite Hp; left; reflexivity|].
  reflexivity.
Qed.

End PoolLemmas.

(* ================================================================== *)
(** * The bucket and registry claims *)
Module PoolClaims.
Import Scenarios.
Local Open Scope Z_scope.

Lemma sp_s2_reachable : SharedPool.reachable Nat.eq_dec nohigh sp_s2.
Proof.
  apply SharedPool.reach_step with (s := sp_s1).
  - apply SharedPool.reach_step with (s := sp_s0).
    + unfold sp_s0. apply SharedPool.reach_init. lia.
    + apply SharedPool.step_init.
  - eapply SharedPool.step_add with (id := 0%nat) (p := 8%nat). reflexivity.
Qed.

Lemma db_s1_reachable : DmaBufPool.reachable db_s1.
Proof.
  unfold db_s1. repeat (eapply DmaBufPool.reach_step; [|constructor]).
  apply DmaBufPool.reach_init.
Qed.

(** C2, as stated, fails: in the shared-pool variant the bucket's
    page_count counts base pages, not runs.  After one order-1 run is
    drained into a fresh order-1 bucket, page_count is 2 for one run. *)
Lemma bucket_count_is_run_count_cex :
  ~ (forall s, SharedPool.reachable Nat.eq_dec nohigh s ->
       Forall (fun b => SharedPool.page_count b = Z.of_nat (length (SharedPool.pages b)))
         (SharedPool.shrinker_list s)).
Proof.
  intros H. specialize (H _ sp_s2_reachable).
  assert (E : SharedPool.shrinker_list sp_s2 =
              [{| SharedPool.sp_id := 0%nat; SharedPool.order := 1%nat;
                  SharedPool.pages := [8%nat]; SharedPool.page_count := 2 |}])
    by reflexivity.
  rewrite E in H. apply Forall_inv in H. cbn in H. discriminate.
Qed.

(** C2 (amended): in every reachable state of the DMA-BUF pool, each
    bucket's count equals the number of runs linked in it and
    total_pages equals the sum over the registered buckets of
    count * 2^order; in every reachable state of the shared pool, each
    bucket's page_count equals (number of runs) * 2^order and
    nr_managed_pages equals the sum of the page_count fields, i.e. the sum
    over the registered buckets of (number of runs) * 2^order. *)
Theorem bucket_counters_consistent :
  (forall s, DmaBufPool.reachable s ->
     Forall (fun b => DmaBufPool.count b = Z.of_nat (length (DmaBufPool.items b)))
       (DmaBufPool.pool_list s) /\
     DmaBufPool.total_pages s = DmaBufPool.sum_pages (DmaBufPool.pool_list s)) /\
  (forall K K_eq_dec PageHighMem (s : SharedPool.state K),
     SharedPool.reachable K_eq_dec PageHighMem s ->
     Forall (fun b => SharedPool.page_count b =
                      Z.of_nat (length (SharedPool.pages b)) * pages_of (SharedPool.order b))
       (SharedPool.shrinker_list s) /\
     SharedPool.nr_managed_pages s = SharedPool.sum_page_count (SharedPool.shrinker_list s)).
Proof.
  split.
  - intros s Hs. exact (DmaBufFacts.reachable_inv s Hs).
  - intros K K_eq_dec PageHighMem s Hs.
    exact (proj1 (SharedFacts.reachable_invs K K_eq_dec PageHighMem s Hs)).
Qed.

Lemma bucket_counters_consistent_witness :
  (Forall (fun b => DmaBufPool.count b = Z.of_nat (length (DmaBufPool.items b)))
     (DmaBufPool.pool_list db_s1) /\
   DmaBufPool.total_pages db_s1 = DmaBufPool.sum_pages (DmaBufPool.pool_list db_s1)) /\
  (Forall (fun b => SharedPool.page_count b =
                    Z.of_nat (length (SharedPool.pages b)) * pages_of (SharedPool.order b))
     (SharedPool.shrinker_list sp_s2) /\
   SharedPool.nr_managed_pages sp_s2 = SharedPool.sum_page_count (SharedPool.shrinker_list sp_s2)).
Proof.
  split.
  - apply (proj1 bucket_counters_consistent). exact db_s1_reachable.
  - apply (proj2 bucket_counters_consistent nat Nat.eq_dec nohigh).
    exact sp_s2_reachable.
Defined.

(** C4, as stated, fails: the shared-pool scan stops after the first
    call that frees a run, whatever nr_to_scan asks for.  With four
    order-0 runs pooled, scan(6) frees one page and the counter stays 3. *)
Lemma scan_satisfies_nr_to_scan_cex :
  ~ (forall (s : SharedPool.state nat) nr n s', 0 < nr ->
       SharedPool.drm_page_pool_shrinker_scan nr s = Some (n, s') ->
       nr <= n \/ SharedPool.nr_managed_pages s' = 0).
Proof.
  intros H. destruct (H sp_four 6 1 sp_four_scanned) as [H1|H1].
  - lia.
  - reflexivity.
  - lia.
  - vm_compute in H1. discriminate.
Qed.

(** C4 (amended): the shared-pool scan returns the decrease of
    nr_managed_pages, stops as soon as something was freed or the counter
    is 0, and frees at most one run (nr_to_scan is not read); the DMA-BUF
    pool scan with nr_to_scan > 0 returns the decrease of total_pages and
    stops only once the freed total exceeds nr_to_scan or total_pages is
    0.  On an empty pool (buckets registered, none holding a run, counter
    0) both scans return 0 and leave the counter at 0. *)
Theorem scan_stops_and_reports_freed :
  (forall K (s : SharedPool.state K) nr n s',
     SharedPool.drm_page_pool_shrinker_scan nr s = Some (n, s') ->
     n = SharedPool.nr_managed_pages s - SharedPool.nr_managed_pages s' /\
     (n <> 0 \/ SharedPool.nr_managed_pages s' = 0) /\
     (n = 0 \/ exists o, n = pages_of o)) /\
  (forall nr s n s', 0 < nr ->
     DmaBufPool.drm_page_pool_shrink_scan nr s = Some (n, s') ->
     (nr < n \/ DmaBufPool.total_pages s' = 0) /\
     n = DmaBufPool.total_pages s - DmaBufPool.total_pages s') /\
  (forall K (s : SharedPool.state K) nr,
     SharedPool.shrinker_list s <> [] ->
     Forall (fun b => SharedPool.pages b = []) (SharedPool.shrinker_list s) ->
     SharedPool.nr_managed_pages s = 0 ->
     exists s', SharedPool.drm_page_pool_shrinker_scan nr s = Some (0, s') /\
                SharedPool.nr_managed_pages s' = 0) /\
  (forall nr s,
     DmaBufPool.pool_list s <> [] ->
     Forall (fun b => DmaBufPool.count b = 0) (DmaBufPool.pool_list s) ->
     DmaBufPool.total_pages s = 0 -> 0 < nr ->
     exists s', DmaBufPool.drm_page_pool_shrink_scan nr s = Some (0, s') /\
                DmaBufPool.total_pages s' = 0).
Proof.
  split; [|split; [|split]].
  - intros K s nr n s' H. unfold SharedPool.drm_page_pool_shrinker_scan in H.
    destruct (SharedFacts.shrinker_scan_loop_props _ _ _ _ _ _ H) as (H1 & H2 & H3 & _).
    split; [lia|]. split; [exact H2|]. apply H3. reflexivity.
  - exact PoolLemmas.dmabuf_scan_props.
  - intros K s nr. exact (PoolLemmas.shared_scan_empty s nr).
  - exact PoolLemmas.dmabuf_scan_empty.
Qed.

Lemma scan_stops_and_reports_freed_witness :
  (exists n s', SharedPool.drm_page_pool_shrinker_scan 6 sp_four = Some (n, s') /\
     n = SharedPool.nr_managed_pages sp_four - SharedPool.nr_managed_pages s' /\
     (n <> 0 \/ SharedPool.nr_managed_pages s' = 0) /\
     (n = 0 \/ exists o, n = pages_of o)) /\
  (exists n s', DmaBufPool.drm_page_pool_shrink_scan 1 db_one = Some (n, s') /\
     (1 < n \/ DmaBufPool.total_pages s' = 0) /\
     n = DmaBufPool.total_pages db_one - DmaBufPool.total_pages s') /\
  (exists s', SharedPool.drm_page_pool_shrinker_scan 6 sp_s1 = Some (0, s') /\
     SharedPool.nr_managed_pages s' = 0) /\
  (exists s', DmaBufPool.drm_page_pool_shrink_scan 6
                (DmaBufPool.drm_page_pool_create 0 0 DmaBufPool.empty_state) = Some (0, s') /\
     DmaBufPool.total_pages s' = 0).
Proof.
  split; [|split; [|split]].
  - do 2 eexists. split; [reflexivity|].
    eapply (proj1 scan_stops_and_reports_freed nat sp_four 6). reflexivity.
  - do 2 eexists. split; [reflexivity|].
    apply (proj1 (proj2 scan_stops_and_reports_freed)); [lia | reflexivity].
  - apply (proj1 (proj2 (proj2 scan_stops_and_reports_freed)) nat sp_s1 6).
    + discriminate.
    + repeat constructor.
    + reflexivity.
  - apply (proj2 (proj2 (proj2 scan_stops_and_reports_freed))).
    + discriminate.
    + repeat constructor.
    + reflexivity.
    + lia.
Defined.

(** C6, as stated, fails: the shared-pool reclaim_one calls the bucket's
    free callback with shrinker_lock (the registry mutex) held. *)
Lemma reclaim_one_callback_unlocked_cex :
  ~ (forall (s : SharedPool.state nat) n s',
       SharedPool.drm_page_pool_shrink s = Some (n, s') ->
       Forall (fun held => held = false)
         (callback_mutex_states false
            (skipn (length (SharedPool.log s)) (SharedPool.log s')))).
Proof.
  intros H.
  specialize (H sp_four 1 (SharedPool.with_list sp_four
     [{| SharedPool.sp_id := 0%nat; SharedPool.order := 0%nat;
         SharedPool.pages := [2; 3; 4]%nat; SharedPool.page_count := 3 |}] 3
     [MutexLock; SpinLock; SpinUnlock; FreeCallback 1; MoveTail; MutexUnlock]) eq_refl).
  vm_compute in H. apply Forall_inv in H. discriminate.
Qed.

(** C6 (amended): one reclaim_one call of either variant appends to the
    lock trace exactly: registry mutex taken, bucket spinlock taken and
    released, the free callback on the removed run (absent when the head
    bucket is empty), the head bucket moved to the tail, registry mutex
    released.  So the callback runs with the registry mutex held and the
    bucket spinlock released, and the mutex is released once, at the end. *)
Theorem reclaim_one_lock_trace :
  (forall K (s : SharedPool.state K) n s',
     SharedPool.drm_page_pool_shrink s = Some (n, s') ->
     exists ev, SharedPool.log s' = SharedPool.log s ++ ev /\
       (ev = [MutexLock; SpinLock; SpinUnlock; MoveTail; MutexUnlock] \/
        exists p, ev = [MutexLock; SpinLock; SpinUnlock; FreeCallback p; MoveTail;
                        MutexUnlock])) /\
  (forall s n s',
     DmaBufPool.drm_page_pool_shrink_one s = Some (n, s') ->
     exists ev, DmaBufPool.log s' = DmaBufPool.log s ++ ev /\
       (ev = [MutexLock; SpinLock; SpinUnlock; MoveTail; MutexUnlock] \/
        exists p, ev = [MutexLock; SpinLock; SpinUnlock; FreeCallback p; MoveTail;
                        MutexUnlock])).
Proof.
  split.
  - intros K s n s'. unfold SharedPool.drm_page_pool_shrink.
    destruct (SharedPool.shrinker_list s) as [|pool rest]; [discriminate|].
    destruct (SharedPool.take_first pool) as [[p pool']|];
      intros [= _ <-]; eexists; (split; [reflexivity|]); eauto.
  - intros s n s'. unfold DmaBufPool.drm_page_pool_shrink_one.
    destruct (DmaBufPool.pool_list s) as [|pool rest]; [discriminate|].
    destruct (DmaBufPool.drm_page_pool_remove pool) as [[p pool']|];
      intros [= _ <-]; eexists; (split; [reflexivity|]); eauto.
Qed.

Lemma reclaim_one_lock_trace_witness :
  (exists n s', SharedPool.drm_page_pool_shrink sp_four = Some (n, s') /\
     exists ev, SharedPool.log s' = SharedPool.log sp_four ++ ev /\
       (ev = [MutexLock; SpinLock; SpinUnlock; MoveTail; MutexUnlock] \/
        exists p, ev = [MutexLock; SpinLock; SpinUnlock; FreeCallback p; MoveTail;
                        MutexUnlock])) /\
  (exists n s', DmaBufPool.drm_page_pool_shrink_one db_one = Some (n, s') /\
     exists ev, DmaBufPool.log s' = DmaBufPool.log db_one ++ ev /\
       (ev = [MutexLock; SpinLock; SpinUnlock; MoveTail; MutexUnlock] \/
        exists p, ev = [MutexLock; SpinLock; SpinUnlock; FreeCallback p; MoveTail;
                        MutexUnlock])).
Proof.
  split; do 2 eexists; (split; [reflexivity|]).
  - eapply (proj1 reclaim_one_lock_trace). reflexivity.
  - eapply (proj2 reclaim_one_lock_trace). reflexivity.
Defined.

(** C9, as stated, fails: the DMA-BUF pool queues runs at the tail and
    takes them from the head, so on a non-empty bucket remove() returns
    the oldest run, not the one just added. *)
Lemma add_then_remove_returns_run_cex :
  ~ (forall s id r, DmaBufPool.find_pool id (DmaBufPool.pool_list s) <> None ->
       fst (DmaBufPool.drm_page_pool_fetch id (DmaBufPool.drm_page_pool_add id r s))
       = Some r).
Proof.
  intros H. specialize (H db_one 0%nat 2%nat ltac:(discriminate)).
  vm_compute in H. discriminate.
Qed.

(** C9 (amended): in the shared-pool variant, add(r) followed by remove()
    on the same bucket returns r whenever add's trimming loop does not run
    (page_pool_size is 0, or the counter after adding r is within it); in
    the DMA-BUF variant, add(r) followed by remove() returns r if the
    bucket was empty and otherwise the oldest run of the bucket. *)
Theorem add_then_remove :
  (forall K K_eq_dec PageHighMem (s : SharedPool.state K) id b r,
     SharedPool.find_pool K_eq_dec id (SharedPool.shrinker_list s) = Some b ->
     SharedPool.page_pool_size s = 0 \/
     SharedPool.nr_managed_pages s + pages_of (SharedPool.order b)
       <= SharedPool.page_pool_size s ->
     exists s1, SharedPool.drm_page_pool_add K_eq_dec PageHighMem id r s = Some s1 /\
                fst (SharedPool.drm_page_pool_remove K_eq_dec id s1) = Some r) /\
  (forall s id b r,
     DmaBufPool.find_pool id (DmaBufPool.pool_list s) = Some b ->
     DmaBufPool.count b = Z.of_nat (length (DmaBufPool.items b)) ->
     fst (DmaBufPool.drm_page_pool_fetch id (DmaBufPool.drm_page_pool_add id r s))
     = Some (hd r (DmaBufPool.items b))).
Proof.
  split.
  - intros K K_eq_dec PageHighMem s id b r F Hsz.
    destruct (SharedFacts.shared_find_pool_some _ _ _ _ _ F) as [_ Hid].
    unfold SharedPool.drm_page_pool_add.
    destruct (SharedPool.trim_fuel (SharedPool.add_run K_eq_dec PageHighMem id r s))
      as [|f] eqn:TF; [unfold SharedPool.trim_fuel in TF; lia|].
    rewrite PoolLemmas.trim_loop_noop
      by (unfold SharedPool.add_run; rewrite F; cbn; lia).
    eexists. split; [reflexivity|].
    unfold SharedPool.drm_page_pool_remove, SharedPool.add_run. rewrite F. cbn.
    rewrite (SharedFacts.shared_find_replace _ _ _ _ _ _ F) by reflexivity.
    reflexivity.
  - intros s id b r F Hc. unfold DmaBufPool.drm_page_pool_add. rewrite F.
    unfold DmaBufPool.drm_page_pool_fetch. cbn [DmaBufPool.pool_list].
    rewrite (PoolLemmas.dmabuf_find_replace _ _ _ _ F) by reflexivity.
    unfold DmaBufPool.drm_page_pool_remove. cbn.
    destruct (DmaBufPool.count b + 1 =? 0) eqn:E; [apply Z.eqb_eq in E; lia|].
    destruct (DmaBufPool.items b); reflexivity.
Qed.

Lemma add_then_remove_witness :
  (exists s1, SharedPool.drm_page_pool_add Nat.eq_dec nohigh 0%nat 20%nat sp_s2 = Some s1 /\
     fst (SharedPool.drm_page_pool_remove Nat.eq_dec 0%nat s1) = Some 20%nat) /\
  fst (DmaBufPool.drm_page_pool_fetch 0 (DmaBufPool.drm_page_pool_add 0 7 db_one))
  = Some (hd 7%nat [1%nat]).
Proof.
  split.
  - apply (proj1 add_then_remove nat Nat.eq_dec nohigh sp_s2 0%nat
             {| SharedPool.sp_id := 0%nat; SharedPool.order := 1%nat;
                SharedPool.pages := [8%nat]; SharedPool.page_count := 2 |}).
    + reflexivity.
    + left. reflexivity.
  - apply (proj2 add_then_remove db_one 0%nat
             {| DmaBufPool.dp_id := 0%nat; DmaBufPool.count := 1;
                DmaBufPool.items := [1%nat]; DmaBufPool.order := 0%nat |}).
    + reflexivity.
    + reflexivity.
Defined.

(** C10: in every reachable state of the shared pool (memory arbitrary at
    module load, callers writing freely to pages they own), the run
    returned by drm_page_pool_remove has all 2^order base pages reading
    as zero, because drm_page_pool_add clears each of them before linking
    the run. *)
Theorem removed_run_is_zeroed :
  forall K K_eq_dec PageHighMem (s : SharedPool.state K) id p s',
    SharedPool.reachable K_eq_dec PageHighMem s ->
    SharedPool.drm_page_pool_remove K_eq_dec id s = (Some p, s') ->
    exists b, SharedPool.find_pool K_eq_dec id (SharedPool.shrinker_list s) = Some b /\
      forall i, (i < 2 ^ SharedPool.order b)%nat -> SharedPool.mem s' (p + i) = 0.
Proof.
  intros K K_eq_dec PageHighMem s id p s' Hr Hrm.
  destruct (SharedFacts.reachable_invs _ _ _ _ Hr) as [_ Hz].
  destruct (PoolLemmas.shared_remove_props _ _ _ _ _ Hrm) as (b & F & Hin & Hp & Hm).
  exists b. split; [exact F|]. intros i Hi. rewrite Hm. exact (Hz b p i Hin Hp Hi).
Qed.

Lemma removed_run_is_zeroed_witness :
  exists b, SharedPool.find_pool Nat.eq_dec 0%nat (SharedPool.shrinker_list sp_s2) = Some b /\
    forall i, (i < 2 ^ SharedPool.order b)%nat ->
    SharedPool.mem (snd (SharedPool.drm_page_pool_remove Nat.eq_dec 0%nat sp_s2)) (8 + i) = 0.
Proof.
  apply (removed_run_is_zeroed nat Nat.eq_dec nohigh sp_s2 0%nat 8%nat).
  - exact sp_s2_reachable.
  - reflexivity.
Defined.

End PoolClaims.

(* ================================================================== *)
(** * Claims on the TTM free path and the dynamic pool *)
Module DriverClaims.
Import Scenarios.
Local Open Scope Z_scope.


(** C7 (code_bug): with high-memory pages allowed, no dirty low page and
    a dirty high page present, dynamic_page_pool_do_shrink takes its page
    from POOL_HIGHPAGE (the clean high list) instead of POOL_HIGHDEFERRED:
    one pass frees the clean high page 2 while the dirty page 1 stays
    pooled; when the clean high list is empty the removal returns NULL,
    which is then passed to __free_pages. *)
Theorem do_shrink_takes_clean_high_page :
  match Dynamic.dynamic_page_pool_do_shrink dyn_c7 true false 1 with
  | Some (n, pool') =>
      n = 1 /\ Dynamic.freed pool' = [2%nat] /\
      Dynamic.items pool' Dynamic.POOL_HIGHDEFERRED = [1%nat]
  | None => False
  end /\
  Dynamic.dynamic_page_pool_do_shrink dyn_c7_nohigh true false 1 = None.
Proof. vm_compute. repeat split. Qed.

(** C8 (code_bug): dynamic_page_pool_zero_and_add maps one struct page
    per run with vmap(pages, num) and clears PAGE_SIZE * num bytes, so of a
    run of order 1 only the first base page is zeroed before the run is
    linked on the clean list: after dynamic_page_pool_clean (vmap
    succeeding, p starting at 0), run 5 is on POOL_HIGHPAGE with base page 5
    reading 0 and base page 6 still reading 1.  And the batch index p of
    dynamic_page_pool_clean_pages is never initialised: from any other
    starting value, cleaning a single dirty page is undefined. *)
Theorem clean_zeroes_first_base_page_only :
  match Dynamic.dynamic_page_pool_clean allhigh vmap_works 0 dyn_dirty_high1 with
  | Some pool' =>
      Dynamic.items pool' Dynamic.POOL_HIGHPAGE = [5%nat] /\
      Dynamic.items pool' Dynamic.POOL_HIGHDEFERRED = [] /\
      Dynamic.mem pool' 5 = 0 /\ Dynamic.mem pool' 6 = 1
  | None => False
  end /\
  forall p, p <> 0 ->
    Dynamic.dynamic_page_pool_clean allhigh vmap_works p dyn_dirty_high = None.
Proof.
  split; [vm_compute; repeat split|].
  intros p Hp.
  assert (L : Dynamic.dynamic_page_pool_clean_pages allhigh vmap_works p dyn_dirty_high
                Dynamic.POOL_HIGHDEFERRED = None).
  { unfold Dynamic.dynamic_page_pool_clean_pages.
    change (Z.to_nat (Dynamic.count dyn_dirty_high Dynamic.POOL_HIGHDEFERRED)) with 1%nat.
    cbn [Dynamic.clean_pages_loop].
    change (Dynamic.count dyn_dirty_high Dynamic.POOL_HIGHDEFERRED =? 0) with false.
    cbn iota.
    destruct (Dynamic.dynamic_page_pool_remove dyn_dirty_high Dynamic.POOL_HIGHDEFERRED)
      as [o pool1] eqn:Rm.
    vm_compute in Rm. injection Rm as <- <-. cbn iota.
    destruct ((0 <=? p) && (p <? 32)) eqn:R; [|reflexivity].
    apply andb_true_iff in R. destruct R as [R1 R2].
    apply Z.leb_le in R1. apply Z.ltb_lt in R2.
    destruct (p + 1 =? 32) eqn:E.
    - unfold Dynamic.zero_and_add_array.
      rewrite DynamicFacts.array_prefix_unwritten; [reflexivity| |lia].
      unfold Dynamic.array_set.
      destruct (0 =? p) eqn:E0; [apply Z.eqb_eq in E0; lia|reflexivity].
    - cbn [Dynamic.count Dynamic.set_index Dynamic.index_eqb].
      replace (p + 1 =? 0) with false by (symmetry; apply Z.eqb_neq; lia).
      unfold Dynamic.zero_and_add_array.
      rewrite DynamicFacts.array_prefix_unwritten; [reflexivity| |lia].
      unfold Dynamic.array_set.
      destruct (0 =? p) eqn:E0; [apply Z.eqb_eq in E0; lia|reflexivity]. }
  unfold Dynamic.dynamic_page_pool_clean. cbn [Dynamic.clean_passes].
  unfold Dynamic.clean_pass.
  change (Dynamic.count dyn_dirty_high Dynamic.POOL_HIGHDEFERRED =? 0) with false.
  cbn [negb]. rewrite L. reflexivity.
Qed.

End DriverClaims.

(* ================================================================== *)
(** * Claims about ttm_pool_alloc *)
Module TtmClaims.
Import Scenarios.

(** C3, as stated, fails: the order is not recomputed from
    min(MAX_ORDER-1, log2 remaining) when a new remaining count is
    reached.  Nine pages, empty pools, an allocator refusing every order
    above 0: the iterations are (3,9) (2,9) (1,9) (0,9) (0,8) ... (0,1);
    the first iteration with 8 pages left asks for order 0, not
    min(10, log2 8) = 3. *)
Lemma order_restarts_each_iteration_cex :
  ~ (forall config_x86 PageHighMem alloc_pages_env dma_alloc_env set_pages_array_wc
       set_pages_array_uc dma_map_page dma_addr_of pool tt ctx s r pages dmas s',
       Ttm.ttm_pool_alloc config_x86 PageHighMem alloc_pages_env dma_alloc_env
         set_pages_array_wc set_pages_array_uc dma_map_page dma_addr_of pool tt ctx s
         = Some (r, pages, dmas, s') ->
       forall i o n o' n',
         nth_error (Ttm.iters (Ttm.tlog s')) i = Some (o, n) ->
         nth_error (Ttm.iters (Ttm.tlog s')) (S i) = Some (o', n') ->
         n' <> n -> o' = Nat.min (Ttm.MAX_ORDER - 1) (Nat.log2 n')).
Proof.
  intros H.
  destruct (Ttm.ttm_pool_alloc true nohigh alloc_order0_only alloc_never set_ok set_ok
              map_none addr0 non_dma_pool (wc_tt 9) ctx0 ttm_empty)
    as [[[[r pages] dmas] s']|] eqn:E; [|vm_compute in E; discriminate].
  assert (Hl : Ttm.iters (Ttm.tlog s') =
               [(3, 9); (2, 9); (1, 9); (0, 9); (0, 8); (0, 7); (0, 6); (0, 5);
                (0, 4); (0, 3); (0, 2); (0, 1)]).
  { vm_compute in E. injection E as _ _ _ <-. reflexivity. }
  specialize (H _ _ _ _ _ _ _ _ _ _ _ _ _ _ _ _ E 3 0 9 0 8).
  rewrite Hl in H.
  pose proof (H eq_refl eq_refl ltac:(discriminate)) as H0.
  vm_compute in H0. discriminate H0.
Qed.

(** C3 (amended): for every environment and every request of N >= 1
    pages, ttm_pool_alloc returns, and its iterations (order, remaining)
    start with (min(MAX_ORDER-1, log2 N), N); each iteration has
    remaining > 0, 2^order <= remaining and order <= MAX_ORDER-1; after a
    failure at order o > 0 the next iteration retries the same count at
    o - 1, and after a run of order o is stored the next one asks for
    remaining - 2^o pages at min(o, log2 (remaining - 2^o)).  The order
    therefore never goes back up after a fallback. *)
Theorem ttm_pool_alloc_order_schedule config_x86 PageHighMem alloc_pages_env dma_alloc_env
    set_pages_array_wc set_pages_array_uc dma_map_page dma_addr_of pool tt ctx s :
  0 < Ttm.tt_num_pages tt ->
  exists r pages dmas s' L,
    Ttm.ttm_pool_alloc config_x86 PageHighMem alloc_pages_env dma_alloc_env set_pages_array_wc
      set_pages_array_uc dma_map_page dma_addr_of pool tt ctx s = Some (r, pages, dmas, s') /\
    Ttm.iters (Ttm.tlog s') =
      Ttm.iters (Ttm.tlog s) ++
      (Nat.min (Ttm.MAX_ORDER - 1) (Nat.log2 (Ttm.tt_num_pages tt)), Ttm.tt_num_pages tt) :: L /\
    Ttm.sched (Nat.min (Ttm.MAX_ORDER - 1) (Nat.log2 (Ttm.tt_num_pages tt)))
      (Ttm.tt_num_pages tt) L = true /\
    forallb Ttm.iter_ok
      ((Nat.min (Ttm.MAX_ORDER - 1) (Nat.log2 (Ttm.tt_num_pages tt)), Ttm.tt_num_pages tt)
         :: L) = true.
Proof.
  intros Hn.
  destruct (TtmFacts.ttm_pool_alloc_spec config_x86 PageHighMem alloc_pages_env dma_alloc_env
              set_pages_array_wc set_pages_array_uc dma_map_page dma_addr_of pool tt ctx s)
    as (r & pages & dmas & s' & ev & Hrun & Hl & Hit & _).
  destruct Hit as [[H0 _]|[_ (L & HL & Hs & Hok)]]; [lia|].
  exists r, pages, dmas, s', L. split; [exact Hrun|].
  split; [rewrite Hl, TtmFacts.iters_app, HL; reflexivity|]. split; assumption.
Qed.

Lemma ttm_pool_alloc_order_schedule_witness :
  0 < Ttm.tt_num_pages (wc_tt 9) /\
  exists r pages dmas s' L,
    Ttm.ttm_pool_alloc true nohigh alloc_order0_only alloc_never set_ok set_ok map_none
      addr0 non_dma_pool (wc_tt 9) ctx0 ttm_empty = Some (r, pages, dmas, s') /\
    Ttm.iters (Ttm.tlog s') =
      Ttm.iters (Ttm.tlog ttm_empty) ++
      (Nat.min (Ttm.MAX_ORDER - 1) (Nat.log2 (Ttm.tt_num_pages (wc_tt 9))),
       Ttm.tt_num_pages (wc_tt 9)) :: L /\
    Ttm.sched (Nat.min (Ttm.MAX_ORDER - 1) (Nat.log2 (Ttm.tt_num_pages (wc_tt 9))))
      (Ttm.tt_num_pages (wc_tt 9)) L = true /\
    forallb Ttm.iter_ok
      ((Nat.min (Ttm.MAX_ORDER - 1) (Nat.log2 (Ttm.tt_num_pages (wc_tt 9))),
        Ttm.tt_num_pages (wc_tt 9)) :: L) = true.
Proof.
  split; [vm_compute; lia|].
  apply ttm_pool_alloc_order_schedule. vm_compute. lia.
Defined.

(** C1, as stated, fails: on failure the pages already acquired go back
    to the allocator (ttm_pool_free_page), not to their bucket, so the
    pooled-page counter is not restored.  One order-0 run pooled in the
    write-combined bucket (counter 1), allocator always failing, 2 pages
    asked: the run is taken from its bucket (counter 0), the order-0 retry
    fails, the run is freed and the call returns -ENOMEM with the counter
    still 0. *)
Lemma populate_failure_restores_counter_cex :
  ~ (forall config_x86 PageHighMem alloc_pages_env dma_alloc_env set_pages_array_wc
       set_pages_array_uc dma_map_page dma_addr_of pool tt ctx s r pages dmas s',
       1 <= Ttm.tt_num_pages tt ->
       Ttm.ttm_pool_alloc config_x86 PageHighMem alloc_pages_env dma_alloc_env
         set_pages_array_wc set_pages_array_uc dma_map_page dma_addr_of pool tt ctx s
         = Some (r, pages, dmas, s') ->
       (r = 0%Z /\ length pages = Ttm.tt_num_pages tt) \/
       ((r < 0)%Z /\ SharedPool.nr_managed_pages (Ttm.sp s') =
                     SharedPool.nr_managed_pages (Ttm.sp s))).
Proof.
  intros H.
  destruct (Ttm.ttm_pool_alloc true nohigh alloc_never alloc_never set_ok set_ok map_none
              addr0 non_dma_pool (wc_tt 2) ctx0 ttm_one_pooled)
    as [[[[r pages] dmas] s']|] eqn:E; [|vm_compute in E; discriminate].
  assert (Hr : r = (-12)%Z /\ SharedPool.nr_managed_pages (Ttm.sp s') = 0%Z).
  { vm_compute in E. injection E as <- _ _ <-. split; reflexivity. }
  destruct (H true nohigh alloc_never alloc_never set_ok set_ok map_none addr0 non_dma_pool
              (wc_tt 2) ctx0 ttm_one_pooled r pages dmas s' ltac:(vm_compute; lia) E)
    as [[H0 _]|[_ H1]].
  - lia.
  - rewrite (proj2 Hr) in H1. vm_compute in H1. discriminate H1.
Qed.

(** C1 (amended): when every bucket holds runs of its pool type's order
    and each pooled run records that order, ttm_pool_alloc returns, and
    the global counter nr_managed_pages ends lowered by the pages of the
    runs it took from buckets.  Either it returns 0 and the page array is
    exactly the runs it acquired (from buckets or the allocator), N base
    pages in all, none freed; or it returns a negative code and, when the
    acquired runs are distinct, ttm_pool_free_page has released each of
    them exactly once to the allocator, so the counter is not restored. *)
Theorem ttm_pool_alloc_outcome config_x86 PageHighMem alloc_pages_env dma_alloc_env
    set_pages_array_wc set_pages_array_uc dma_map_page dma_addr_of pool tt ctx s :
  Ttm.bucket_orders s ->
  (forall b p, In b (SharedPool.shrinker_list (Ttm.sp s)) -> In p (SharedPool.pages b) ->
     Ttm.priv s p = SharedPool.order b) ->
  exists r pages dmas s' ev,
    Ttm.ttm_pool_alloc config_x86 PageHighMem alloc_pages_env dma_alloc_env set_pages_array_wc
      set_pages_array_uc dma_map_page dma_addr_of pool tt ctx s = Some (r, pages, dmas, s') /\
    Ttm.tlog s' = Ttm.tlog s ++ ev /\
    SharedPool.nr_managed_pages (Ttm.sp s') =
      (SharedPool.nr_managed_pages (Ttm.sp s) - Ttm.sum_run_pages (Ttm.taken ev))%Z /\
    ((r = 0%Z /\ pages = flat_map Ttm.run_pages (Ttm.acquired ev) /\
      length pages = Ttm.tt_num_pages tt /\ Ttm.frees ev = []) \/
     ((r < 0)%Z /\
      (NoDup (map fst (Ttm.acquired ev)) -> Permutation (Ttm.frees ev) (Ttm.acquired ev)))).
Proof.
  intros BO HP.
  destruct (TtmFacts.ttm_pool_alloc_spec config_x86 PageHighMem alloc_pages_env dma_alloc_env
              set_pages_array_wc set_pages_array_uc dma_map_page dma_addr_of pool tt ctx s)
    as (r & pages & dmas & s' & ev & Hrun & Hl & _ & Hsc & Hle & Hg).
  destruct (Hg BO) as [Hn Hr].
  exists r, pages, dmas, s', ev. split; [exact Hrun|]. split; [exact Hl|]. split; [exact Hn|].
  destruct (Z.eq_dec r 0) as [H0|H0].
  - left. destruct (Hsc H0) as (H1 & H2 & H3). auto.
  - right. split; [lia|]. intros Hnd. apply Hr; [exact H0|exact Hnd|].
    intros b p Hb Hp. right. apply HP; assumption.
Qed.

Lemma ttm_pool_alloc_outcome_witness :
  Ttm.bucket_orders ttm_one_pooled /\
  (forall b p, In b (SharedPool.shrinker_list (Ttm.sp ttm_one_pooled)) ->
     In p (SharedPool.pages b) -> Ttm.priv ttm_one_pooled p = SharedPool.order b) /\
  exists r pages dmas s' ev,
    Ttm.ttm_pool_alloc true nohigh alloc_never alloc_never set_ok set_ok map_none
      addr0 non_dma_pool (wc_tt 2) ctx0 ttm_one_pooled = Some (r, pages, dmas, s') /\
    Ttm.tlog s' = Ttm.tlog ttm_one_pooled ++ ev /\
    SharedPool.nr_managed_pages (Ttm.sp s') =
      (SharedPool.nr_managed_pages (Ttm.sp ttm_one_pooled) -
       Ttm.sum_run_pages (Ttm.taken ev))%Z /\
    ((r = 0%Z /\ pages = flat_map Ttm.run_pages (Ttm.acquired ev) /\
      length pages = Ttm.tt_num_pages (wc_tt 2) /\ Ttm.frees ev = []) \/
     ((r < 0)%Z /\
      (NoDup (map fst (Ttm.acquired ev)) -> Permutation (Ttm.frees ev) (Ttm.acquired ev)))).
Proof.
  assert (BO : Ttm.bucket_orders ttm_one_pooled).
  { intros b Hb. simpl in Hb. destruct Hb as [<-|[]]. reflexivity. }
  assert (HP : forall b p, In b (SharedPool.shrinker_list (Ttm.sp ttm_one_pooled)) ->
     In p (SharedPool.pages b) -> Ttm.priv ttm_one_pooled p = SharedPool.order b).
  { intros b p Hb _. simpl in Hb. destruct Hb as [<-|[]]. reflexivity. }
  split; [exact BO|]. split; [exact HP|].
  exact (ttm_pool_alloc_outcome true nohigh alloc_never alloc_never set_ok set_ok map_none
           addr0 non_dma_pool (wc_tt 2) ctx0 ttm_one_pooled BO HP).
Defined.

End TtmClaims.

(* ================================================================== *)
(** * Further properties of the DMA-BUF pool *)
Module DmaBufProps.
Import DmaBufPool DmaBufInv DmaBufApi.
Local Open Scope Z_scope.

Lemma dmabuf_add_all_bucket id rs s b :
  find_pool id (pool_list s) = Some b ->
  find_pool id (pool_list (add_all id rs s)) =
    Some {| dp_id := id; count := count b + Z.of_nat (length rs);
            items := items b ++ rs; order := order b |} /\
  total_pages (add_all id rs s) = total_pages s + Z.of_nat (length rs) * pages_of (order b).
Proof.
  unfold add_all. revert s b. induction rs as [|p rs IH]; intros s b F; cbn [fold_left].
  - pose proof (DmaBufFacts.find_pool_some _ _ _ F) as [_ Hid]. subst id.
    rewrite F, app_nil_r, Z.add_0_r. destruct b; cbn.
    split; [reflexivity | lia].
  - set (b1 := {| dp_id := id; count := count b + 1; items := items b ++ [p];
                  order := order b |}).
    destruct (IH (drm_page_pool_add id p s) b1) as [H1 H2].
    + unfold drm_page_pool_add. rewrite F. cbn [pool_list].
      apply DmaBufFacts.find_replace with b; [exact F | reflexivity].
    + rewrite H1, H2. unfold drm_page_pool_add. rewrite F.
      cbn [b1 count items order total_pages]. split.
      * rewrite <- app_assoc. cbn [app length].
        replace (count b + 1 + Z.of_nat (length rs))
          with (count b + Z.of_nat (S (length rs))) by lia.
        reflexivity.
      * cbn [length]. lia.
Qed.

Lemma fetch_n_S k id s :
  fetch_n (S k) id s =
  let '(p, s1) := drm_page_pool_fetch id s in
  let '(ps, s2) := fetch_n k id s1 in (p :: ps, s2).
Proof. reflexivity. Qed.

Lemma fetch_n_drain id l s b :
  find_pool id (pool_list s) = Some b -> items b = l ->
  count b = Z.of_nat (length l) ->
  exists s', fetch_n (S (length l)) id s = (map Some l ++ [None], s') /\
             total_pages s' = total_pages s - count b * pages_of (order b).
Proof.
  revert s b. induction l as [|p l IH]; intros s b F Hi Hc.
  - exists s. cbn [fetch_n]. unfold drm_page_pool_fetch, drm_page_pool_remove.
    rewrite F, Hc. cbn. split; [reflexivity | lia].
  - cbn [length] in Hc.
    assert (E : (count b =? 0) = false) by (apply Z.eqb_neq; lia).
    set (b' := {| dp_id := dp_id b; count := count b - 1; items := l; order := order b |}).
    assert (Hf : drm_page_pool_fetch id s =
                 (Some p, {| pool_list := replace_pool b' (pool_list s);
                             total_pages := total_pages s - pages_of (order b);
                             log := log s |})).
    { unfold drm_page_pool_fetch, drm_page_pool_remove. rewrite F, E, Hi. reflexivity. }
    destruct (IH {| pool_list := replace_pool b' (pool_list s);
                    total_pages := total_pages s - pages_of (order b);
                    log := log s |} b') as (s' & H1 & H2).
    + cbn [pool_list]. apply DmaBufFacts.find_replace with b; [exact F|].
      cbn [b' dp_id]. apply (DmaBufFacts.find_pool_some _ _ _ F).
    + reflexivity.
    + cbn [b' count]. lia.
    + exists s'. cbn [length]. rewrite fetch_n_S, Hf. cbv beta iota. rewrite H1.
      cbv beta iota. split; [reflexivity|].
      rewrite H2. cbn [b' count order total_pages]. lia.
Qed.

Lemma destroy_drain_log l pool tp lg :
  items pool = l -> count pool = Z.of_nat (length l) ->
  destroy_drain (length l) pool tp lg =
    (tp - count pool * pages_of (order pool),
     lg ++ flat_map (fun p => [SpinUnlock; FreeCallback p; SpinLock]) l).
Proof.
  revert pool tp lg. induction l as [|p l IH]; intros pool tp lg Hi Hc; cbn [length destroy_drain].
  - cbn [length Z.of_nat] in Hc. rewrite Hc, app_nil_r. f_equal. lia.
  - unfold drm_page_pool_remove at 1. rewrite Hi. cbn [length] in Hc.
    assert (E : (count pool =? 0) = false) by (apply Z.eqb_neq; lia). rewrite E.
    cbv beta iota. rewrite IH; [| reflexivity | cbn; lia].
    cbn [count order flat_map]. rewrite app_assoc. f_equal. ring.
Qed.

Lemma sum_pages_empty l :
  Forall (fun b => count b = Z.of_nat (length (items b))) l ->
  0 <= sum_pages l /\
  (Forall (fun b => items b = []) l <-> sum_pages l = 0).
Proof.
  induction 1 as [|b l Hb Hl IH]; cbn [sum_pages].
  - split; [lia|]. split; [reflexivity | constructor].
  - pose proof (pages_of_pos (order b)) as Hpo. rewrite Hb.
    destruct (items b) as [|x r] eqn:E; cbn [length].
    + split; [lia|]. split.
      * intros HF. apply Forall_inv_tail, IH in HF. lia.
      * intros H. constructor; [exact E|]. apply IH. lia.
    + rewrite Nat2Z.inj_succ. split; [nia|]. split.
      * intros HF. apply Forall_inv in HF. congruence.
      * intros H. nia.
Qed.

(** X1: drm_page_pool_fetch hands out the runs of a bucket in the order
    they were added by drm_page_pool_add (first in, first out), after the
    runs already there, and returns NULL once the bucket is empty; the
    total drops back by the runs that were there before. *)
Theorem dmabuf_fetch_fifo s id b rs :
  find_pool id (pool_list s) = Some b -> count b = Z.of_nat (length (items b)) ->
  exists s', fetch_n (S (length (items b) + length rs)) id (add_all id rs s)
             = (map Some (items b ++ rs) ++ [None], s') /\
    total_pages s' = total_pages s - count b * pages_of (order b).
Proof.
  intros F Hc. destruct (dmabuf_add_all_bucket id rs s b F) as [H1 H2].
  destruct (fetch_n_drain id (items b ++ rs) _ _ H1 eq_refl) as (s' & E & T).
  { cbn [count]. rewrite length_app. lia. }
  exists s'. rewrite length_app in E. split; [exact E|].
  rewrite T, H2. cbn [count order]. ring.
Qed.

Lemma dmabuf_fetch_fifo_witness :
  let b := {| dp_id := 0; count := 1; items := [1%nat]; order := 0 |} in
  find_pool 0 (pool_list Scenarios.db_one) = Some b /\
  count b = Z.of_nat (length (items b)) /\
  exists s', fetch_n (S (length (items b) + length [7; 9]%nat)) 0
               (add_all 0 [7; 9]%nat Scenarios.db_one)
             = (map Some (items b ++ [7; 9]%nat) ++ [None], s') /\
    total_pages s' = total_pages Scenarios.db_one - count b * pages_of (order b).
Proof.
  intros b. split; [reflexivity|]. split; [reflexivity|].
  apply (dmabuf_fetch_fifo Scenarios.db_one 0 b [7; 9]%nat); reflexivity.
Defined.

(** X2: drm_page_pool_destroy unlinks the bucket from pool_list, passes
    every run of the bucket to the free callback in list order with the
    bucket spinlock released and the registry mutex not held, and lowers
    total_pages by count * 2^order. *)
Theorem dmabuf_destroy_releases_all s id b :
  find_pool id (pool_list s) = Some b -> count b = Z.of_nat (length (items b)) ->
  drm_page_pool_destroy id s =
  {| pool_list := delete_pool id (pool_list s);
     total_pages := total_pages s - count b * pages_of (order b);
     log := log s ++ [MutexLock; MutexUnlock; SpinLock]
            ++ flat_map (fun p => [SpinUnlock; FreeCallback p; SpinLock]) (items b)
            ++ [SpinUnlock] |}.
Proof.
  intros F Hc. unfold drm_page_pool_destroy. rewrite F.
  rewrite (destroy_drain_log (items b)) by auto. rewrite <- !app_assoc. reflexivity.
Qed.

Lemma dmabuf_destroy_releases_all_witness :
  let b := {| dp_id := 0; count := 2; items := [1; 5]%nat; order := 2 |} in
  find_pool 0 (pool_list Scenarios.db_s1) = Some b /\
  count b = Z.of_nat (length (items b)) /\
  drm_page_pool_destroy 0 Scenarios.db_s1 =
  {| pool_list := delete_pool 0 (pool_list Scenarios.db_s1);
     total_pages := total_pages Scenarios.db_s1 - count b * pages_of (order b);
     log := log Scenarios.db_s1 ++ [MutexLock; MutexUnlock; SpinLock]
            ++ flat_map (fun p => [SpinUnlock; FreeCallback p; SpinLock]) (items b)
            ++ [SpinUnlock] |}.
Proof.
  intros b. split; [reflexivity|]. split; [reflexivity|].
  apply (dmabuf_destroy_releases_all Scenarios.db_s1 0 b); reflexivity.
Defined.

(** X3: in every reachable state drm_page_pool_shrink_count returns
    SHRINK_EMPTY when no bucket holds a run, and otherwise the positive
    total_pages. *)
Theorem dmabuf_shrink_count_empty s :
  reachable s ->
  (Forall (fun b => items b = []) (pool_list s) ->
   drm_page_pool_shrink_count s = SHRINK_EMPTY) /\
  (~ Forall (fun b => items b = []) (pool_list s) ->
   drm_page_pool_shrink_count s = total_pages s /\ 0 < total_pages s).
Proof.
  intros R. destruct (DmaBufFacts.reachable_inv s R) as [Hc Ht].
  destruct (sum_pages_empty _ Hc) as [Hn Hiff].
  unfold drm_page_pool_shrink_count. rewrite Ht. split.
  - intros HF. apply Hiff in HF. rewrite HF. reflexivity.
  - intros HF. destruct (Z.eqb_spec (sum_pages (pool_list s)) 0) as [E|E].
    + exfalso. apply HF, Hiff, E.
    + split; [reflexivity | lia].
Qed.

Lemma db_s1_reach : reachable Scenarios.db_s1.
Proof.
  unfold Scenarios.db_s1.
  eapply reach_step; [eapply reach_step; [eapply reach_step|]|].
  - apply reach_init.
  - apply step_create.
  - apply step_add.
  - apply step_add.
Qed.

Lemma dmabuf_shrink_count_empty_witness :
  reachable Scenarios.db_s1 /\
  (Forall (fun b => items b = []) (pool_list Scenarios.db_s1) ->
   drm_page_pool_shrink_count Scenarios.db_s1 = SHRINK_EMPTY) /\
  (~ Forall (fun b => items b = []) (pool_list Scenarios.db_s1) ->
   drm_page_pool_shrink_count Scenarios.db_s1 = total_pages Scenarios.db_s1 /\
   0 < total_pages Scenarios.db_s1).
Proof.
  split; [exact db_s1_reach|].
  exact (dmabuf_shrink_count_empty Scenarios.db_s1 db_s1_reach).
Defined.

End DmaBufProps.

(* ================================================================== *)
(** * Further properties of the shared drm page pool *)
Module SharedProps.
Import SharedPool SharedInv SharedApi.
Local Open Scope Z_scope.

Section Props.
Variable K : Type.
Variable K_eq_dec : forall x y : K, {x = y} + {x <> y}.
Variable PageHighMem : nat -> bool.
Implicit Types s : state K.

Lemma reachable_size s : reachable K_eq_dec PageHighMem s -> 0 <= page_pool_size s.
Proof.
  induction 1 as [sz m Hsz|s s' _ IH Hs]; [exact Hsz|].
  destruct Hs as [id o s|id s|id p s s' Ha|id s r s' Hr|s n s' Hsh|nr s n s' Hsc
                  |s v Hv|s q v Hq].
  - rewrite (proj1 (proj2 (SharedFacts.init_props K id o s))). exact IH.
  - rewrite (proj1 (proj2 (SharedFacts.fini_props K K_eq_dec id s))). exact IH.
  - unfold drm_page_pool_add in Ha.
    rewrite (proj1 (proj2 (SharedFacts.trim_loop_props K _ _ _ Ha))).
    rewrite (proj1 (SharedFacts.add_run_props K K_eq_dec PageHighMem id p s)). exact IH.
  - rewrite (proj1 (proj2 (SharedFacts.remove_props K K_eq_dec id s r s' Hr))). exact IH.
  - rewrite (proj1 (proj2 (proj2 (proj2 (SharedFacts.shrink_props K s n s' Hsh))))).
    exact IH.
  - unfold drm_page_pool_shrinker_scan in Hsc.
    destruct (SharedFacts.shrinker_scan_loop_props K _ _ _ _ _ Hsc)
      as (_ & _ & _ & _ & E & _). rewrite E. exact IH.
  - exact Hv.
  - exact IH.
Qed.

Lemma sum_page_count_empty (l : list (drm_page_pool K)) :
  Forall (fun b => page_count b = Z.of_nat (length (pages b)) * pages_of (order b)) l ->
  0 <= sum_page_count l /\
  (Forall (fun b => pages b = []) l <-> sum_page_count l = 0).
Proof.
  induction 1 as [|b l Hb Hl IH]; cbn [sum_page_count].
  - split; [lia|]. split; [reflexivity | constructor].
  - pose proof (pages_of_pos (order b)) as Hpo. rewrite Hb.
    destruct (pages b) as [|x r] eqn:E; cbn [length].
    + split; [lia|]. split.
      * intros HF. apply Forall_inv_tail, IH in HF. lia.
      * intros H. constructor; [exact E|]. apply IH. lia.
    + rewrite Nat2Z.inj_succ. split; [nia|]. split.
      * intros HF. apply Forall_inv in HF. congruence.
      * intros H. nia.
Qed.

Lemma inv2_counter s :
  inv2 s ->
  0 <= nr_managed_pages s /\
  (Forall (fun b => pages b = []) (shrinker_list s) <-> nr_managed_pages s = 0).
Proof. intros [Hf Hn]. rewrite Hn. apply sum_page_count_empty, Hf. Qed.

Lemma lead_empty_le (l : list (drm_page_pool K)) : (lead_empty l <= length l)%nat.
Proof.
  induction l as [|b l IH]; cbn [lead_empty length]; [lia|].
  destruct (pages b); lia.
Qed.

Lemma lead_empty_lt (l : list (drm_page_pool K)) :
  ~ Forall (fun b => pages b = []) l -> (lead_empty l < length l)%nat.
Proof.
  induction l as [|b l IH]; cbn [lead_empty length]; intros H.
  - exfalso. apply H. constructor.
  - destruct (pages b) eqn:E; [|lia].
    assert (~ Forall (fun b => pages b = []) l) by (intros HF; apply H; constructor; auto).
    specialize (IH H0). lia.
Qed.

Lemma lead_empty_app (l x : list (drm_page_pool K)) :
  (lead_empty l < length l)%nat -> lead_empty (l ++ x) = lead_empty l.
Proof.
  induction l as [|b l IH]; cbn [lead_empty length app]; intros H; [lia|].
  destruct (pages b); [|reflexivity]. rewrite IH by lia. reflexivity.
Qed.

(** the trimming loop of drm_page_pool_add stops: each call of
    drm_page_pool_shrink either frees a run or moves an empty head bucket
    behind the first non-empty one *)
Lemma trim_loop_total fuel s :
  inv2 s -> 0 <= page_pool_size s ->
  (Z.to_nat (nr_managed_pages s) * S (length (shrinker_list s))
   + lead_empty (shrinker_list s) < fuel)%nat ->
  exists s', trim_loop fuel s = Some s'.
Proof.
  revert s. induction fuel as [|f IH]; intros s Hi Hsz Hf; [lia|].
  cbn [trim_loop].
  destruct (negb (page_pool_size s =? 0) && (page_pool_size s <? nr_managed_pages s))
    eqn:C; [|eexists; reflexivity].
  apply andb_true_iff in C as [C1 C2].
  apply negb_true_iff, Z.eqb_neq in C1. apply Z.ltb_lt in C2.
  destruct (inv2_counter s Hi) as [Hn Hiff].
  assert (NE : ~ Forall (fun b => pages b = []) (shrinker_list s))
    by (intros H; apply Hiff in H; lia).
  pose proof (lead_empty_lt _ NE) as Hlt.
  destruct (drm_page_pool_shrink s) as [[n s1]|] eqn:Sh.
  2:{ unfold drm_page_pool_shrink in Sh.
      destruct (shrinker_list s) as [|b rest]; [cbn in Hlt; lia|].
      destruct (take_first b) as [[]|]; discriminate. }
  destruct (SharedFacts.shrink_props K s n s1 Sh) as (_ & _ & _ & Hsz1 & _ & Hinv1).
  apply IH; [apply Hinv1, Hi | rewrite Hsz1; exact Hsz |].
  destruct (inv2_counter _ (Hinv1 Hi)) as [Hn1 _].
  unfold drm_page_pool_shrink in Sh.
  destruct (shrinker_list s) as [|b rest] eqn:L; [discriminate|].
  destruct (take_first b) as [[p b']|] eqn:T; injection Sh as <- <-;
    unfold with_list in *; cbn [shrinker_list nr_managed_pages] in *.
  - destruct (SharedFacts.take_first_spec K b p b' T) as (Hp & _ & _ & _).
    cbn [lead_empty] in Hf. rewrite Hp in Hf.
    pose proof (pages_of_pos (order b)) as Hpo.
    pose proof (lead_empty_le (rest ++ [b'])) as Hle.
    rewrite length_app in *. cbn [length] in *.
    assert (HN : (Z.to_nat (nr_managed_pages s - pages_of (order b)) + 1
                  <= Z.to_nat (nr_managed_pages s))%nat) by lia.
    nia.
  - apply SharedFacts.take_first_none in T.
    cbn [lead_empty] in Hf, Hlt. rewrite T in Hf, Hlt. cbn [length] in Hlt.
    rewrite lead_empty_app by lia. rewrite length_app. cbn [length] in *. nia.
Qed.

Lemma trim_zero fuel s :
  page_pool_size s = 0 -> trim_loop (S fuel) s = Some s.
Proof. intros H. cbn [trim_loop]. rewrite H. reflexivity. Qed.

Lemma shared_add_all_bucket id rs s b :
  page_pool_size s = 0 -> find_pool K_eq_dec id (shrinker_list s) = Some b ->
  exists s1, add_all K_eq_dec PageHighMem id rs s = Some s1 /\
    find_pool K_eq_dec id (shrinker_list s1) =
      Some {| sp_id := id; order := order b; pages := rev rs ++ pages b;
              page_count := page_count b + Z.of_nat (length rs) * pages_of (order b) |} /\
    nr_managed_pages s1 = nr_managed_pages s + Z.of_nat (length rs) * pages_of (order b) /\
    page_pool_size s1 = 0.
Proof.
  revert s b. induction rs as [|p rs IH]; intros s b Hz F; cbn [add_all].
  - exists s. split; [reflexivity|]. rewrite F.
    destruct (SharedFacts.shared_find_pool_some K K_eq_dec _ _ _ F) as [_ Hid]. subst id.
    destruct b; cbn. split; [|split]; [f_equal; f_equal; lia | lia | exact Hz].
  - set (b1 := {| sp_id := id; order := order b; pages := p :: pages b;
                  page_count := page_count b + pages_of (order b) |}).
    set (s1 := add_run K_eq_dec PageHighMem id p s).
    assert (A : drm_page_pool_add K_eq_dec PageHighMem id p s = Some s1).
    { unfold drm_page_pool_add. fold s1. unfold trim_fuel. cbn [Nat.mul].
      apply trim_zero. unfold s1. rewrite (proj1 (SharedFacts.add_run_props _ _ _ _ _ _)).
      exact Hz. }
    rewrite A.
    destruct (IH s1 b1) as (s2 & E & F2 & N2 & Z2).
    + unfold s1. rewrite (proj1 (SharedFacts.add_run_props _ _ _ _ _ _)). exact Hz.
    + unfold s1, add_run. rewrite F. cbn [shrinker_list].
      apply SharedFacts.shared_find_replace with b; [exact F | reflexivity].
    + exists s2. split; [exact E|]. rewrite F2, N2. cbn [b1 order pages page_count].
      split; [|split; [|exact Z2]].
      * cbn [rev length]. rewrite <- app_assoc. cbn [app].
        replace (page_count b + pages_of (order b) + Z.of_nat (length rs) * pages_of (order b))
          with (page_count b + Z.of_nat (S (length rs)) * pages_of (order b)) by lia.
        reflexivity.
      * unfold s1, add_run. rewrite F. cbn [nr_managed_pages length]. lia.
Qed.

Lemma remove_n_S k id s :
  remove_n K_eq_dec (S k) id s =
  let '(p, s1) := drm_page_pool_remove K_eq_dec id s in
  let '(ps, s2) := remove_n K_eq_dec k id s1 in (p :: ps, s2).
Proof. reflexivity. Qed.

Lemma remove_n_drain id l s b :
  find_pool K_eq_dec id (shrinker_list s) = Some b -> pages b = l ->
  exists s', remove_n K_eq_dec (S (length l)) id s = (map Some l ++ [None], s') /\
             nr_managed_pages s' = nr_managed_pages s - Z.of_nat (length l) * pages_of (order b).
Proof.
  revert s b. induction l as [|p l IH]; intros s b F Hp.
  - exists s. cbn [remove_n]. unfold drm_page_pool_remove, take_first.
    rewrite F, Hp. cbn. split; [reflexivity | lia].
  - set (b' := {| sp_id := sp_id b; order := order b; pages := l;
                  page_count := page_count b - pages_of (order b) |}).
    set (s1 := with_list s (replace_pool K_eq_dec b' (shrinker_list s))
                 (nr_managed_pages s - pages_of (order b)) (log s)).
    assert (Hr : drm_page_pool_remove K_eq_dec id s = (Some p, s1)).
    { unfold drm_page_pool_remove, take_first. rewrite F, Hp. reflexivity. }
    destruct (IH s1 b') as (s' & H1 & H2).
    + unfold s1, with_list. cbn [shrinker_list].
      apply SharedFacts.shared_find_replace with b; [exact F|].
      cbn [b' sp_id]. apply (SharedFacts.shared_find_pool_some K K_eq_dec _ _ _ F).
    + reflexivity.
    + exists s'. cbn [length]. rewrite remove_n_S, Hr. cbv beta iota. rewrite H1.
      cbv beta iota. split; [reflexivity|].
      rewrite H2. unfold s1, with_list. cbn [b' order nr_managed_pages]. lia.
Qed.

Lemma callback_mutex_states_app h l1 l2 :
  exists h', callback_mutex_states h (l1 ++ l2) =
             callback_mutex_states h l1 ++ callback_mutex_states h' l2.
Proof.
  revert h. induction l1 as [|e l1 IH]; intros h; [exists h; reflexivity|].
  destruct e; cbn [app callback_mutex_states];
    try (destruct (IH h) as [h' E]; exists h'; rewrite E; reflexivity).
  - destruct (IH true) as [h' E]. exists h'. exact E.
  - destruct (IH false) as [h' E]. exists h'. exact E.
Qed.

Lemma fini_drain_log l o n lg :
  snd (fini_drain l o n lg) =
  lg ++ flat_map (fun p => [SpinLock; SpinUnlock; FreeCallback p]) l.
Proof.
  revert n lg. induction l as [|p l IH]; intros n lg; cbn [fini_drain flat_map].
  - rewrite app_nil_r. reflexivity.
  - rewrite IH, app_assoc. reflexivity.
Qed.

Lemma callbacks_app l1 l2 : callbacks (l1 ++ l2) = callbacks l1 ++ callbacks l2.
Proof. induction l1 as [|e l1 IH]; [reflexivity|]. destruct e; cbn; rewrite ?IH; reflexivity. Qed.

Lemma callbacks_drain l :
  callbacks (flat_map (fun p => [SpinLock; SpinUnlock; FreeCallback p]) l) = l.
Proof.
  induction l as [|p l IH]; [reflexivity|].
  cbn [flat_map]. rewrite callbacks_app, IH. reflexivity.
Qed.

Lemma states_drain h l :
  callback_mutex_states h (flat_map (fun p => [SpinLock; SpinUnlock; FreeCallback p]) l)
  = repeat h (length l).
Proof.
  induction l as [|p l IH]; [reflexivity|].
  cbn [flat_map app callback_mutex_states length repeat]. rewrite IH. reflexivity.
Qed.

(** X4: in every reachable state drm_page_pool_shrinker_count returns
    SHRINK_EMPTY when no bucket holds a run, and otherwise the positive
    nr_managed_pages. *)
Theorem shared_shrinker_count_empty s :
  reachable K_eq_dec PageHighMem s ->
  (Forall (fun b => pages b = []) (shrinker_list s) ->
   drm_page_pool_shrinker_count s = DmaBufApi.SHRINK_EMPTY) /\
  (~ Forall (fun b => pages b = []) (shrinker_list s) ->
   drm_page_pool_shrinker_count s = nr_managed_pages s /\ 0 < nr_managed_pages s).
Proof.
  intros R. destruct (SharedFacts.reachable_invs _ _ _ _ R) as [Hi _].
  destruct (inv2_counter s Hi) as [Hn Hiff].
  unfold drm_page_pool_shrinker_count, drm_page_pool_get_total. split.
  - intros HF. apply Hiff in HF. rewrite HF. reflexivity.
  - intros HF. destruct (Z.eqb_spec (nr_managed_pages s) 0) as [E|E].
    + exfalso. apply HF, Hiff, E.
    + split; [reflexivity | lia].
Qed.

(** X5: in every reachable state drm_page_pool_add returns (its trimming
    loop stops), and afterwards page_pool_size is 0 or nr_managed_pages
    is at most page_pool_size. *)
Theorem shared_add_returns_bounded s id p :
  reachable K_eq_dec PageHighMem s ->
  exists s', drm_page_pool_add K_eq_dec PageHighMem id p s = Some s' /\
    (page_pool_size s' = 0 \/ nr_managed_pages s' <= page_pool_size s').
Proof.
  intros R. destruct (SharedFacts.reachable_invs _ _ _ _ R) as [Hi _].
  pose proof (reachable_size s R) as Hsz.
  destruct (SharedFacts.add_run_props K K_eq_dec PageHighMem id p s) as (Hs1 & Hi1 & _).
  unfold drm_page_pool_add.
  set (s1 := add_run K_eq_dec PageHighMem id p s) in *.
  destruct (trim_loop_total (trim_fuel s1) s1) as [s' E].
  - apply Hi1, Hi.
  - rewrite Hs1. exact Hsz.
  - unfold trim_fuel. pose proof (lead_empty_le (shrinker_list s1)). nia.
  - exists s'. split; [exact E|]. apply (SharedFacts.trim_loop_props K _ _ _ E).
Qed.

(** X6: with page_pool_size 0 a bucket is a stack: after drm_page_pool_add
    of r1, ..., rk, successive drm_page_pool_remove calls return rk, ...,
    r1, then the runs that were there before, then NULL; the counter drops
    back by the runs that were there before. *)
Theorem shared_remove_lifo s id b rs :
  page_pool_size s = 0 -> find_pool K_eq_dec id (shrinker_list s) = Some b ->
  exists s1 s2, add_all K_eq_dec PageHighMem id rs s = Some s1 /\
    remove_n K_eq_dec (S (length rs + length (pages b))) id s1
      = (map Some (rev rs ++ pages b) ++ [None], s2) /\
    nr_managed_pages s2 =
      nr_managed_pages s - Z.of_nat (length (pages b)) * pages_of (order b).
Proof.
  intros Hz F. destruct (shared_add_all_bucket id rs s b Hz F) as (s1 & E & F1 & N1 & _).
  destruct (remove_n_drain id (rev rs ++ pages b) s1 _ F1 eq_refl) as (s2 & R & N2).
  exists s1, s2. split; [exact E|]. rewrite length_app, length_rev in R.
  split; [exact R|]. rewrite N2, N1. cbn [order]. rewrite length_app, length_rev.
  rewrite Nat2Z.inj_add. ring.
Qed.

(** X7: drm_page_pool_fini unlinks the bucket, passes each of its runs to
    the free callback in list order with the registry mutex released, and
    lowers nr_managed_pages by (number of runs) * 2^order. *)
Theorem shared_fini_releases_all s id b :
  find_pool K_eq_dec id (shrinker_list s) = Some b ->
  shrinker_list (drm_page_pool_fini K_eq_dec id s) = delete_pool K_eq_dec id (shrinker_list s) /\
  nr_managed_pages (drm_page_pool_fini K_eq_dec id s) =
    nr_managed_pages s - Z.of_nat (length (pages b)) * pages_of (order b) /\
  callbacks (log (drm_page_pool_fini K_eq_dec id s)) = callbacks (log s) ++ pages b /\
  callback_mutex_states false (log (drm_page_pool_fini K_eq_dec id s)) =
    callback_mutex_states false (log s) ++ repeat false (length (pages b)).
Proof.
  intros F. unfold drm_page_pool_fini. rewrite F.
  pose proof (fini_drain_log (pages b) (order b) (nr_managed_pages s)
                (log s ++ [MutexLock; MutexUnlock])) as D.
  pose proof (SharedFacts.fini_drain_fst (pages b) (order b) (nr_managed_pages s)
                (log s ++ [MutexLock; MutexUnlock])) as N.
  destruct (fini_drain _ _ _ _) as [n lg]. cbn [fst snd] in D, N. subst n lg.
  unfold with_list. cbn [shrinker_list nr_managed_pages log].
  split; [reflexivity|]. split; [reflexivity|]. split.
  - rewrite !callbacks_app, callbacks_drain. cbn. rewrite app_nil_r. reflexivity.
  - rewrite <- app_assoc.
    destruct (callback_mutex_states_app false (log s)
                ([MutexLock; MutexUnlock] ++
                 flat_map (fun p => [SpinLock; SpinUnlock; FreeCallback p]) (pages b)))
      as [h E].
    rewrite E. cbn [app callback_mutex_states]. rewrite states_drain. reflexivity.
Qed.

End Props.

Lemma sp_s2_reach : reachable Nat.eq_dec Scenarios.nohigh Scenarios.sp_s2.
Proof.
  apply reach_step with Scenarios.sp_s1.
  - apply reach_step with Scenarios.sp_s0.
    + apply (reach_init nat Nat.eq_dec Scenarios.nohigh 0 (fun _ => 1)). lia.
    + apply step_init.
  - apply (step_add nat Nat.eq_dec Scenarios.nohigh 0%nat 8%nat). reflexivity.
Qed.

Lemma sp_lim1_reach : reachable Nat.eq_dec Scenarios.nohigh Scenarios2.sp_lim1.
Proof.
  eapply reach_step.
  - apply (reach_init nat Nat.eq_dec Scenarios.nohigh 1 (fun _ => 1)). lia.
  - apply step_init.
Qed.

Lemma shared_shrinker_count_empty_witness :
  reachable Nat.eq_dec Scenarios.nohigh Scenarios.sp_s2 /\
  (Forall (fun b => pages b = []) (shrinker_list Scenarios.sp_s2) ->
   drm_page_pool_shrinker_count Scenarios.sp_s2 = DmaBufApi.SHRINK_EMPTY) /\
  (~ Forall (fun b => pages b = []) (shrinker_list Scenarios.sp_s2) ->
   drm_page_pool_shrinker_count Scenarios.sp_s2 = nr_managed_pages Scenarios.sp_s2 /\
   0 < nr_managed_pages Scenarios.sp_s2).
Proof.
  split; [exact sp_s2_reach|].
  exact (shared_shrinker_count_empty nat Nat.eq_dec Scenarios.nohigh Scenarios.sp_s2
           sp_s2_reach).
Defined.

Lemma shared_add_returns_bounded_witness :
  reachable Nat.eq_dec Scenarios.nohigh Scenarios2.sp_lim1 /\
  exists s', drm_page_pool_add Nat.eq_dec Scenarios.nohigh 0%nat 8%nat Scenarios2.sp_lim1
             = Some s' /\
    (page_pool_size s' = 0 \/ nr_managed_pages s' <= page_pool_size s').
Proof.
  split; [exact sp_lim1_reach|].
  exact (shared_add_returns_bounded nat Nat.eq_dec Scenarios.nohigh Scenarios2.sp_lim1
           0%nat 8%nat sp_lim1_reach).
Defined.

Lemma shared_remove_lifo_witness :
  let b := {| sp_id := 0%nat; order := 1%nat; pages := []; page_count := 0 |} in
  page_pool_size Scenarios.sp_s1 = 0 /\
  find_pool Nat.eq_dec 0%nat (shrinker_list Scenarios.sp_s1) = Some b /\
  exists s1 s2, add_all Nat.eq_dec Scenarios.nohigh 0%nat [8; 12]%nat Scenarios.sp_s1 = Some s1 /\
    remove_n Nat.eq_dec (S (length [8; 12]%nat + length (pages b))) 0%nat s1
      = (map Some (rev [8; 12]%nat ++ pages b) ++ [None], s2) /\
    nr_managed_pages s2 =
      nr_managed_pages Scenarios.sp_s1 - Z.of_nat (length (pages b)) * pages_of (order b).
Proof.
  intros b. split; [reflexivity|]. split; [reflexivity|].
  apply (shared_remove_lifo nat Nat.eq_dec Scenarios.nohigh Scenarios.sp_s1 0%nat b
           [8; 12]%nat); reflexivity.
Defined.

Lemma shared_fini_releases_all_witness :
  let b := {| sp_id := 0%nat; order := 1%nat; pages := [8%nat]; page_count := 2 |} in
  find_pool Nat.eq_dec 0%nat (shrinker_list Scenarios.sp_s2) = Some b /\
  shrinker_list (drm_page_pool_fini Nat.eq_dec 0%nat Scenarios.sp_s2) =
    delete_pool Nat.eq_dec 0%nat (shrinker_list Scenarios.sp_s2) /\
  nr_managed_pages (drm_page_pool_fini Nat.eq_dec 0%nat Scenarios.sp_s2) =
    nr_managed_pages Scenarios.sp_s2 - Z.of_nat (length (pages b)) * pages_of (order b) /\
  callbacks (log (drm_page_pool_fini Nat.eq_dec 0%nat Scenarios.sp_s2)) =
    callbacks (log Scenarios.sp_s2) ++ pages b /\
  callback_mutex_states false (log (drm_page_pool_fini Nat.eq_dec 0%nat Scenarios.sp_s2)) =
    callback_mutex_states false (log Scenarios.sp_s2) ++ repeat false (length (pages b)).
Proof.
  intros b. split; [reflexivity|].
  apply (shared_fini_releases_all nat Nat.eq_dec Scenarios.sp_s2 0%nat b). reflexivity.
Defined.

End SharedProps.

(* ================================================================== *)
(** * Pool setup, teardown and ttm_pool_free *)
Module TtmProps.
Import Ttm TtmLife SharedPool SharedInv SharedApi.
Local Open Scope Z_scope.

Local Abbreviation sstate := (SharedPool.state pool_type).

Lemma init_fold ts (x : sstate) :
  fold_left (fun x t => drm_page_pool_init t (pool_type_order t) x) ts x =
  with_list x (shrinker_list x ++ map empty_bucket ts) (nr_managed_pages x) (log x).
Proof.
  revert x. induction ts as [|t ts IH]; intros x; cbn [fold_left map].
  - rewrite app_nil_r. destruct x; reflexivity.
  - rewrite IH. unfold drm_page_pool_init, with_list. cbn. rewrite <- app_assoc. reflexivity.
Qed.

Lemma fold_left_flat_map {A B} (f : A -> B -> A) (g : nat -> list B) l x :
  fold_left f (flat_map g l) x = fold_left (fun x i => fold_left f (g i) x) l x.
Proof.
  revert x. induction l as [|i l IH]; intros x; cbn; [reflexivity|].
  rewrite fold_left_app. apply IH.
Qed.

Lemma fold_left_ext' {A B} (f g : A -> B -> A) l x :
  (forall a b, f a b = g a b) -> fold_left f l x = fold_left g l x.
Proof.
  intros E. revert x. induction l as [|b l IH]; intros x; cbn; [reflexivity|].
  rewrite E. apply IH.
Qed.

Lemma fold_left_map' {A B C} (f : A -> B -> A) (g : C -> B) l x :
  fold_left f (map g l) x = fold_left (fun x c => f x (g c)) l x.
Proof.
  revert x. induction l as [|c l IH]; intros x; cbn; [reflexivity|]. apply IH.
Qed.


Lemma pool_init_unfold dma32 (x : sstate) :
  snd (ttm_pool_init true dma32 x) =
  fold_left (fun x t => drm_page_pool_init t (pool_type_order t) x) own_types x.
Proof.
  unfold own_types. rewrite fold_left_flat_map. cbn [ttm_pool_init snd].
  apply fold_left_ext'. intros y i. rewrite fold_left_map'. reflexivity.
Qed.

Lemma mgr_fini_unfold (x : sstate) :
  ttm_pool_mgr_fini x = fold_left (fun x t => ttm_pool_type_fini t x) global_types x.
Proof.
  unfold global_types. rewrite fold_left_flat_map.
  apply fold_left_ext'. intros y i. reflexivity.
Qed.

Lemma pool_fini_unfold pool (x : sstate) :
  use_dma_alloc pool = true ->
  ttm_pool_fini pool x = fold_left (fun x t => ttm_pool_type_fini t x) own_types x.
Proof.
  intros H. unfold ttm_pool_fini. rewrite H.
  unfold own_types. rewrite fold_left_flat_map.
  apply fold_left_ext'. intros y i. rewrite fold_left_map'. reflexivity.
Qed.

Lemma delete_pool_absent t (l : list (drm_page_pool pool_type)) :
  find_pool pool_type_eq_dec t l = None -> delete_pool pool_type_eq_dec t l = l.
Proof.
  induction l as [|b l IH]; cbn; [reflexivity|].
  destruct (same_id pool_type_eq_dec (sp_id b) t); [discriminate|].
  intros H. rewrite IH by exact H. reflexivity.
Qed.

Lemma fini_list t (x : sstate) :
  shrinker_list (ttm_pool_type_fini t x) = delete_pool pool_type_eq_dec t (shrinker_list x).
Proof.
  unfold ttm_pool_type_fini, drm_page_pool_fini.
  destruct (find_pool pool_type_eq_dec t (shrinker_list x)) eqn:F.
  - destruct (fini_drain _ _ _ _). reflexivity.
  - symmetry. apply delete_pool_absent, F.
Qed.

Lemma delete_filter t (l : list (drm_page_pool pool_type)) :
  NoDup (map sp_id l) ->
  delete_pool pool_type_eq_dec t l =
  filter (fun b => negb (same_id pool_type_eq_dec (sp_id b) t)) l.
Proof.
  induction l as [|b l IH]; cbn [delete_pool filter map]; intros H; [reflexivity|].
  inversion H as [|? ? Hn Hd]; subst.
  destruct (same_id pool_type_eq_dec (sp_id b) t) eqn:E; cbn [negb].
  - apply SharedFacts.same_id_spec in E. subst t. symmetry.
    apply forallb_filter_id. apply forallb_forall. intros b' Hb'.
    destruct (same_id pool_type_eq_dec (sp_id b') (sp_id b)) eqn:E'; [|reflexivity].
    apply SharedFacts.same_id_spec in E'. exfalso. apply Hn. rewrite <- E'.
    apply in_map, Hb'.
  - rewrite IH by exact Hd. reflexivity.
Qed.

Lemma NoDup_map_filter (f : drm_page_pool pool_type -> pool_type) p l :
  NoDup (map f l) -> NoDup (map f (filter p l)).
Proof.
  induction l as [|b l IH]; cbn [filter map]; intros H; [constructor|].
  inversion H as [|? ? Hn Hd]; subst.
  destruct (p b); [|apply IH, Hd]. cbn [map]. constructor; [|apply IH, Hd].
  intros Hin. apply Hn. apply in_map_iff in Hin as (b' & E & Hb').
  apply filter_In in Hb' as [Hb' _]. rewrite <- E. apply in_map, Hb'.
Qed.

Lemma filter_filter' {A} (p q : A -> bool) l :
  filter p (filter q l) = filter (fun a => q a && p a) l.
Proof.
  induction l as [|a l IH]; cbn; [reflexivity|].
  destruct (q a); cbn; [destruct (p a)|]; rewrite ?IH; reflexivity.
Qed.

Lemma fini_fold ts (x : sstate) :
  NoDup (map sp_id (shrinker_list x)) ->
  shrinker_list (fold_left (fun x t => ttm_pool_type_fini t x) ts x) =
    filter (fun b => negb (in_types ts (sp_id b))) (shrinker_list x) /\
  (inv2 x -> inv2 (fold_left (fun x t => ttm_pool_type_fini t x) ts x)).
Proof.
  revert x. induction ts as [|t ts IH]; intros x Hd; cbn [fold_left].
  - split; [|auto]. symmetry. apply forallb_filter_id, forallb_forall. reflexivity.
  - destruct (IH (ttm_pool_type_fini t x)) as [H1 H2].
    + rewrite fini_list, delete_filter by exact Hd. apply NoDup_map_filter, Hd.
    + split.
      * rewrite H1, fini_list, delete_filter, filter_filter' by exact Hd.
        apply filter_ext. intros b. unfold in_types. cbn [existsb].
        destruct (same_id pool_type_eq_dec (sp_id b) t); reflexivity.
      * intros Hi. apply H2. apply (SharedFacts.fini_props pool_type pool_type_eq_dec t x), Hi.
Qed.

Lemma sum_page_count_filter (f : drm_page_pool pool_type -> bool) l :
  sum_page_count l = sum_page_count (filter f l) + sum_page_count (filter (fun b => negb (f b)) l).
Proof.
  induction l as [|b l IH]; cbn; [reflexivity|].
  destruct (f b); cbn; lia.
Qed.




Lemma own_types_NoDup : NoDup own_types.
Proof.
  cbn. repeat constructor; cbn; intros H;
    repeat (destruct H as [H|H]; [discriminate H|]); exact H.
Qed.

Lemma in_types_In ts t : in_types ts t = true <-> In t ts.
Proof.
  unfold in_types. rewrite existsb_exists. split.
  - intros (u & Hu & E). apply SharedFacts.same_id_spec in E. subst. exact Hu.
  - intros H. exists t. split; [exact H | apply SharedFacts.same_id_refl].
Qed.

Lemma init_fold_inv2 ts (x : sstate) :
  inv2 x -> inv2 (fold_left (fun x t => drm_page_pool_init t (pool_type_order t) x) ts x).
Proof.
  revert x. induction ts as [|t ts IH]; intros x H; cbn [fold_left]; [exact H|].
  apply IH. apply (SharedFacts.init_props pool_type t (pool_type_order t) x), H.
Qed.

Lemma filter_none {A} (f : A -> bool) l :
  (forall a, In a l -> f a = false) -> filter f l = [].
Proof.
  induction l as [|a l IH]; cbn; intros H; [reflexivity|].
  rewrite H by (left; reflexivity). apply IH. intros b Hb. apply H. right. exact Hb.
Qed.

Lemma map_id_empty ts : map sp_id (map empty_bucket ts) = ts.
Proof. rewrite map_map. apply map_id. Qed.

Lemma typed_empty ts :
  Forall (fun b => order b = pool_type_order (sp_id b)) (map empty_bucket ts).
Proof. apply Forall_forall. intros b Hb. apply in_map_iff in Hb as (t & <- & _). reflexivity. Qed.

(** bucket growth along a registry *)
Lemma grows_refl_one (b : drm_page_pool pool_type) : bucket_grows b b.
Proof. unfold bucket_grows. split; [reflexivity | split; [reflexivity | intros q Hq; exact Hq]]. Qed.

Lemma grows_refl (l : list (drm_page_pool pool_type)) : Forall2 bucket_grows l l.
Proof.
  induction l as [|b l IH]; constructor; [|exact IH].
  apply grows_refl_one.
Qed.

Lemma grows_trans (l1 l2 l3 : list (drm_page_pool pool_type)) :
  Forall2 bucket_grows l1 l2 -> Forall2 bucket_grows l2 l3 -> Forall2 bucket_grows l1 l3.
Proof.
  intros H12. revert l3. induction H12 as [|a b l1 l2 Hab H IH]; intros l3 H23;
    inversion H23 as [|? c ? l3' Hbc H']; subst; constructor.
  - destruct Hab as (A1 & A2 & A3), Hbc as (B1 & B2 & B3).
    split; [congruence | split; [congruence|]]. intros q Hq. apply B3, A3, Hq.
  - apply IH, H'.
Qed.

Lemma replace_grows t (l : list (drm_page_pool pool_type)) b b' :
  find_pool pool_type_eq_dec t l = Some b -> bucket_grows b b' -> sp_id b' = t ->
  Forall2 bucket_grows l (replace_pool pool_type_eq_dec b' l).
Proof.
  induction l as [|b0 l IH]; cbn; [discriminate|]. intros F G Hid. rewrite Hid.
  destruct (same_id pool_type_eq_dec (sp_id b0) t).
  - injection F as <-. constructor; [exact G | apply grows_refl].
  - constructor; [apply grows_refl_one | apply IH; assumption].
Qed.

Lemma grows_find t (l l' : list (drm_page_pool pool_type)) b :
  find_pool pool_type_eq_dec t l = Some b -> Forall2 bucket_grows l l' ->
  exists b', find_pool pool_type_eq_dec t l' = Some b' /\ bucket_grows b b'.
Proof.
  intros F H. revert F. induction H as [|a a' l l' Ha H IH]; cbn; [discriminate|].
  destruct Ha as (E & Ho & Hi). rewrite E.
  destruct (same_id pool_type_eq_dec (sp_id a) t).
  - intros [= <-]. exists a'. split; [reflexivity | split; [exact E | split; assumption]].
  - exact IH.
Qed.

Lemma grows_in (l l' : list (drm_page_pool pool_type)) b :
  In b l -> Forall2 bucket_grows l l' -> exists b', In b' l' /\ bucket_grows b b'.
Proof.
  intros Hb H. induction H as [|a a' l l' Ha H IH]; [destruct Hb|].
  destruct Hb as [<-|Hb].
  - exists a'. split; [left; reflexivity | exact Ha].
  - destruct (IH Hb) as (b' & Hb' & G). exists b'. split; [right; exact Hb' | exact G].
Qed.

Lemma grows_typed (l l' : list (drm_page_pool pool_type)) :
  Forall (fun b => order b = pool_type_order (sp_id b)) l -> Forall2 bucket_grows l l' ->
  Forall (fun b => order b = pool_type_order (sp_id b)) l'.
Proof.
  intros T H. induction H as [|a a' l l' Ha H IH]; constructor.
  - destruct Ha as (E & Ho & _). rewrite E, Ho. exact (Forall_inv T).
  - apply IH, (Forall_inv_tail T).
Qed.

Lemma grows_ids (l l' : list (drm_page_pool pool_type)) :
  Forall2 bucket_grows l l' -> map sp_id l' = map sp_id l.
Proof.
  intros H. induction H as [|a a' l l' (E & _) H IH]; cbn; [reflexivity|]. rewrite E, IH. reflexivity.
Qed.

Section Free.
Variable config_x86 : bool.
Variable PageHighMem : nat -> bool.

(** drm_page_pool_add without a size limit, into a registered bucket *)
Lemma add_no_limit t p (x : sstate) b :
  page_pool_size x = 0 -> find_pool pool_type_eq_dec t (shrinker_list x) = Some b ->
  drm_page_pool_add pool_type_eq_dec PageHighMem t p x =
    Some (add_run pool_type_eq_dec PageHighMem t p x).
Proof.
  intros Hz F. unfold drm_page_pool_add, trim_fuel. cbn [Nat.mul].
  apply SharedProps.trim_zero. rewrite (proj1 (SharedFacts.add_run_props _ _ _ _ _ _)). exact Hz.
Qed.

Lemma free_loop_pools pool c D fuel s :
  (length (flat_map run_pages D) <= fuel)%nat -> array_orders D s ->
  page_pool_size (sp s) = 0 ->
  Forall (fun b => order b = pool_type_order (sp_id b)) (shrinker_list (sp s)) ->
  (forall p o, In (p, o) D -> exists t b, ttm_pool_select_type config_x86 pool c o = Some t /\
     find_pool pool_type_eq_dec t (shrinker_list (sp s)) = Some b) ->
  exists s', free_loop config_x86 PageHighMem fuel pool c (flat_map run_pages D) s = Some s' /\
    priv s' = priv s /\ ncalls s' = ncalls s /\ tlog s' = tlog s /\
    page_pool_size (sp s') = 0 /\
    nr_managed_pages (sp s') = nr_managed_pages (sp s) + sum_run_pages D /\
    Forall2 bucket_grows (shrinker_list (sp s)) (shrinker_list (sp s')) /\
    (forall p o, In (p, o) D ->
       exists b, In b (shrinker_list (sp s')) /\ In p (pages b) /\ order b = o).
Proof.
  revert fuel s. induction D as [|[p o] D IH]; intros fuel s Hf HD Hz T HF.
  - cbn [flat_map sum_run_pages]. exists s.
    assert (E : free_loop config_x86 PageHighMem fuel pool c [] s = Some s)
      by (destruct fuel; reflexivity).
    rewrite E. repeat split; try reflexivity; try lia; try exact Hz.
    + apply grows_refl.
    + intros q o' [].
  - cbn [flat_map] in *. unfold run_pages in Hf. unfold run_pages at 1. cbn [fst snd] in *.
    rewrite length_app, length_seq in Hf. pose proof (TtmFacts.pow2_pos o) as Hpos.
    destruct fuel as [|f]; [lia|].
    destruct (HF p o (or_introl eq_refl)) as (t & b & Sel & F).
    pose proof (TtmFacts.select_type_order config_x86 pool c o t Sel) as Ot.
    destruct (SharedFacts.shared_find_pool_some pool_type pool_type_eq_dec _ _ _ F) as [Hb Hid].
    assert (Ob : order b = o).
    { rewrite (proj1 (Forall_forall _ _) T b Hb), Hid. exact Ot. }
    destruct (2 ^ o)%nat as [|k] eqn:E; [lia|]. cbn [seq app free_loop].
    rewrite (HD p o) by (left; reflexivity). rewrite Sel.
    rewrite (add_no_limit t p (sp s) b Hz F).
    rewrite E.
    change (p :: seq (S p) k ++ flat_map run_pages D)
      with (seq p (S k) ++ flat_map run_pages D).
    rewrite skipn_app, skipn_all2 by (rewrite length_seq; lia).
    rewrite length_seq, Nat.sub_diag. cbn [skipn app].
    set (b1 := {| sp_id := t; order := order b; pages := p :: pages b;
                  page_count := page_count b + pages_of (order b) |}).
    assert (G1 : Forall2 bucket_grows (shrinker_list (sp s))
                   (shrinker_list (sp (set_sp s (add_run pool_type_eq_dec PageHighMem t p (sp s)))))).
    { cbn [sp set_sp]. unfold add_run. rewrite F. cbn [shrinker_list].
      apply (replace_grows t _ b); [exact F | | reflexivity].
      unfold bucket_grows. cbn [sp_id order pages].
      split; [exact (eq_sym Hid) | split; [reflexivity | intros q Hq; right; exact Hq]]. }
    destruct (IH f (set_sp s (add_run pool_type_eq_dec PageHighMem t p (sp s))))
      as (s' & R & P' & C' & L' & Z' & N' & G' & M').
    + fold run_pages in Hf. lia.
    + intros q o' Hq. cbn. apply HD. right. exact Hq.
    + cbn [sp set_sp]. rewrite (proj1 (SharedFacts.add_run_props _ _ _ _ _ _)). exact Hz.
    + exact (grows_typed _ _ T G1).
    + intros q o' Hq. destruct (HF q o' (or_intror Hq)) as (t' & b' & S' & F').
      destruct (grows_find _ _ _ _ F' G1) as (b'' & F'' & _).
      exists t', b''. split; assumption.
    + exists s'. rewrite R. cbn [priv ncalls tlog set_sp] in P', C', L'.
      split; [reflexivity|]. split; [exact P'|]. split; [exact C'|]. split; [exact L'|].
      split; [exact Z'|]. split; [|split].
      * rewrite N'. cbn [sp set_sp]. unfold add_run. rewrite F. cbn [nr_managed_pages sum_run_pages].
        rewrite Ob. lia.
      * exact (grows_trans _ _ _ G1 G').
      * intros q o' [Hq|Hq].
        -- injection Hq as <- <-.
           assert (Hb1 : In b1 (shrinker_list (sp (set_sp s (add_run pool_type_eq_dec PageHighMem t p (sp s)))))).
           { cbn [sp set_sp]. unfold add_run. rewrite F. cbn [shrinker_list].
             apply SharedFacts.shared_find_pool_some with pool_type_eq_dec t.
             apply SharedFacts.shared_find_replace with b; [exact F | reflexivity]. }
           destruct (grows_in _ _ _ Hb1 G') as (b2 & Hb2 & (_ & O2 & I2)).
           exists b2. split; [exact Hb2|]. split.
           ++ apply I2. left. reflexivity.
           ++ rewrite O2. exact Ob.
        -- exact (M' q o' Hq).
Qed.

Lemma free_loop_release pool c D fuel s :
  (length (flat_map run_pages D) <= fuel)%nat -> array_orders D s ->
  (forall o, ttm_pool_select_type config_x86 pool c o = None) ->
  free_loop config_x86 PageHighMem fuel pool c (flat_map run_pages D) s =
    Some {| sp := sp s; priv := priv s; ncalls := ncalls s; tlog := tlog s ++ map free_ev D |}.
Proof.
  intros Hf HD Hn. revert fuel s Hf HD. induction D as [|[p o] D IH]; intros fuel s Hf HD.
  - destruct fuel; cbn; rewrite app_nil_r; destruct s; reflexivity.
  - cbn [flat_map] in *. unfold run_pages in Hf. unfold run_pages at 1. cbn [fst snd] in *.
    rewrite length_app, length_seq in Hf. pose proof (TtmFacts.pow2_pos o) as Hpos.
    destruct fuel as [|f]; [lia|].
    destruct (2 ^ o)%nat as [|k] eqn:E; [lia|]. cbn [seq app free_loop].
    rewrite (HD p o) by (left; reflexivity). rewrite Hn, E.
    change (p :: seq (S p) k ++ flat_map run_pages D)
      with (seq p (S k) ++ flat_map run_pages D).
    rewrite skipn_app, skipn_all2 by (rewrite length_seq; lia).
    rewrite length_seq, Nat.sub_diag. cbn [skipn app].
    rewrite IH.
    + cbn. rewrite <- app_assoc. reflexivity.
    + fold run_pages in Hf. lia.
    + intros q o' Hq. cbn. apply HD. right. exact Hq.
Qed.

End Free.


(** X9: when the registered bucket ids are distinct and the counter equals
    the sum of the page_count fields, ttm_pool_mgr_fini unregisters exactly
    the buckets of the global pool types and keeps the others in order; the
    pooled-page counter drops by the pages those buckets held, and the
    counter still equals the sum of the remaining page_count fields. *)
Theorem ttm_mgr_fini_unregisters x :
  NoDup (map sp_id (shrinker_list x)) -> inv2 x ->
  shrinker_list (ttm_pool_mgr_fini x) =
    filter (fun b => negb (in_types global_types (sp_id b))) (shrinker_list x) /\
  nr_managed_pages (ttm_pool_mgr_fini x) =
    nr_managed_pages x -
    sum_page_count (filter (fun b => in_types global_types (sp_id b)) (shrinker_list x)) /\
  inv2 (ttm_pool_mgr_fini x).
Proof.
  intros Hd Hi. rewrite mgr_fini_unfold.
  destruct (fini_fold global_types x Hd) as [L I].
  pose proof (I Hi) as [_ N]. pose proof Hi as [_ N0].
  split; [exact L|]. split; [|exact (I Hi)].
  rewrite N, L, N0.
  rewrite (sum_page_count_filter (fun b => in_types global_types (sp_id b)) (shrinker_list x)).
  lia.
Qed.

(** X10: ttm_pool_init registers, for a pool with use_dma_alloc, one empty
    bucket per caching type and order below MAX_ORDER after the buckets
    already registered, and changes nothing otherwise.  If the registered
    bucket ids are distinct, none is one of the pool's own types, and the
    counter equals the sum of the page_count fields, then ttm_pool_fini on the
    result restores the registry and the counter. *)
Theorem ttm_pool_init_fini_roundtrip dma_alloc dma32 x :
  NoDup (map sp_id (shrinker_list x)) -> inv2 x ->
  Forall (fun b => in_types own_types (sp_id b) = false) (shrinker_list x) ->
  shrinker_list (snd (ttm_pool_init dma_alloc dma32 x)) =
    shrinker_list x ++ (if dma_alloc then map empty_bucket own_types else []) /\
  nr_managed_pages (snd (ttm_pool_init dma_alloc dma32 x)) = nr_managed_pages x /\
  shrinker_list (ttm_pool_fini (fst (ttm_pool_init dma_alloc dma32 x))
                   (snd (ttm_pool_init dma_alloc dma32 x))) = shrinker_list x /\
  nr_managed_pages (ttm_pool_fini (fst (ttm_pool_init dma_alloc dma32 x))
                   (snd (ttm_pool_init dma_alloc dma32 x))) = nr_managed_pages x.
Proof.
  intros Hd Hi Ho. destruct dma_alloc.
  2:{ cbn [ttm_pool_init ttm_pool_fini fst snd use_dma_alloc].
      rewrite app_nil_r. repeat split; reflexivity. }
  rewrite pool_fini_unfold by reflexivity. rewrite pool_init_unfold.
  pose proof (init_fold_inv2 own_types x Hi) as Hi1.
  rewrite init_fold in *. cbn [with_list shrinker_list nr_managed_pages] in *.
  set (y := with_list x (shrinker_list x ++ map empty_bucket own_types)
              (nr_managed_pages x) (log x)) in *.
  assert (Hdy : NoDup (map sp_id (shrinker_list y))).
  { cbn [y with_list shrinker_list]. rewrite map_app, map_id_empty.
    apply NoDup_app; [exact Hd | exact own_types_NoDup |].
    intros t Ht Ht'. apply in_map_iff in Ht as (b & <- & Hb).
    apply (in_types_In own_types) in Ht'. rewrite (proj1 (Forall_forall _ _) Ho b Hb) in Ht'.
    discriminate. }
  destruct (fini_fold own_types y Hdy) as [L I].
  assert (L' : shrinker_list (fold_left (fun x t => ttm_pool_type_fini t x) own_types y) =
               shrinker_list x).
  { rewrite L. cbn [y with_list shrinker_list]. rewrite filter_app, (filter_none _ (map empty_bucket own_types)), app_nil_r.
    - apply forallb_filter_id, forallb_forall. intros b Hb.
      rewrite (proj1 (Forall_forall _ _) Ho b Hb). reflexivity.
    - intros b Hb. apply in_map_iff in Hb as (t & <- & Ht). cbn [empty_bucket sp_id].
      apply negb_false_iff, in_types_In, Ht. }
  split; [reflexivity|]. split; [reflexivity|]. split; [exact L'|].
  destruct (I Hi1) as [_ N]. destruct Hi as [_ N0]. rewrite N, L', N0. reflexivity.
Qed.

(** X11: ttm_pool_free on an array of runs [D] (each run's pages consecutive,
    its order recorded) returns every run to a bucket when there is no pool
    size limit, every registered bucket holds runs of its pool type's order,
    and each run's pool type has a registered bucket.  The counter grows by
    the runs' base pages; no page is freed, the bucket ids and orders are
    kept, and each run's first page is linked in a bucket of the run's
    order. *)
Theorem ttm_free_pools_runs config_x86 PageHighMem pool tt D s :
  array_orders D s -> page_pool_size (sp s) = 0 ->
  Forall (fun b => order b = pool_type_order (sp_id b)) (shrinker_list (sp s)) ->
  (forall p o, In (p, o) D -> exists t b,
     ttm_pool_select_type config_x86 pool (tt_caching tt) o = Some t /\
     find_pool pool_type_eq_dec t (shrinker_list (sp s)) = Some b) ->
  exists s', ttm_pool_free config_x86 PageHighMem pool tt (flat_map run_pages D) s = Some s' /\
    tlog s' = tlog s /\ priv s' = priv s /\
    nr_managed_pages (sp s') = nr_managed_pages (sp s) + sum_run_pages D /\
    map sp_id (shrinker_list (sp s')) = map sp_id (shrinker_list (sp s)) /\
    Forall (fun b => order b = pool_type_order (sp_id b)) (shrinker_list (sp s')) /\
    (forall p o, In (p, o) D ->
       exists b, In b (shrinker_list (sp s')) /\ In p (pages b) /\ order b = o).
Proof.
  intros HD Hz T HF. unfold ttm_pool_free.
  destruct (free_loop_pools config_x86 PageHighMem pool (tt_caching tt) D
              (length (flat_map run_pages D)) s (le_n _) HD Hz T HF)
    as (s' & R & P & _ & L & _ & N & G & M).
  exists s'. split; [exact R|]. split; [exact L|]. split; [exact P|]. split; [exact N|].
  split; [exact (grows_ids _ _ G)|]. split; [exact (grows_typed _ _ T G) | exact M].
Qed.

(** X12: for a pool without use_dma_alloc whose caching is ttm_cached, or on a
    build without CONFIG_X86, ttm_pool_select_type finds no bucket, and
    ttm_pool_free passes every run of the array to ttm_pool_free_page once,
    in array order, leaving the buckets and the counter unchanged. *)
Theorem ttm_free_releases_runs config_x86 PageHighMem pool tt D s :
  use_dma_alloc pool = false -> config_x86 = false \/ tt_caching tt = ttm_cached ->
  array_orders D s ->
  ttm_pool_free config_x86 PageHighMem pool tt (flat_map run_pages D) s =
    Some {| sp := sp s; priv := priv s; ncalls := ncalls s; tlog := tlog s ++ map free_ev D |}.
Proof.
  intros Hd Hc HD. unfold ttm_pool_free. apply free_loop_release; [lia | exact HD |].
  intros o. unfold ttm_pool_select_type. rewrite Hd.
  destruct Hc as [-> | ->]; [reflexivity|]. destruct config_x86; reflexivity.
Qed.


Lemma ttm_mgr_fini_unregisters_witness :
  map sp_id (shrinker_list (ttm_pool_mgr_fini Scenarios2.ttm_x1)) = [PoolOwn ttm_cached 2] /\
  nr_managed_pages (ttm_pool_mgr_fini Scenarios2.ttm_x1) = 4.
Proof.
  destruct (ttm_mgr_fini_unregisters Scenarios2.ttm_x1
              ltac:(constructor; [intros [H|[]]; discriminate H | constructor; [intros [] | constructor]])
              ltac:(split; [repeat constructor | reflexivity]))
    as (L & N & _).
  rewrite L, N. split; reflexivity.
Defined.

Lemma ttm_pool_init_fini_roundtrip_witness :
  length (shrinker_list (snd (ttm_pool_init true false Scenarios2.ttm_x2))) = 34%nat /\
  shrinker_list (ttm_pool_fini (fst (ttm_pool_init true false Scenarios2.ttm_x2))
                   (snd (ttm_pool_init true false Scenarios2.ttm_x2))) =
    shrinker_list Scenarios2.ttm_x2 /\
  nr_managed_pages (ttm_pool_fini (fst (ttm_pool_init true false Scenarios2.ttm_x2))
                   (snd (ttm_pool_init true false Scenarios2.ttm_x2))) = 1.
Proof.
  destruct (ttm_pool_init_fini_roundtrip true false Scenarios2.ttm_x2
              ltac:(constructor; [intros [] | constructor])
              ltac:(split; [repeat constructor | reflexivity])
              ltac:(repeat constructor))
    as (L & _ & L' & N').
  split; [rewrite L; reflexivity|]. split; [exact L' | exact N'].
Defined.

Lemma ttm_free_pools_runs_witness :
  exists s', ttm_pool_free true (fun _ => false) {| use_dma_alloc := false; use_dma32 := false |}
               {| tt_num_pages := 3; tt_caching := ttm_write_combined;
                  has_dma_address := false; zero_alloc := false |} [4; 5; 9]%nat Scenarios2.ttm_s0
             = Some s' /\ nr_managed_pages (sp s') = 3.
Proof.
  destruct (ttm_free_pools_runs true (fun _ => false) {| use_dma_alloc := false; use_dma32 := false |}
              {| tt_num_pages := 3; tt_caching := ttm_write_combined;
                 has_dma_address := false; zero_alloc := false |} [(4, 1); (9, 0)]%nat Scenarios2.ttm_s0
              ltac:(intros p o [H|[H|[]]]; injection H as <- <-; reflexivity)
              eq_refl
              ltac:(vm_compute; repeat constructor)
              ltac:(intros p o [H|[H|[]]]; injection H as <- <-; eexists; eexists; split; reflexivity))
    as (s' & R & _ & _ & N & _).
  exists s'. split; [exact R | rewrite N; reflexivity].
Defined.

Lemma ttm_free_releases_runs_witness :
  ttm_pool_free true (fun _ => false) {| use_dma_alloc := false; use_dma32 := false |}
    {| tt_num_pages := 3; tt_caching := ttm_cached;
       has_dma_address := false; zero_alloc := false |} [4; 5; 9]%nat Scenarios2.ttm_s0 =
  Some {| sp := sp Scenarios2.ttm_s0; priv := priv Scenarios2.ttm_s0; ncalls := 0;
          tlog := [TFree 4 1; TFree 9 0] |}.
Proof.
  exact (ttm_free_releases_runs true (fun _ => false) {| use_dma_alloc := false; use_dma32 := false |}
           {| tt_num_pages := 3; tt_caching := ttm_cached;
              has_dma_address := false; zero_alloc := false |} [(4, 1); (9, 0)]%nat Scenarios2.ttm_s0
           eq_refl (or_intror eq_refl)
           ltac:(intros p o [H|[H|[]]]; injection H as <- <-; reflexivity)).
Defined.

End TtmProps.

(* ================================================================== *)
(** * The dynamic page pool: allocation, free, destroy and shrink *)
Module DynamicProps.
Import Dynamic DynamicApi DynamicFacts.
Local Open Scope Z_scope.

Lemma count_zero_nil pool i :
  count pool i = Z.of_nat (length (items pool i)) ->
  (count pool i =? 0) = true -> items pool i = [].
Proof.
  intros H E. apply Z.eqb_eq in E. destruct (items pool i); [reflexivity|].
  cbn in H. lia.
Qed.

Lemma count_cons_neq pool i p r :
  count pool i = Z.of_nat (length (items pool i)) -> items pool i = p :: r ->
  (count pool i =? 0) = false.
Proof. intros H E. rewrite E in H. cbn in H. apply Z.eqb_neq. lia. Qed.

Lemma count_zero_nil_rev pool i :
  count pool i = Z.of_nat (length (items pool i)) -> items pool i = [] ->
  (count pool i =? 0) = true.
Proof. intros H E. rewrite E in H. cbn in H. rewrite H. reflexivity. Qed.

Lemma remove_cons pool i p r :
  count pool i = Z.of_nat (length (items pool i)) -> items pool i = p :: r ->
  dynamic_page_pool_remove pool i =
    (Some p, {| count := set_index (count pool) i (count pool i - 1);
                items := set_index (items pool) i r;
                order := order pool; mem := mem pool; freed := freed pool |}).
Proof.
  intros H E. unfold dynamic_page_pool_remove.
  rewrite (count_cons_neq pool i p r H E), E. reflexivity.
Qed.

(** dynamic_page_pool_fetch only reads the two clean lists *)
Lemma fetch_fst_ext pool pool' :
  items pool' POOL_HIGHPAGE = items pool POOL_HIGHPAGE ->
  count pool' POOL_HIGHPAGE = count pool POOL_HIGHPAGE ->
  items pool' POOL_LOWPAGE = items pool POOL_LOWPAGE ->
  count pool' POOL_LOWPAGE = count pool POOL_LOWPAGE ->
  fst (dynamic_page_pool_fetch pool') = fst (dynamic_page_pool_fetch pool).
Proof.
  intros I1 C1 I2 C2. unfold dynamic_page_pool_fetch, dynamic_page_pool_remove.
  rewrite I1, C1, I2, C2.
  destruct (count pool POOL_HIGHPAGE =? 0), (count pool POOL_LOWPAGE =? 0); cbn [negb];
    destruct (items pool POOL_HIGHPAGE), (items pool POOL_LOWPAGE); reflexivity.
Qed.

(** the [while (pool->count[i])] loop drains list [i] to __free_pages *)
Lemma destroy_drain_all fuel i pool :
  count pool i = Z.of_nat (length (items pool i)) ->
  (length (items pool i) < fuel)%nat ->
  exists pool', destroy_drain fuel i pool = Some pool' /\
    freed pool' = freed pool ++ items pool i /\
    items pool' i = [] /\ count pool' i = 0 /\
    (forall j, j <> i -> items pool' j = items pool j /\ count pool' j = count pool j) /\
    mem pool' = mem pool /\ order pool' = order pool.
Proof.
  revert pool. induction fuel as [|f IH]; intros pool Hc Hf; [lia|].
  case_eq (items pool i); [intros E | intros p r E].
  - exists pool. cbn [destroy_drain]. rewrite Hc, E. cbn. rewrite app_nil_r.
    repeat split; auto.
  - cbn [destroy_drain]. rewrite (count_cons_neq pool i p r Hc E), (remove_cons pool i p r Hc E).
    destruct (IH (dynamic_page_pool_free_pages
                    {| count := set_index (count pool) i (count pool i - 1);
                       items := set_index (items pool) i r;
                       order := order pool; mem := mem pool; freed := freed pool |} p))
      as (pool' & D & F & I & C & O & M & Or).
    + cbn. rewrite !set_index_same, Hc, E. cbn [length]. lia.
    + cbn. rewrite set_index_same. rewrite E in Hf. cbn [length] in Hf. lia.
    + exists pool'. split; [exact D|]. split.
      * rewrite F. cbn. rewrite set_index_same, <- app_assoc. reflexivity.
      * split; [exact I|]. split; [exact C|]. split; [|split].
        -- intros j Hj. destruct (O j Hj) as [O1 O2].
           cbn [count items dynamic_page_pool_free_pages] in O1, O2.
           rewrite set_index_other in O1 by exact Hj.
           rewrite set_index_other in O2 by exact Hj. split; assumption.
        -- rewrite M. reflexivity.
        -- rewrite Or. reflexivity.
Qed.

Lemma drain_index_all pool i :
  count pool i = Z.of_nat (length (items pool i)) ->
  exists pool', drain_index pool i = Some pool' /\
    freed pool' = freed pool ++ items pool i /\
    items pool' i = [] /\ count pool' i = 0 /\
    (forall j, j <> i -> items pool' j = items pool j /\ count pool' j = count pool j) /\
    mem pool' = mem pool /\ order pool' = order pool.
Proof.
  intros Hc. apply destroy_drain_all; [exact Hc | rewrite Hc, Nat2Z.id; lia].
Qed.

Lemma remove_counts_ok pool i p r :
  counts_ok pool -> items pool i = p :: r ->
  counts_ok {| count := set_index (count pool) i (count pool i - 1);
               items := set_index (items pool) i r;
               order := order pool; mem := mem pool; freed := freed pool |}.
Proof.
  intros Hc E j. cbn [count items]. unfold set_index.
  destruct (index_eqb j i) eqn:J; [|apply Hc].
  apply index_eqb_spec in J. subst j. rewrite (Hc i), E. cbn [length]. lia.
Qed.

Lemma free_pages_counts_ok pool page :
  counts_ok pool -> counts_ok (dynamic_page_pool_free_pages pool page).
Proof. intros Hc j. apply Hc. Qed.

(** the [while (freed < nr_to_scan)] loop without highmem: low dirty pages
    first, then low clean pages *)
Lemma do_shrink_loop_low fuel nr f0 pool :
  counts_ok pool ->
  f0 - pages_of (order pool) < nr -> (Z.to_nat (nr - f0) < fuel)%nat ->
  exists k pool', do_shrink_loop fuel false nr f0 pool =
      Some (f0 + Z.of_nat k * pages_of (order pool), pool') /\
    freed pool' = freed pool ++
      firstn k (items pool POOL_LOWDEFERRED ++ items pool POOL_LOWPAGE) /\
    items pool' POOL_LOWDEFERRED ++ items pool' POOL_LOWPAGE =
      skipn k (items pool POOL_LOWDEFERRED ++ items pool POOL_LOWPAGE) /\
    (k = length (items pool POOL_LOWDEFERRED ++ items pool POOL_LOWPAGE) \/
     nr <= f0 + Z.of_nat k * pages_of (order pool)) /\
    f0 + (Z.of_nat k - 1) * pages_of (order pool) < nr /\
    items pool' POOL_HIGHPAGE = items pool POOL_HIGHPAGE /\
    items pool' POOL_HIGHDEFERRED = items pool POOL_HIGHDEFERRED /\
    counts_ok pool' /\ order pool' = order pool /\ mem pool' = mem pool.
Proof.
  revert f0 pool. induction fuel as [|f IH]; intros f0 pool Hc Hlo Hf; [lia|].
  pose proof (pages_of_pos (order pool)) as Hpos.
  cbn [do_shrink_loop andb].
  destruct (f0 <? nr) eqn:Lt.
  2:{ apply Z.ltb_ge in Lt. exists O, pool. rewrite Z.add_0_r. split; [reflexivity|].
      cbn [firstn skipn]. rewrite app_nil_r. repeat split; auto; lia. }
  apply Z.ltb_lt in Lt.
  (* one removal from list [i], then the loop goes on *)
  assert (Step : forall i p r,
    (i = POOL_LOWDEFERRED \/ (i = POOL_LOWPAGE /\ items pool POOL_LOWDEFERRED = [])) ->
    items pool i = p :: r ->
    exists k pool', do_shrink_loop f false nr (f0 + pages_of (order pool))
        (dynamic_page_pool_free_pages
           {| count := set_index (count pool) i (count pool i - 1);
              items := set_index (items pool) i r;
              order := order pool; mem := mem pool; freed := freed pool |} p) =
      Some (f0 + Z.of_nat k * pages_of (order pool), pool') /\
    freed pool' = freed pool ++
      firstn k (items pool POOL_LOWDEFERRED ++ items pool POOL_LOWPAGE) /\
    items pool' POOL_LOWDEFERRED ++ items pool' POOL_LOWPAGE =
      skipn k (items pool POOL_LOWDEFERRED ++ items pool POOL_LOWPAGE) /\
    (k = length (items pool POOL_LOWDEFERRED ++ items pool POOL_LOWPAGE) \/
     nr <= f0 + Z.of_nat k * pages_of (order pool)) /\
    f0 + (Z.of_nat k - 1) * pages_of (order pool) < nr /\
    items pool' POOL_HIGHPAGE = items pool POOL_HIGHPAGE /\
    items pool' POOL_HIGHDEFERRED = items pool POOL_HIGHDEFERRED /\
    counts_ok pool' /\ order pool' = order pool /\ mem pool' = mem pool).
  { intros i p r Hi E.
    set (pool1 := dynamic_page_pool_free_pages
           {| count := set_index (count pool) i (count pool i - 1);
              items := set_index (items pool) i r;
              order := order pool; mem := mem pool; freed := freed pool |} p).
    destruct (IH (f0 + pages_of (order pool)) pool1)
      as (k & pool' & R & F & I & Stop & Lo & IH1 & IH2 & C & O & M).
    + apply free_pages_counts_ok, (remove_counts_ok pool i p r Hc E).
    + unfold pool1. cbn [order dynamic_page_pool_free_pages]. lia.
    + unfold pool1. cbn [order dynamic_page_pool_free_pages]. lia.
    + assert (Split : items pool POOL_LOWDEFERRED ++ items pool POOL_LOWPAGE =
                      p :: (items pool1 POOL_LOWDEFERRED ++ items pool1 POOL_LOWPAGE)).
      { unfold pool1. destruct Hi as [-> | [-> Hn]];
          cbn [items dynamic_page_pool_free_pages set_index index_eqb];
          rewrite ?Hn, E; reflexivity. }
      assert (Hh : i <> POOL_HIGHPAGE /\ i <> POOL_HIGHDEFERRED)
        by (destruct Hi as [-> | [-> _]]; split; discriminate).
      assert (Op1 : order pool1 = order pool) by reflexivity.
      assert (F1 : freed pool1 = freed pool ++ [p]) by reflexivity.
      assert (M1 : mem pool1 = mem pool) by reflexivity.
      assert (H1 : items pool1 POOL_HIGHPAGE = items pool POOL_HIGHPAGE)
        by (apply set_index_other, not_eq_sym, Hh).
      assert (H2 : items pool1 POOL_HIGHDEFERRED = items pool POOL_HIGHDEFERRED)
        by (apply set_index_other, not_eq_sym, Hh).
      rewrite Op1 in R, Lo, Stop, O.
      exists (S k), pool'.
      split; [rewrite R; f_equal; f_equal; lia|].
      rewrite Split. cbn [firstn skipn length].
      split; [rewrite F, F1, <- app_assoc; reflexivity|].
      split; [exact I|].
      split; [destruct Stop as [Stop|Stop]; [left; rewrite Stop; reflexivity | right; lia]|].
      split; [destruct k; lia|].
      split; [rewrite IH1; exact H1|]. split; [rewrite IH2; exact H2|].
      split; [exact C|]. split; [exact O | rewrite M; exact M1]. }
  case_eq (items pool POOL_LOWDEFERRED); [intros ELD | intros p r ELD].
  - rewrite (count_zero_nil_rev pool POOL_LOWDEFERRED (Hc _) ELD). cbn [negb].
    case_eq (items pool POOL_LOWPAGE); [intros ELP | intros p r ELP].
    + rewrite (count_zero_nil_rev pool POOL_LOWPAGE (Hc _) ELP). cbn [negb].
      exists O, pool. rewrite Z.add_0_r. split; [reflexivity|].
      rewrite ELD, ELP. cbn. rewrite app_nil_r.
      repeat split; auto; lia.
    + rewrite (count_cons_neq pool POOL_LOWPAGE p r (Hc _) ELP). cbn [negb].
      rewrite (remove_cons pool POOL_LOWPAGE p r (Hc _) ELP).
      pose proof (Step POOL_LOWPAGE p r (or_intror (conj eq_refl ELD)) ELP) as St.
      rewrite ELD, ELP in St. exact St.
  - rewrite (count_cons_neq pool POOL_LOWDEFERRED p r (Hc _) ELD). cbn [negb].
    rewrite (remove_cons pool POOL_LOWDEFERRED p r (Hc _) ELD).
    pose proof (Step POOL_LOWDEFERRED p r (or_introl eq_refl) ELD) as St.
    rewrite ELD in St. exact St.
Qed.

(** count mode of the registry walk: every pool's total, nothing freed *)
Lemma shrink_loop_count kswapd g acc reg :
  shrink_loop kswapd g true 0 acc reg =
    Some (acc + fold_right (fun e t => dynamic_page_pool_total (snd e)
                                        (if kswapd then true else g) + t) 0 reg, reg).
Proof.
  revert acc. induction reg as [|[id pool] reg IH]; intros acc; cbn [shrink_loop fold_right].
  - rewrite Z.add_0_r. reflexivity.
  - unfold dynamic_page_pool_do_shrink. cbn [Z.eqb]. rewrite IH. cbn [snd].
    f_equal. f_equal. lia.
Qed.

Lemma dyn_do_shrink_low_aux pool nr :
  counts_ok pool -> 0 < nr ->
  exists k pool', dynamic_page_pool_do_shrink pool false false nr =
      Some (Z.of_nat k * pages_of (order pool), pool') /\
    freed pool' = freed pool ++
      firstn k (items pool POOL_LOWDEFERRED ++ items pool POOL_LOWPAGE) /\
    items pool' POOL_LOWDEFERRED ++ items pool' POOL_LOWPAGE =
      skipn k (items pool POOL_LOWDEFERRED ++ items pool POOL_LOWPAGE) /\
    (k = length (items pool POOL_LOWDEFERRED ++ items pool POOL_LOWPAGE) \/
     nr <= Z.of_nat k * pages_of (order pool)) /\
    (Z.of_nat k - 1) * pages_of (order pool) < nr /\
    items pool' POOL_HIGHPAGE = items pool POOL_HIGHPAGE /\
    items pool' POOL_HIGHDEFERRED = items pool POOL_HIGHDEFERRED /\
    counts_ok pool'.
Proof.
  intros Hc Hn. pose proof (pages_of_pos (order pool)) as Hpos.
  unfold dynamic_page_pool_do_shrink. cbn [andb].
  replace (nr =? 0) with false by (symmetry; apply Z.eqb_neq; lia).
  destruct (do_shrink_loop_low (S (Z.to_nat nr)) nr 0 pool Hc ltac:(lia)
              ltac:(rewrite Z.sub_0_r; lia))
    as (k & pool' & R & F & I & St & Lo & H1 & H2 & C & _ & _).
  exists k, pool'. rewrite R, Z.add_0_l. split; [reflexivity|].
  split; [exact F|]. split; [exact I|]. split; [destruct St; [left | right]; lia|].
  split; [lia|]. split; [exact H1|]. split; [exact H2 | exact C].
Qed.

Lemma Forall2_refl_dyn (reg : registry) :
  Forall2 (fun e e' => items (snd e') POOL_HIGHPAGE = items (snd e) POOL_HIGHPAGE /\
                       items (snd e') POOL_HIGHDEFERRED = items (snd e) POOL_HIGHDEFERRED)
    reg reg.
Proof. induction reg; constructor; auto. Qed.

(** scan mode of the registry walk without highmem *)
Lemma shrink_loop_scan_low nr acc reg :
  Forall (fun e => counts_ok (snd e)) reg -> 0 < nr ->
  exists t reg', shrink_loop false false false nr acc reg = Some (t, reg') /\
    map fst reg' = map fst reg /\ acc <= t /\
    Forall2 (fun e e' => items (snd e') POOL_HIGHPAGE = items (snd e) POOL_HIGHPAGE /\
                         items (snd e') POOL_HIGHDEFERRED = items (snd e) POOL_HIGHDEFERRED)
      reg reg' /\
    (nr <= t - acc \/
     Forall (fun e => items (snd e) POOL_LOWDEFERRED ++ items (snd e) POOL_LOWPAGE = []) reg').
Proof.
  revert nr acc. induction reg as [|[id pool] reg IH]; intros nr acc Hc Hn.
  - exists acc, []. cbn. split; [reflexivity|]. split; [reflexivity|].
    split; [lia|]. split; [constructor|]. right; constructor.
  - inversion Hc as [|? ? Hp Hr]; subst. cbn [snd] in Hp.
    pose proof (pages_of_pos (order pool)) as Hpos.
    destruct (dyn_do_shrink_low_aux pool nr Hp Hn)
      as (k & pool' & R & _ & I & St & _ & H1 & H2 & _).
    cbn [shrink_loop]. rewrite R.
    destruct (nr - Z.of_nat k * pages_of (order pool) <=? 0) eqn:Le.
    + apply Z.leb_le in Le. eexists; eexists. split; [reflexivity|].
      split; [reflexivity|]. split; [nia|].
      split; [constructor; [split; assumption | apply Forall2_refl_dyn]|].
      left. lia.
    + apply Z.leb_gt in Le.
      destruct (IH (nr - Z.of_nat k * pages_of (order pool))
                   (acc + Z.of_nat k * pages_of (order pool)) Hr ltac:(lia))
        as (t & reg' & R' & F' & A' & G' & S').
      rewrite R'. eexists; eexists. split; [reflexivity|].
      cbn [map fst]. rewrite F'. split; [reflexivity|]. split; [nia|].
      split; [constructor; [split; assumption | exact G']|].
      destruct S' as [S'|S']; [left; lia|right].
      constructor; [|exact S'].
      cbn [snd]. rewrite I. destruct St as [St|St]; [|lia].
      rewrite St. apply skipn_all.
Qed.

(** X13: dynamic_page_pool_destroy on a registered pool whose counts match
    its lists unlinks that pool from pool_list and passes every page it holds
    to __free_pages exactly once: first the clean low pages, then the clean
    high pages, then the dirty low and dirty high pages, each list in order.
    All four lists end empty with count 0. *)
Theorem dyn_destroy_frees_all id reg pool :
  find_reg id reg = Some pool -> counts_ok pool ->
  exists pool', dynamic_page_pool_destroy id reg = Some (del_reg id reg, pool') /\
    freed pool' = freed pool ++ items pool POOL_LOWPAGE ++ items pool POOL_HIGHPAGE ++
                  items pool POOL_LOWDEFERRED ++ items pool POOL_HIGHDEFERRED /\
    (forall i, items pool' i = [] /\ count pool' i = 0) /\
    mem pool' = mem pool /\ order pool' = order pool.
Proof.
  intros Fd Hc. unfold dynamic_page_pool_destroy. rewrite Fd.
  destruct (drain_index_all pool POOL_LOWPAGE (Hc _))
    as (p1 & D1 & F1 & I1 & C1 & O1 & M1 & R1).
  rewrite D1.
  destruct (O1 POOL_HIGHPAGE ltac:(discriminate)) as [I1h C1h].
  destruct (drain_index_all p1 POOL_HIGHPAGE ltac:(rewrite I1h, C1h; apply Hc))
    as (p2 & D2 & F2 & I2 & C2 & O2 & M2 & R2).
  rewrite D2.
  destruct (O1 POOL_LOWDEFERRED ltac:(discriminate)) as [I1l C1l].
  destruct (O2 POOL_LOWDEFERRED ltac:(discriminate)) as [I2l C2l].
  destruct (drain_index_all p2 POOL_LOWDEFERRED
              ltac:(rewrite I2l, C2l, I1l, C1l; apply Hc))
    as (p3 & D3 & F3 & I3 & C3 & O3 & M3 & R3).
  rewrite D3.
  destruct (O1 POOL_HIGHDEFERRED ltac:(discriminate)) as [I1d C1d].
  destruct (O2 POOL_HIGHDEFERRED ltac:(discriminate)) as [I2d C2d].
  destruct (O3 POOL_HIGHDEFERRED ltac:(discriminate)) as [I3d C3d].
  destruct (drain_index_all p3 POOL_HIGHDEFERRED
              ltac:(rewrite I3d, C3d, I2d, C2d, I1d, C1d; apply Hc))
    as (p4 & D4 & F4 & I4 & C4 & O4 & M4 & R4).
  rewrite D4. exists p4. split; [reflexivity|]. split.
  - rewrite F4, F3, F2, F1, I3d, I2d, I1d, I2l, I1l, I1h, <- !app_assoc. reflexivity.
  - split; [|split; congruence].
    intros i. destruct i.
    + destruct (O4 POOL_LOWPAGE ltac:(discriminate)) as [A B].
      destruct (O3 POOL_LOWPAGE ltac:(discriminate)) as [A' B'].
      destruct (O2 POOL_LOWPAGE ltac:(discriminate)) as [A'' B''].
      rewrite A, A', A'', B, B', B''. split; assumption.
    + destruct (O4 POOL_HIGHPAGE ltac:(discriminate)) as [A B].
      destruct (O3 POOL_HIGHPAGE ltac:(discriminate)) as [A' B'].
      rewrite A, A', B, B'. split; assumption.
    + destruct (O4 POOL_LOWDEFERRED ltac:(discriminate)) as [A B].
      rewrite A, B. split; assumption.
    + split; assumption.
Qed.

(** X14: dynamic_page_pool_free never makes a page available to
    dynamic_page_pool_fetch: the page fetch would return is the same before
    and after.  A page whose compound order differs from the pool's order
    is ignored.  Otherwise the page is appended to the dirty list of its
    memory class and that count grows by one; the other lists and counts,
    the memory and the freed runs are unchanged. *)
Theorem dyn_free_defers PageHighMem compound_order pool page :
  fst (dynamic_page_pool_fetch (dynamic_page_pool_free PageHighMem compound_order pool page)) =
    fst (dynamic_page_pool_fetch pool) /\
  (order pool <> compound_order page ->
     dynamic_page_pool_free PageHighMem compound_order pool page = pool) /\
  (order pool = compound_order page ->
     let d := if PageHighMem page then POOL_HIGHDEFERRED else POOL_LOWDEFERRED in
     let pool' := dynamic_page_pool_free PageHighMem compound_order pool page in
     items pool' d = items pool d ++ [page] /\ count pool' d = count pool d + 1 /\
     (forall j, j <> d -> items pool' j = items pool j /\ count pool' j = count pool j) /\
     mem pool' = mem pool /\ freed pool' = freed pool).
Proof.
  assert (P3 : order pool = compound_order page ->
     let d := if PageHighMem page then POOL_HIGHDEFERRED else POOL_LOWDEFERRED in
     let pool' := dynamic_page_pool_free PageHighMem compound_order pool page in
     items pool' d = items pool d ++ [page] /\ count pool' d = count pool d + 1 /\
     (forall j, j <> d -> items pool' j = items pool j /\ count pool' j = count pool j) /\
     mem pool' = mem pool /\ freed pool' = freed pool).
  { unfold dynamic_page_pool_free, dynamic_page_pool_add_dirty.
    intros H. rewrite <- H, Nat.eqb_refl. cbn [negb]. cbv zeta.
    cbn [items count mem freed]. rewrite !set_index_same.
    split; [reflexivity|]. split; [reflexivity|]. split; [|split; reflexivity].
    intros j Hj. rewrite !set_index_other by exact Hj. split; reflexivity. }
  split; [|split; [|exact P3]].
  - destruct (Nat.eq_dec (order pool) (compound_order page)) as [H|H].
    + destruct (P3 H) as (_ & _ & O & _).
      destruct (O POOL_HIGHPAGE ltac:(destruct (PageHighMem page); discriminate)) as [A B].
      destruct (O POOL_LOWPAGE ltac:(destruct (PageHighMem page); discriminate)) as [A' B'].
      apply fetch_fst_ext; assumption.
    + unfold dynamic_page_pool_free. apply Nat.eqb_neq in H. rewrite H. reflexivity.
  - intros H. unfold dynamic_page_pool_free. apply Nat.eqb_neq in H. rewrite H. reflexivity.
Qed.

(** X15: when the pool holds a clean page, dynamic_page_pool_alloc returns
    the first clean high page, or the first clean low page if there is no
    high one, without cleaning and without calling alloc_pages.  If every
    clean page has its first base page zeroed and the counts match the
    lists, the returned page reads zero, it leaves its clean list, and both
    properties still hold afterwards.  This holds whatever value the
    uninitialised batch index of the cleaning path starts with. *)
Theorem dyn_alloc_pooled PageHighMem vmap_ok p_init fatal_signal_pending alloc_pages pool p rest :
  counts_ok pool -> clean_zeroed pool ->
  items pool POOL_HIGHPAGE ++ items pool POOL_LOWPAGE = p :: rest ->
  exists pool', dynamic_page_pool_alloc PageHighMem vmap_ok p_init fatal_signal_pending alloc_pages
                  (Some pool) = Some (Some p, Some pool') /\
    mem pool p = 0 /\
    items pool' POOL_HIGHPAGE ++ items pool' POOL_LOWPAGE = rest /\
    items pool' POOL_HIGHDEFERRED = items pool POOL_HIGHDEFERRED /\
    items pool' POOL_LOWDEFERRED = items pool POOL_LOWDEFERRED /\
    freed pool' = freed pool /\ counts_ok pool' /\ clean_zeroed pool'.
Proof.
  intros Hc Hz E.
  assert (Zp : mem pool p = 0) by (apply Hz; rewrite E; left; reflexivity).
  unfold dynamic_page_pool_alloc, dynamic_page_pool_fetch.
  case_eq (items pool POOL_HIGHPAGE); [intros EH | intros h r EH].
  - rewrite EH in E. cbn [app] in E.
    rewrite (count_zero_nil_rev pool POOL_HIGHPAGE (Hc _) EH). cbn [negb].
    rewrite (count_cons_neq pool POOL_LOWPAGE p rest (Hc _) E). cbn [negb].
    rewrite (remove_cons pool POOL_LOWPAGE p rest (Hc _) E).
    eexists. split; [reflexivity|]. split; [exact Zp|].
    cbn [items count mem freed]. rewrite set_index_same, !set_index_other by discriminate.
    rewrite EH. split; [reflexivity|]. split; [reflexivity|]. split; [reflexivity|].
    split; [reflexivity|]. split; [apply (remove_counts_ok pool POOL_LOWPAGE p rest Hc E)|].
    intros q Hq. cbn [items] in Hq.
    rewrite set_index_same, set_index_other, EH in Hq by discriminate.
    apply Hz. rewrite EH, E. right. exact Hq.
  - rewrite EH in E. cbn [app] in E. injection E as <- Er.
    rewrite (count_cons_neq pool POOL_HIGHPAGE h r (Hc _) EH). cbn [negb].
    rewrite (remove_cons pool POOL_HIGHPAGE h r (Hc _) EH).
    eexists. split; [reflexivity|]. split; [exact Zp|].
    cbn [items count mem freed]. rewrite set_index_same, !set_index_other by discriminate.
    split; [exact Er|]. split; [reflexivity|]. split; [reflexivity|].
    split; [reflexivity|]. split; [apply (remove_counts_ok pool POOL_HIGHPAGE h r Hc EH)|].
    intros q Hq. cbn [items] in Hq.
    rewrite set_index_same, set_index_other in Hq by discriminate.
    apply Hz. rewrite EH. cbn [app]. right. exact Hq.
Qed.

(** X16: without highmem (not kswapd, no __GFP_HIGHMEM) and with a positive
    nr_to_scan, dynamic_page_pool_do_shrink frees the first k runs of the low
    dirty list followed by the low clean list, in that order, and returns
    k << order.  It stops as soon as the freed amount reaches nr_to_scan or
    both low lists are empty, and never touches the high lists. *)
Theorem dyn_do_shrink_low pool nr :
  counts_ok pool -> 0 < nr ->
  exists k pool', dynamic_page_pool_do_shrink pool false false nr =
      Some (Z.of_nat k * pages_of (order pool), pool') /\
    freed pool' = freed pool ++
      firstn k (items pool POOL_LOWDEFERRED ++ items pool POOL_LOWPAGE) /\
    items pool' POOL_LOWDEFERRED ++ items pool' POOL_LOWPAGE =
      skipn k (items pool POOL_LOWDEFERRED ++ items pool POOL_LOWPAGE) /\
    (k = length (items pool POOL_LOWDEFERRED ++ items pool POOL_LOWPAGE) \/
     nr <= Z.of_nat k * pages_of (order pool)) /\
    (Z.of_nat k - 1) * pages_of (order pool) < nr /\
    items pool' POOL_HIGHPAGE = items pool POOL_HIGHPAGE /\
    items pool' POOL_HIGHDEFERRED = items pool POOL_HIGHDEFERRED /\
    counts_ok pool'.
Proof. exact (dyn_do_shrink_low_aux pool nr). Qed.

(** X17: dynamic_page_pool_shrink_count frees nothing: it leaves every pool
    of pool_list unchanged and returns the sum over the pools of
    dynamic_page_pool_total, counting high pages only for kswapd or a
    __GFP_HIGHMEM request. *)
Theorem dyn_shrink_count_sum kswapd gfp_highmem reg :
  dynamic_page_pool_shrink_count kswapd gfp_highmem reg =
    Some (fold_right (fun e t => dynamic_page_pool_total (snd e)
                                   (if kswapd then true else gfp_highmem) + t) 0 reg, reg).
Proof.
  unfold dynamic_page_pool_shrink_count, dynamic_page_pool_shrink. cbn [Z.eqb].
  rewrite shrink_loop_count. reflexivity.
Qed.

(** X18: without highmem, dynamic_page_pool_shrink_scan with a positive
    nr_to_scan walks pool_list in order and returns the total it freed.
    Either that total reaches nr_to_scan, or every pool's low lists end
    empty.  No pool's high lists are touched, and no pool is added or
    removed. *)
Theorem dyn_shrink_scan_low nr reg :
  Forall (fun e => counts_ok (snd e)) reg -> 0 < nr ->
  exists t reg', dynamic_page_pool_shrink_scan false false nr reg = Some (t, reg') /\
    map fst reg' = map fst reg /\ 0 <= t /\
    Forall2 (fun e e' => items (snd e') POOL_HIGHPAGE = items (snd e) POOL_HIGHPAGE /\
                         items (snd e') POOL_HIGHDEFERRED = items (snd e) POOL_HIGHDEFERRED)
      reg reg' /\
    (nr <= t \/
     Forall (fun e => items (snd e) POOL_LOWDEFERRED ++ items (snd e) POOL_LOWPAGE = []) reg').
Proof.
  intros Hc Hn. unfold dynamic_page_pool_shrink_scan, dynamic_page_pool_shrink.
  replace (nr =? 0) with false by (symmetry; apply Z.eqb_neq; lia).
  destruct (shrink_loop_scan_low nr 0 reg Hc Hn) as (t & reg' & R & F & A & G & S).
  exists t, reg'. rewrite R. split; [reflexivity|]. split; [exact F|]. split; [lia|].
  split; [exact G|]. destruct S; [left; lia | right; assumption].
Qed.

Lemma dyn_pool1_counts : counts_ok Scenarios2.dyn_pool1.
Proof. intros i. destruct i; reflexivity. Qed.

Lemma dyn_destroy_frees_all_witness :
  exists pool', dynamic_page_pool_destroy 1 [(1, Scenarios2.dyn_pool1); (2, new_pool 0)]%nat =
    Some ([(2, new_pool 0)]%nat, pool') /\ freed pool' = [5; 6; 7; 3]%nat.
Proof.
  destruct (dyn_destroy_frees_all 1 [(1, Scenarios2.dyn_pool1); (2, new_pool 0)]%nat
              Scenarios2.dyn_pool1 eq_refl ltac:(intros i; destruct i; reflexivity))
    as (pool' & D & F & _).
  exists pool'. split; [exact D | rewrite F; reflexivity].
Defined.

Lemma dyn_alloc_pooled_witness :
  exists pool', dynamic_page_pool_alloc (fun _ => false) (fun _ => true) 0 false (fun _ => None)
                  (Some Scenarios2.dyn_pool1) = Some (Some 7%nat, Some pool') /\
    items pool' POOL_HIGHPAGE ++ items pool' POOL_LOWPAGE = [5; 6]%nat.
Proof.
  destruct (dyn_alloc_pooled (fun _ => false) (fun _ => true) 0 false (fun _ => None)
              Scenarios2.dyn_pool1 7 [5; 6]%nat
              ltac:(intros i; destruct i; reflexivity)
              ltac:(intros r _; reflexivity) eq_refl)
    as (pool' & A & _ & I & _).
  exists pool'. split; [exact A | exact I].
Defined.

Lemma dyn_do_shrink_low_witness :
  exists pool', dynamic_page_pool_do_shrink Scenarios2.dyn_pool1 false false 2 =
      Some (2, pool') /\ freed pool' = [3; 5]%nat.
Proof.
  destruct (dyn_do_shrink_low Scenarios2.dyn_pool1 2
              ltac:(intros i; destruct i; reflexivity) ltac:(lia))
    as (k & pool' & R & F & _ & St & Lo & _).
  cbn [Scenarios2.dyn_pool1 order items pages_of length app Z.shiftl Z.of_nat] in R, F, St, Lo.
  assert (Ek : k = 2%nat) by (destruct St; lia). subst k.
  exists pool'. split; [exact R | exact F].
Defined.

Lemma dyn_shrink_scan_low_witness :
  exists t reg', dynamic_page_pool_shrink_scan false false 2
                   [(1, Scenarios2.dyn_pool1); (2, Scenarios2.dyn_pool1)]%nat = Some (t, reg') /\
    map fst reg' = [1; 2]%nat /\ 2 <= t.
Proof.
  destruct (dyn_shrink_scan_low 2 [(1, Scenarios2.dyn_pool1); (2, Scenarios2.dyn_pool1)]%nat
              ltac:(repeat constructor; intros i; destruct i; reflexivity) ltac:(lia))
    as (t & reg' & R & F & _ & _ & S).
  exists t, reg'. split; [exact R|]. split; [exact F|].
  destruct S as [S|S]; [exact S|].
  exfalso. vm_compute in R. injection R as <- <-.
  inversion S as [|? ? H _]. discriminate H.
Defined.

Lemma dyn_free_defers_witness :
  fst (dynamic_page_pool_fetch
         (dynamic_page_pool_free (fun _ => false) (fun _ => 0%nat) Scenarios2.dyn_pool1 9)) =
    Some 7%nat /\
  items (dynamic_page_pool_free (fun _ => false) (fun _ => 0%nat) Scenarios2.dyn_pool1 9)
    POOL_LOWDEFERRED = [3; 9]%nat.
Proof.
  destruct (dyn_free_defers (fun _ => false) (fun _ => 0%nat) Scenarios2.dyn_pool1 9)
    as (Fe & _ & P3).
  split; [rewrite Fe; reflexivity|].
  destruct (P3 eq_refl) as (I & _). exact I.
Defined.

End DynamicProps.
